(** * GLPI-MANUTENCAO frontend: session token and authenticated-request gating

    A shallow embedding of
      - [lib/auth.ts]   (token store, credential decoder, expiry evaluator),
      - [components/app/AppFrame.tsx] (the page-level session guard),
      - the device / maintenance fetch wrappers built on [getBaseUrl],
    followed by the properties of the specification that concern them.

    JavaScript strings are sequences of UTF-16 code units, written here as
    [list N].  JSON numbers are modelled by exact rationals ([Q]); the
    rounding of IEEE doubles is outside the model. *)

From Stdlib Require Import NArith ZArith QArith Qminmax Qround Qabs Qpower Lia Lqa String Ascii List DecimalString.
From Stdlib Require SpecFloat.
From stdpp Require Import base option list gmap.

Local Open Scope N_scope.

(** ** JavaScript strings *)

Abbreviation jsstring := (list N).

Definition ch (a : ascii) : N := N_of_ascii a.

Fixpoint lit (s : string) : jsstring :=
  match s with
  | EmptyString => []
  | String a r => ch a :: lit r
  end.

(** [s.split(sep)] for a one-character separator. *)
Fixpoint split (sep : N) (s : jsstring) : list jsstring :=
  match s with
  | [] => [[]]
  | c :: r =>
      if c =? sep then [] :: split sep r
      else match split sep r with
           | h :: t => (c :: h) :: t
           | [] => [[c]]
           end
  end.

(** [s.replace(/a/g, b)] for single characters [a] and [b]. *)
Definition replace_all (a b : N) (s : jsstring) : jsstring :=
  map (fun c => if c =? a then b else c) s.

(** [s.padStart(n, "0")]. *)
Definition padStart0 (n : nat) (s : jsstring) : jsstring :=
  repeat (ch "0") (n - length s) ++ s.

Definition hex_digit (d : N) : N := if d <? 10 then 48 + d else 87 + d.

Fixpoint hex_digits (fuel : nat) (n : N) (acc : jsstring) : jsstring :=
  match fuel with
  | O => acc
  | S f =>
      let acc' := hex_digit (n mod 16) :: acc in
      if n / 16 =? 0 then acc' else hex_digits f (n / 16) acc'
  end.

(** [n.toString(16)] for a non-negative integer [n]. *)
Definition toString16 (n : N) : jsstring :=
  hex_digits (S (N.to_nat (N.log2 n))) n [].

(** [String(n)] for a non-negative integer [n]. *)
Definition toString10 (n : N) : jsstring :=
  lit (NilZero.string_of_uint (N.to_uint n)).

(** ** Platform functions used by [base64UrlDecode] *)

(** *** [atob]: the forgiving-base64 decode of the HTML standard.
    [None] stands for the [InvalidCharacterError] it throws. *)

Definition is_ascii_whitespace (c : N) : bool :=
  (c =? 9) || (c =? 10) || (c =? 12) || (c =? 13) || (c =? 32).

Definition b64_value (c : N) : option N :=
  if (65 <=? c) && (c <=? 90) then Some (c - 65)
  else if (97 <=? c) && (c <=? 122) then Some (c - 71)
  else if (48 <=? c) && (c <=? 57) then Some (c + 4)
  else if c =? 43 then Some 62
  else if c =? 47 then Some 63
  else None.

Fixpoint b64_values (s : jsstring) : option (list N) :=
  match s with
  | [] => Some []
  | c :: r =>
      match b64_value c, b64_values r with
      | Some v, Some vs => Some (v :: vs)
      | _, _ => None
      end
  end.

(** Groups of four sextets give three bytes; a tail of three gives two
    bytes (the last two bits are dropped) and a tail of two gives one byte
    (the last four bits are dropped). *)
Fixpoint decode_sextets (l : list N) : list N :=
  match l with
  | a :: b :: c :: d :: r =>
      let n := ((a * 64 + b) * 64 + c) * 64 + d in
      n / 65536 :: (n / 256) mod 256 :: n mod 256 :: decode_sextets r
  | [a; b; c] =>
      let n := ((a * 64 + b) * 64 + c) / 4 in
      [n / 256; n mod 256]
  | [a; b] => [(a * 64 + b) / 16]
  | _ => []
  end.

(** Removes one or two trailing [=]. *)
Definition strip_equals (d : jsstring) : jsstring :=
  match rev d with
  | c1 :: r1 =>
      if c1 =? 61 then
        match r1 with
        | c2 :: r2 => if c2 =? 61 then rev r2 else rev r1
        | [] => rev r1
        end
      else d
  | [] => d
  end.

Definition atob (data : jsstring) : option jsstring :=
  let d := List.filter (fun c => negb (is_ascii_whitespace c)) data in
  let d := if (length d mod 4 =? 0)%nat then strip_equals d else d in
  if (length d mod 4 =? 1)%nat then None
  else match b64_values d with
       | Some vs => Some (decode_sextets vs)
       | None => None
       end.

(** *** [decodeURIComponent].  [None] stands for the [URIError] it throws.
    The escapes are read first, then the octets are interpreted as UTF-8;
    every failure of either step is the same [URIError]. *)

Definition hex_value (c : N) : option N :=
  if (48 <=? c) && (c <=? 57) then Some (c - 48)
  else if (97 <=? c) && (c <=? 102) then Some (c - 87)
  else if (65 <=? c) && (c <=? 70) then Some (c - 55)
  else None.

Inductive uri_item := Lit (c : N) | Oct (b : N).

Fixpoint uri_unescape (s : jsstring) : option (list uri_item) :=
  match s with
  | [] => Some []
  | c :: r =>
      if c =? 37 then
        match r with
        | h1 :: h2 :: r' =>
            match hex_value h1, hex_value h2, uri_unescape r' with
            | Some a, Some b, Some items => Some (Oct (16 * a + b) :: items)
            | _, _, _ => None
            end
        | _ => None
        end
      else match uri_unescape r with
           | Some items => Some (Lit c :: items)
           | None => None
           end
  end.

Definition is_continuation (b : N) : bool := (128 <=? b) && (b <? 192).

Definition is_surrogate (c : N) : bool := (55296 <=? c) && (c <? 57344).

(** The UTF-16 encoding of a code point. *)
Definition utf16 (cp : N) : jsstring :=
  if cp <? 65536 then [cp]
  else [55296 + (cp - 65536) / 1024; 56320 + (cp - 65536) mod 1024].

Definition utf8_cp2 (b0 b1 : N) : option N :=
  let cp := (b0 - 192) * 64 + (b1 - 128) in
  if is_continuation b1 && (128 <=? cp) then Some cp else None.

Definition utf8_cp3 (b0 b1 b2 : N) : option N :=
  let cp := ((b0 - 224) * 64 + (b1 - 128)) * 64 + (b2 - 128) in
  if is_continuation b1 && is_continuation b2 && (2048 <=? cp)
     && negb (is_surrogate cp)
  then Some cp else None.

Definition utf8_cp4 (b0 b1 b2 b3 : N) : option N :=
  let cp := (((b0 - 240) * 64 + (b1 - 128)) * 64 + (b2 - 128)) * 64 + (b3 - 128) in
  if is_continuation b1 && is_continuation b2 && is_continuation b3
     && (65536 <=? cp) && (cp <? 1114112)
  then Some cp else None.

Fixpoint utf8_items (l : list uri_item) : option jsstring :=
  match l with
  | [] => Some []
  | Lit c :: r =>
      match utf8_items r with Some s => Some (c :: s) | None => None end
  | Oct b0 :: r =>
      if b0 <? 128 then
        match utf8_items r with Some s => Some (b0 :: s) | None => None end
      else if b0 <? 192 then None
      else if b0 <? 224 then
        match r with
        | Oct b1 :: r1 =>
            match utf8_cp2 b0 b1, utf8_items r1 with
            | Some cp, Some s => Some (utf16 cp ++ s)
            | _, _ => None
            end
        | _ => None
        end
      else if b0 <? 240 then
        match r with
        | Oct b1 :: Oct b2 :: r2 =>
            match utf8_cp3 b0 b1 b2, utf8_items r2 with
            | Some cp, Some s => Some (utf16 cp ++ s)
            | _, _ => None
            end
        | _ => None
        end
      else if b0 <? 248 then
        match r with
        | Oct b1 :: Oct b2 :: Oct b3 :: r3 =>
            match utf8_cp4 b0 b1 b2 b3, utf8_items r3 with
            | Some cp, Some s => Some (utf16 cp ++ s)
            | _, _ => None
            end
        | _ => None
        end
      else None
  end.

Definition decodeURIComponent (s : jsstring) : option jsstring :=
  match uri_unescape s with
  | Some items => utf8_items items
  | None => None
  end.

(** *** UTF-8 encoding of a JavaScript string (as [TextEncoder] does it):
    a surrogate pair is one code point, a lone surrogate is replaced by
    U+FFFD. *)

Definition is_high_surrogate (c : N) : bool := (55296 <=? c) && (c <? 56320).
Definition is_low_surrogate (c : N) : bool := (56320 <=? c) && (c <? 57344).

Fixpoint code_points (s : jsstring) : list N :=
  match s with
  | [] => []
  | c :: r =>
      if is_high_surrogate c then
        match r with
        | d :: r' =>
            if is_low_surrogate d
            then 65536 + (c - 55296) * 1024 + (d - 56320) :: code_points r'
            else 65533 :: code_points r
        | [] => [65533]
        end
      else if is_low_surrogate c then 65533 :: code_points r
      else c :: code_points r
  end.

(** No lone surrogate, and every element is a 16-bit code unit. *)
Fixpoint well_formed (s : jsstring) : bool :=
  match s with
  | [] => true
  | c :: r =>
      if is_high_surrogate c then
        match r with
        | d :: r' => is_low_surrogate d && well_formed r'
        | [] => false
        end
      else negb (is_low_surrogate c) && (c <? 65536) && well_formed r
  end.

Definition utf8_bytes (cp : N) : list N :=
  if cp <? 128 then [cp]
  else if cp <? 2048 then [192 + cp / 64; 128 + cp mod 64]
  else if cp <? 65536 then
    [224 + cp / 4096; 128 + (cp / 64) mod 64; 128 + cp mod 64]
  else [240 + cp / 262144; 128 + (cp / 4096) mod 64;
        128 + (cp / 64) mod 64; 128 + cp mod 64].

Definition utf8_encode (s : jsstring) : list N :=
  flat_map utf8_bytes (code_points s).

(** *** Standard base64 (RFC 4648) of a byte sequence, with padding. *)

Definition b64_char (v : N) : N :=
  if v <? 26 then 65 + v
  else if v <? 52 then 71 + v
  else if v <? 62 then v - 4
  else if v =? 62 then 43
  else 47.

(** The 6-bit groups of a byte sequence, the last one filled with zero
    bits. *)
Fixpoint sextets (bytes : list N) : list N :=
  match bytes with
  | [] => []
  | [a] => [a / 4; (a mod 4) * 16]
  | [a; b] => [a / 4; (a mod 4) * 16 + b / 16; (b mod 16) * 4]
  | a :: b :: c :: r =>
      a / 4 :: (a mod 4) * 16 + b / 16 :: (b mod 16) * 4 + c / 64 :: c mod 64
      :: sextets r
  end.

(** The number of [=] that pad the encoding of [bytes]. *)
Definition pad_length (bytes : list N) : nat :=
  ((3 - length bytes mod 3) mod 3)%nat.

Definition base64_encode (bytes : list N) : jsstring :=
  map b64_char (sextets bytes) ++ repeat 61 (pad_length bytes).

(** URL-safe base64 as the specification words it: [+] becomes [-], [/]
    becomes [_], and the padding is stripped. *)
Definition base64url_encode (bytes : list N) : jsstring :=
  List.filter (fun c => negb (c =? 61))
    (replace_all 47 95 (replace_all 43 45 (base64_encode bytes))).

(** ** JSON values *)

Local Unset Elimination Schemes.

(** A number is held by its value: the rational that the double is. *)
Inductive json :=
| JNull
| JBool (b : bool)
| JNum (q : Q)
| JStr (s : jsstring)
| JArr (items : list json)
| JObj (fields : list (jsstring * json)).

Local Set Elimination Schemes.

Fixpoint assoc (k : jsstring) (fields : list (jsstring * json)) : option json :=
  match fields with
  | [] => None
  | (k', v) :: r => if bool_decide (k' = k) then Some v else assoc k r
  end.

(** [obj[k] = v] on the own properties of an object: an existing key keeps
    its place and takes the new value. *)
Fixpoint set_field (k : jsstring) (v : json) (fields : list (jsstring * json))
  : list (jsstring * json) :=
  match fields with
  | [] => [(k, v)]
  | (k', v') :: r =>
      if bool_decide (k' = k) then (k, v) :: r else (k', v') :: set_field k v r
  end.

(** The platform functions the program calls and whose algorithms are not
    part of it.  [None] stands for the exception the function throws
    ([SyntaxError] for [JSON.parse], [URIError] for [encodeURIComponent]). *)
Class Platform := {
  JSON_parse : jsstring -> option json;
  JSON_stringify : json -> jsstring;
  encodeURIComponent : jsstring -> option jsstring;
}.

(** ** A reference platform

    A reader and a printer for JSON texts and an [encodeURIComponent], used
    to run the embedding on concrete credentials.  The properties below are
    stated for every [Platform]. *)

Module Reference.

Definition is_json_ws (c : N) : bool :=
  (c =? 9) || (c =? 10) || (c =? 13) || (c =? 32).

Fixpoint skip_ws (s : jsstring) : jsstring :=
  match s with
  | c :: r => if is_json_ws c then skip_ws r else s
  | [] => []
  end.

Definition is_digit (c : N) : bool := (48 <=? c) && (c <=? 57).

(** Leading decimal digits of [s]: their value, their number, the rest. *)
Fixpoint read_digits (s : jsstring) (acc : N) (n : nat) : N * nat * jsstring :=
  match s with
  | c :: r => if is_digit c then read_digits r (acc * 10 + (c - 48)) (S n)
              else (acc, n, s)
  | [] => (acc, n, [])
  end.

Definition read_exponent (s : jsstring) : option (Z * jsstring) :=
  match s with
  | c :: r =>
      if (c =? 101) || (c =? 69) then
        let '(neg, r1) :=
          match r with
          | 45 :: r' => (true, r')
          | 43 :: r' => (false, r')
          | _ => (false, r)
          end in
        let '(e, n, r2) := read_digits r1 0 0 in
        match n with
        | O => None
        | _ => Some (if neg then (- Z.of_N e)%Z else Z.of_N e, r2)
        end
      else Some (0%Z, s)
  | [] => Some (0%Z, [])
  end.

Definition read_fraction (s : jsstring) : option (N * nat * jsstring) :=
  match s with
  | 46 :: r =>
      let '(f, n, r1) := read_digits r 0 0 in
      match n with O => None | _ => Some (f, n, r1) end
  | _ => Some (0, O, s)
  end.

Definition decimal (neg : bool) (mant : N) (e10 : Z) : Q :=
  let m := if neg then (- Z.of_N mant)%Z else Z.of_N mant in
  Qred (if (0 <=? e10)%Z then inject_Z (m * 10 ^ e10)
        else Qmake m (Z.to_pos (10 ^ (- e10)))).

Definition read_number (s : jsstring) : option (json * jsstring) :=
  let '(neg, s1) := match s with 45 :: r => (true, r) | _ => (false, s) end in
  let '(i, n, s2) := read_digits s1 0 0 in
  let leading_zero := match s1 with 48 :: _ => true | _ => false end in
  match n with
  | O => None
  | S k =>
      if leading_zero && negb (Nat.eqb k 0) then None
      else
        match read_fraction s2 with
        | Some (f, fl, s3) =>
            match read_exponent s3 with
            | Some (e, s4) =>
                Some (JNum (decimal neg (i * 10 ^ N.of_nat fl + f)
                                    (e - Z.of_nat fl)), s4)
            | None => None
            end
        | None => None
        end
  end.

Definition simple_escape (e : N) : option N :=
  if e =? 34 then Some 34 else if e =? 92 then Some 92
  else if e =? 47 then Some 47 else if e =? 98 then Some 8
  else if e =? 102 then Some 12 else if e =? 110 then Some 10
  else if e =? 114 then Some 13 else if e =? 116 then Some 9
  else None.

(** The characters of a string literal after its opening quote. *)
Fixpoint read_string (s : jsstring) : option (jsstring * jsstring) :=
  match s with
  | [] => None
  | c :: r =>
      if c =? 34 then Some ([], r)
      else if c =? 92 then
        match r with
        | 117 :: h1 :: h2 :: h3 :: h4 :: r' =>
            match hex_value h1, hex_value h2, hex_value h3, hex_value h4,
                  read_string r' with
            | Some a, Some b, Some c', Some d, Some (str, rest) =>
                Some (((a * 16 + b) * 16 + c') * 16 + d :: str, rest)
            | _, _, _, _, _ => None
            end
        | e :: r' =>
            match simple_escape e, read_string r' with
            | Some x, Some (str, rest) => Some (x :: str, rest)
            | _, _ => None
            end
        | [] => None
        end
      else if c <? 32 then None
      else match read_string r with
           | Some (str, rest) => Some (c :: str, rest)
           | None => None
           end
  end.

Fixpoint read_value (fuel : nat) (s : jsstring) : option (json * jsstring) :=
  match fuel with
  | O => None
  | S f =>
      let elements :=
        fix elements (n : nat) (s : jsstring) (acc : list json) {struct n} :=
          match n with
          | O => None
          | S n' =>
              match read_value f s with
              | Some (v, r) =>
                  match skip_ws r with
                  | 44 :: r' => elements n' r' (v :: acc)
                  | 93 :: r' => Some (JArr (rev (v :: acc)), r')
                  | _ => None
                  end
              | None => None
              end
          end in
      let members :=
        fix members (n : nat) (s : jsstring) (acc : list (jsstring * json))
            {struct n} :=
          match n with
          | O => None
          | S n' =>
              match skip_ws s with
              | 34 :: r =>
                  match read_string r with
                  | Some (k, r1) =>
                      match skip_ws r1 with
                      | 58 :: r2 =>
                          match read_value f r2 with
                          | Some (v, r3) =>
                              match skip_ws r3 with
                              | 44 :: r4 => members n' r4 (set_field k v acc)
                              | 125 :: r4 => Some (JObj (set_field k v acc), r4)
                              | _ => None
                              end
                          | None => None
                          end
                      | _ => None
                      end
                  | None => None
                  end
              | _ => None
              end
          end in
      match skip_ws s with
      | 110 :: 117 :: 108 :: 108 :: r => Some (JNull, r)
      | 116 :: 114 :: 117 :: 101 :: r => Some (JBool true, r)
      | 102 :: 97 :: 108 :: 115 :: 101 :: r => Some (JBool false, r)
      | 34 :: r =>
          match read_string r with
          | Some (str, r') => Some (JStr str, r')
          | None => None
          end
      | 91 :: r =>
          match skip_ws r with
          | 93 :: r' => Some (JArr [], r')
          | _ => elements f r []
          end
      | 123 :: r =>
          match skip_ws r with
          | 125 :: r' => Some (JObj [], r')
          | _ => members f r []
          end
      | s' => read_number s'
      end
  end.

Definition parse (s : jsstring) : option json :=
  match read_value (S (length s)) s with
  | Some (v, r) => match skip_ws r with [] => Some v | _ => None end
  | None => None
  end.

Definition hex4 (c : N) : jsstring :=
  [hex_digit (c / 4096); hex_digit ((c / 256) mod 16);
   hex_digit ((c / 16) mod 16); hex_digit (c mod 16)].

Definition escape_unit (c : N) : jsstring :=
  if c =? 34 then [92; 34] else if c =? 92 then [92; 92]
  else if c =? 8 then [92; 98] else if c =? 12 then [92; 102]
  else if c =? 10 then [92; 110] else if c =? 13 then [92; 114]
  else if c =? 9 then [92; 116]
  else if (c <? 32) || is_surrogate c then 92 :: 117 :: hex4 c
  else [c].

Fixpoint quote_units (s : jsstring) : jsstring :=
  match s with
  | [] => []
  | c :: r =>
      if is_high_surrogate c then
        match r with
        | d :: r' =>
            if is_low_surrogate d then c :: d :: quote_units r'
            else escape_unit c ++ quote_units r
        | [] => escape_unit c
        end
      else escape_unit c ++ quote_units r
  end.

Definition quote (s : jsstring) : jsstring := 34 :: quote_units s ++ [34].

(** Up to [fuel] fractional digits of [r / d], trailing zeros dropped. *)
Fixpoint fraction_digits (fuel : nat) (r d : N) : jsstring :=
  match fuel with
  | O => []
  | S f => if r =? 0 then []
           else (48 + (r * 10) / d) :: fraction_digits f ((r * 10) mod d) d
  end.

Definition print_number (q : Q) : jsstring :=
  let q := Qred q in
  let n := Z.abs_N (Qnum q) in
  let d := Npos (Qden q) in
  let sign := if (Qnum q <? 0)%Z then [45] else [] in
  let frac := fraction_digits 17 (n mod d) d in
  sign ++ toString10 (n / d) ++ match frac with [] => [] | _ => 46 :: frac end.

Definition join (sep : jsstring) (l : list jsstring) : jsstring :=
  match l with
  | [] => []
  | h :: t => h ++ flat_map (fun x => sep ++ x) t
  end.

Fixpoint stringify (v : json) : jsstring :=
  match v with
  | JNull => lit "null"
  | JBool true => lit "true"
  | JBool false => lit "false"
  | JNum q => print_number q
  | JStr s => quote s
  | JArr items => 91 :: join [44] (map stringify items) ++ [93]
  | JObj fields =>
      123 :: join [44] (map (fun kv => quote (fst kv) ++ 58 :: stringify (snd kv))
                            fields) ++ [125]
  end.

Definition is_unreserved (c : N) : bool :=
  ((65 <=? c) && (c <=? 90)) || ((97 <=? c) && (c <=? 122)) || is_digit c
  || (c =? 45) || (c =? 95) || (c =? 46) || (c =? 33) || (c =? 126)
  || (c =? 42) || (c =? 39) || (c =? 40) || (c =? 41).

Definition upper_hex (d : N) : N := if d <? 10 then 48 + d else 55 + d.

Definition encode_uri_component (s : jsstring) : option jsstring :=
  if well_formed s then
    Some (flat_map (fun cp =>
                      if is_unreserved cp then [cp]
                      else flat_map (fun b => [37; upper_hex (b / 16);
                                               upper_hex (b mod 16)])
                                    (utf8_bytes cp))
                   (code_points s))
  else None.

#[export] Instance platform : Platform := {|
  JSON_parse := parse;
  JSON_stringify := stringify;
  encodeURIComponent := encode_uri_component;
|}.

End Reference.

(** ** Exceptions, completions and the state-and-exception monad *)

Inductive exn :=
| Error (msg : jsstring)
| DOMException (name : jsstring)
| ReferenceError
| SyntaxError
| TypeError
| URIError.

Inductive completion (A : Type) :=
| Normal (a : A)
| Throw (e : exn).

Arguments Normal {A} a.
Arguments Throw {A} e.

Definition M (S A : Type) : Type := S -> completion A * S.

Definition ret {S A} (a : A) : M S A := fun s => (Normal a, s).

Definition throw {S A} (e : exn) : M S A := fun s => (Throw e, s).

Definition bind {S A B} (m : M S A) (k : A -> M S B) : M S B :=
  fun s => match m s with
           | (Normal a, s') => k a s'
           | (Throw e, s') => (Throw e, s')
           end.

(** [try { m } catch (e) { h e }]. *)
Definition try_catch {S A} (m : M S A) (h : exn -> M S A) : M S A :=
  fun s => match m s with
           | (Normal a, s') => (Normal a, s')
           | (Throw e, s') => h e s'
           end.

Notation "x <- m ;; k" := (bind m (fun x => k))
  (at level 100, m at next level, right associativity).
Notation "m ;; k" := (bind m (fun _ => k))
  (at level 100, right associativity).

(** A call of a platform function that throws [e] when it fails. *)
Definition call {S A} (e : exn) (r : option A) : M S A :=
  match r with
  | Some a => ret a
  | None => throw e
  end.

Definition gets {S A} (f : S -> A) : M S A := fun s => (Normal (f s), s).

Definition modify {S} (f : S -> S) : M S unit := fun s => (Normal tt, f s).

(** ** The browser tab *)

(** [window.localStorage]: reading the property itself may throw (storage
    blocked by the browser), and [setItem] may throw when the quota is
    exhausted. *)
Inductive storage :=
| Blocked
| Area (full : bool) (items : gmap (list N) (list N)).

Record request := {
  url : jsstring;
  method : jsstring;
  headers : list (jsstring * jsstring);
  body : option jsstring;
  cache : option jsstring;
  signal : bool;
}.

(** What the program does to its surroundings, oldest first.  A storage
    event records the attempt, whether or not it succeeds. *)
Inductive event :=
| StorageGet (k : jsstring)
| StorageSet (k v : jsstring)
| StorageRemove (k : jsstring)
| FetchSent (r : request)
| AbortSignalled
| RouterReplace (path : jsstring)
| UnhandledRejection (e : exn).

Record world := {
  window : option storage;
  NEXT_PUBLIC_PY_API_URL : option jsstring;
  clock_ms : N;
  trace : list event;
}.

Definition record_event (ev : event) (w : world) : world :=
  {| window := window w;
     NEXT_PUBLIC_PY_API_URL := NEXT_PUBLIC_PY_API_URL w;
     clock_ms := clock_ms w;
     trace := trace w ++ [ev] |}.

Definition with_items (full : bool) (items : gmap (list N) (list N)) (w : world)
  : world :=
  {| window := Some (Area full items);
     NEXT_PUBLIC_PY_API_URL := NEXT_PUBLIC_PY_API_URL w;
     clock_ms := clock_ms w;
     trace := trace w |}.

Definition typeof_window_undefined : M world bool :=
  gets (fun w => match window w with None => true | Some _ => false end).

Definition localStorage_getItem (k : jsstring) : M world (option jsstring) :=
  fun w =>
    match window w with
    | None => (Throw ReferenceError, w)
    | Some Blocked =>
        (Throw (DOMException (lit "SecurityError")), record_event (StorageGet k) w)
    | Some (Area _ items) => (Normal (items !! k), record_event (StorageGet k) w)
    end.

Definition localStorage_setItem (k v : jsstring) : M world unit :=
  fun w =>
    match window w with
    | None => (Throw ReferenceError, w)
    | Some Blocked =>
        (Throw (DOMException (lit "SecurityError")),
         record_event (StorageSet k v) w)
    | Some (Area true items) =>
        (Throw (DOMException (lit "QuotaExceededError")),
         record_event (StorageSet k v) w)
    | Some (Area false items) =>
        (Normal tt, record_event (StorageSet k v) (with_items false (<[k:=v]> items) w))
    end.

Definition localStorage_removeItem (k : jsstring) : M world unit :=
  fun w =>
    match window w with
    | None => (Throw ReferenceError, w)
    | Some Blocked =>
        (Throw (DOMException (lit "SecurityError")),
         record_event (StorageRemove k) w)
    | Some (Area full items) =>
        (Normal tt, record_event (StorageRemove k) (with_items full (delete k items) w))
    end.

Definition Date_now : M world N := gets clock_ms.

Definition process_env_NEXT_PUBLIC_PY_API_URL : M world (option jsstring) :=
  gets NEXT_PUBLIC_PY_API_URL.

(** JavaScript truthiness of a [string | null | undefined] value. *)
Definition truthy (s : option jsstring) : bool :=
  match s with
  | Some (_ :: _) => true
  | _ => false
  end.

(** An optional parameter of type [A | null]. *)
Inductive arg (A : Type) :=
| Undefined
| Null
| Given (a : A).

Arguments Undefined {A}.
Arguments Null {A}.
Arguments Given {A} a.

(** ** JavaScript numbers *)

(** A number: NaN, an infinity, or a finite double, held by its value.  The
    two zeros are not told apart; nothing below divides by one. *)
Inductive number :=
| NaN
| Infinite (negative : bool)
| Double (x : Q).

(** [floor (log2 x)] for a positive [x]. *)
Definition log2_floor (x : Q) : Z :=
  let k := (Z.log2 (Qnum x) - Z.log2 (Zpos (Qden x)))%Z in
  if Qle_bool (2 ^ k)%Q x then k else (k - 1)%Z.

(** The nearest integer, a tie going to the even one. *)
Definition round_half_even (x : Q) : Z :=
  let f := Qfloor x in
  match (x - inject_Z f ?= 1 # 2)%Q with
  | Lt => f
  | Eq => if Z.even f then f else (f + 1)%Z
  | Gt => (f + 1)%Z
  end.

(** The spacing of the doubles around [x] is [2 ^ ulp_exponent x]: 53
    significant bits, and [2 ^ -1074] throughout the subnormal range. *)
Definition ulp_exponent (x : Q) : Z :=
  Z.max (-1074) (log2_floor (Qabs x) - 52)%Z.

(** The double an exact result is rounded to (IEEE 754 binary64, round to
    nearest, ties to even): every arithmetic operator of the language
    returns its exact result rounded so.  A result that rounds to [2 ^ 1024]
    or beyond is an infinity. *)
Definition round64 (x : Q) : number :=
  if Qeq_bool x 0 then Double 0%Q
  else
    let e := ulp_exponent x in
    let r := (inject_Z (round_half_even (x / 2 ^ e)) * 2 ^ e)%Q in
    if Qle_bool (2 ^ 1024)%Q (Qabs r) then Infinite (negb (Qle_bool 0 x))
    else Double r.

(** [x - y] *)
Definition number_sub (x y : number) : number :=
  match x, y with
  | NaN, _ | _, NaN => NaN
  | Infinite a, Infinite b => if Bool.eqb a b then NaN else Infinite a
  | Infinite a, Double _ => Infinite a
  | Double _, Infinite b => Infinite (negb b)
  | Double x, Double y => round64 (x - y)%Q
  end.

(** [x >= y] *)
Definition number_ge (x y : number) : bool :=
  match x, y with
  | NaN, _ | _, NaN => false
  | Infinite a, Infinite b => negb a || b
  | Infinite a, Double _ => negb a
  | Double _, Infinite b => b
  | Double x, Double y => Qle_bool y x
  end.

(** [Math.max(x, y)] *)
Definition Math_max (x y : number) : number :=
  match x, y with
  | NaN, _ | _, NaN => NaN
  | _, _ => if number_ge x y then x else y
  end.

(** ** lib/auth.ts *)

Section Auth.

Context `{Platform}.

Definition TOKEN_KEY : jsstring := lit "glpi_manutencao_token".

Definition getToken : M world (option jsstring) :=
  undef <- typeof_window_undefined ;;
  if undef then ret None
  else try_catch (localStorage_getItem TOKEN_KEY) (fun _ => ret None).

Definition setToken (token : jsstring) : M world unit :=
  undef <- typeof_window_undefined ;;
  if undef then ret tt
  else localStorage_setItem TOKEN_KEY token.

Definition clearToken : M world unit :=
  undef <- typeof_window_undefined ;;
  if undef then ret tt
  else localStorage_removeItem TOKEN_KEY.

(** The argument of [decodeURIComponent]: every character [c] of the
    [atob] result becomes ["%"] followed by
    [c.charCodeAt(0).toString(16).padStart(2, "0")]. *)
Definition percent_escape (bin : jsstring) : jsstring :=
  flat_map (fun c => ch "%" :: padStart0 2 (toString16 c)) bin.

(** The constant [normalized] of [base64UrlDecode]. *)
Definition normalized (input : jsstring) : jsstring :=
  let pad := (length input mod 4)%nat in
  replace_all (ch "_") (ch "/")
    (replace_all (ch "-") (ch "+")
       (if negb (pad =? 0)%nat then input ++ repeat (ch "=") (4 - pad)
        else input)).

Definition base64UrlDecode {S} (input : jsstring) : M S jsstring :=
  try_catch
    (bin <- call (DOMException (lit "InvalidCharacterError"))
                 (atob (normalized input)) ;;
     call URIError (decodeURIComponent (percent_escape bin)))
    (fun _ => ret []).

(** The result has type [JwtPayload | null]: it is the value [JSON.parse]
    returns, or [JNull] for [null]. *)
Definition getTokenPayload (token : arg jsstring) : M world json :=
  t <- match token with
       | Given s => ret (Some s)
       | Null | Undefined => getToken
       end ;;
  if negb (truthy t) then ret JNull
  else
    let parts := split (ch ".") (default [] t) in
    if (length parts <? 2)%nat then ret JNull
    else
      json <- base64UrlDecode (nth 1 parts []) ;;
      if negb (truthy (Some json)) then ret JNull
      else try_catch (call SyntaxError (JSON_parse json)) (fun _ => ret JNull).

(** [payload?.exp]; [None] is [undefined].  Only an object can have an
    [exp] property of its own, and no prototype defines one. *)
Definition optional_exp (payload : json) : option json :=
  match payload with
  | JObj fields => assoc (lit "exp") fields
  | _ => None
  end.

(** [!v] *)
Definition falsy (v : option json) : bool :=
  match v with
  | None | Some JNull | Some (JBool false) | Some (JStr []) => true
  | Some (JNum q) => Qeq_bool q 0
  | _ => false
  end.

(** [typeof v === "number"] *)
Definition typeof_number (v : option json) : bool :=
  match v with
  | Some (JNum _) => true
  | _ => false
  end.

(** The number a value of type [number] is. *)
Definition number_of (v : option json) : number :=
  match v with
  | Some (JNum q) => Double q
  | _ => NaN
  end.

Definition isTokenExpired (token : arg jsstring) (skewSeconds : option number)
  : M world bool :=
  let skewSeconds := default (Double 30%Q) skewSeconds in
  payload <- getTokenPayload token ;;
  let exp := optional_exp payload in
  if falsy exp || negb (typeof_number exp) then ret true
  else
    ms <- Date_now ;;
    let now := Double (inject_Z (Z.of_N (ms / 1000))) in
    ret (number_ge now (number_sub (number_of exp)
                          (Math_max (Double 0%Q) skewSeconds))).

End Auth.

(** ** components/app/AppFrame.tsx *)

Record response := {
  status : N;
  text : jsstring;
}.

(** [res.ok] *)
Definition ok (res : response) : bool := (200 <=? status res) && (status res <=? 299).

(** How the promise returned by [fetch] settles. *)
Inductive settlement :=
| Fulfilled (res : response)
| Rejected (e : exn).

(** One mounted instance of [AppFrame]: the tab it lives in, the path it was
    rendered for, its two pieces of React state, and the request of its
    effect that has not settled yet. *)
Record frame := {
  tab : world;
  pathname : jsstring;
  checking : bool;
  me : json;
  pending : option request;
}.

Definition set_tab (w : world) (f : frame) : frame :=
  {| tab := w; pathname := pathname f; checking := checking f;
     me := me f; pending := pending f |}.

(** A computation on the tab, run from inside the component. *)
Definition lift {A} (m : M world A) : M frame A :=
  fun f => let '(r, w) := m (tab f) in (r, set_tab w f).

Definition set_checking (b : bool) (f : frame) : frame :=
  {| tab := tab f; pathname := pathname f; checking := b;
     me := me f; pending := pending f |}.

Definition set_me (data : json) (f : frame) : frame :=
  {| tab := tab f; pathname := pathname f; checking := checking f;
     me := data; pending := pending f |}.

Definition set_request (r : option request) (f : frame) : frame :=
  {| tab := tab f; pathname := pathname f; checking := checking f;
     me := me f; pending := r |}.

Definition setChecking (b : bool) : M frame unit := modify (set_checking b).

Definition setMe (data : json) : M frame unit := modify (set_me data).

Definition set_pending (r : option request) : M frame unit :=
  modify (set_request r).

Definition router_replace (path : jsstring) : M frame unit :=
  lift (modify (record_event (RouterReplace path))).

(** [fetch(url, init)] without [await]: the request leaves and stays
    pending. *)
Definition fetch_start (r : request) : M frame unit :=
  lift (modify (record_event (FetchSent r))) ;;
  set_pending (Some r).

Section AppFrame.

Context `{Platform}.

(** An instance at its first render, on [path]: [useState(!isLogin)],
    [useState(null)].  The initial values are read at that render only; an
    instance is not followed across a change of its pathname. *)
Definition initial_frame (w : world) (path : jsstring) : frame :=
  {| tab := w; pathname := path;
     checking := negb (bool_decide (path = lit "/login"));
     me := JNull; pending := None |}.

(** The body of [useEffect]; the result tells whether it returned the
    clean-up function [() => ctrl.abort()]. *)
Definition effect : M frame bool :=
  isLogin <- gets (fun f => bool_decide (pathname f = lit "/login")) ;;
  if isLogin then
    t <- lift getToken ;;
    (if truthy t then
       expired <- lift (isTokenExpired (match t with
                                        | Some s => Given s
                                        | None => Null
                                        end) None) ;;
       if negb expired then router_replace (lit "/") else ret tt
     else ret tt) ;;
    setChecking false ;;
    ret false
  else
    token <- lift getToken ;;
    stop <- (if negb (truthy token) then ret true
             else lift (isTokenExpired (match token with
                                        | Some s => Given s
                                        | None => Null
                                        end) None)) ;;
    if stop then
      lift clearToken ;;
      router_replace (lit "/login") ;;
      ret false
    else
      base <- lift process_env_NEXT_PUBLIC_PY_API_URL ;;
      if negb (truthy base) then
        setChecking false ;;
        ret false
      else
        setChecking true ;;
        fetch_start
          {| url := default [] base ++ lit "/api/auth/me";
             method := lit "GET";
             headers := [(lit "Authorization",
                          lit "Bearer " ++ default [] token)];
             body := None;
             cache := Some (lit "no-store");
             signal := true |} ;;
        ret true.

(** [res.json()] *)
Definition res_json {S} (res : response) : M S json :=
  call SyntaxError (JSON_parse (text res)).

(** [fetch(..).then(..).then(..).catch(..)], run when the fetch settles. *)
Definition on_settled (s : settlement) : M frame unit :=
  try_catch
    (res <- match s with
            | Fulfilled res => ret res
            | Rejected e => throw e
            end ;;
     data <- (if status res =? 401 then throw (Error (lit "unauthorized"))
              else if negb (ok res)
                   then throw (Error (lit "status:" ++ toString10 (status res)))
                   else res_json res) ;;
     setMe data ;;
     setChecking false)
    (fun _ =>
       lift clearToken ;;
       router_replace (lit "/login")).

(** [onLogout] *)
Definition onLogout : M frame unit :=
  lift clearToken ;;
  router_replace (lit "/login").

(** What can happen to a mounted instance. *)
Inductive input :=
| Mount
| Settle (s : settlement)
| Unmount
| ClickLogout.

(** A rejection nobody handles is reported and otherwise ignored. *)
Definition unhandled (m : M frame unit) : M frame unit :=
  try_catch m (fun e => lift (modify (record_event (UnhandledRejection e)))).

(** [Unmount] runs the clean-up [ctrl.abort()]: a fetch that is still
    pending rejects with an [AbortError], and its promise chain runs.  The
    chain is run at once; the engine runs it in a later job, which shows
    only when the same instance is mounted again. *)
Definition step (i : input) : M frame unit :=
  match i with
  | Mount => effect ;; ret tt
  | Settle s =>
      p <- gets pending ;;
      match p with
      | Some _ => set_pending None ;; unhandled (on_settled s)
      | None => ret tt
      end
  | Unmount =>
      p <- gets pending ;;
      match p with
      | Some _ =>
          lift (modify (record_event AbortSignalled)) ;;
          set_pending None ;;
          unhandled (on_settled (Rejected (DOMException (lit "AbortError"))))
      | None => ret tt
      end
  | ClickLogout => onLogout
  end.

Fixpoint run (l : list input) : M frame unit :=
  match l with
  | [] => ret tt
  | i :: r => step i ;; run r
  end.

End AppFrame.

(** ** The device and maintenance fetch wrappers *)

Section DeviceService.

Context `{Platform}.

(** [new Error("NEXT_PUBLIC_PY_API_URL não configurada")] *)
Definition configuration_error : exn :=
  Error (lit "NEXT_PUBLIC_PY_API_URL n" ++ [227; 111] ++ lit " configurada").

Definition getBaseUrl : M world jsstring :=
  py <- process_env_NEXT_PUBLIC_PY_API_URL ;;
  if negb (truthy py) then throw configuration_error
  else ret (default [] py).

(** [await fetch(url, init)], where [reply] is how that fetch settles. *)
Definition fetch (r : request) (reply : settlement) : M world response :=
  modify (record_event (FetchSent r)) ;;
  match reply with
  | Fulfilled res => ret res
  | Rejected e => throw e
  end.

Definition init (m : jsstring) (h : list (jsstring * jsstring))
    (b : option jsstring) (c : option jsstring) (u : jsstring) : request :=
  {| url := u; method := m; headers := h; body := b; cache := c;
     signal := false |}.

Definition json_headers : list (jsstring * jsstring) :=
  [(lit "Content-Type", lit "application/json")].

Definition getDeviceDetail (deviceId : jsstring) (reply : settlement)
  : M world json :=
  base <- getBaseUrl ;;
  id <- call URIError (encodeURIComponent deviceId) ;;
  let url := base ++ lit "/api/devices/" ++ id in
  res <- fetch (init (lit "GET") [] None (Some (lit "no-store")) url) reply ;;
  if negb (ok res)
  then throw (Error (lit "Falha ao carregar device: " ++ toString10 (status res)))
  else res_json res.

Definition getDeviceComponents (deviceId : jsstring) (reply : settlement)
  : M world json :=
  base <- getBaseUrl ;;
  id <- call URIError (encodeURIComponent deviceId) ;;
  let url := base ++ lit "/api/devices/" ++ id ++ lit "/components" in
  res <- fetch (init (lit "GET") [] None (Some (lit "no-store")) url) reply ;;
  if negb (ok res)
  then throw (Error (lit "Falha ao carregar componentes: "
                     ++ toString10 (status res)))
  else res_json res.

Definition getDeviceNotes (deviceId : jsstring) (reply : settlement)
  : M world json :=
  base <- getBaseUrl ;;
  id <- call URIError (encodeURIComponent deviceId) ;;
  let url := base ++ lit "/api/devices/" ++ id ++ lit "/notes" in
  res <- fetch (init (lit "GET") [] None (Some (lit "no-store")) url) reply ;;
  if negb (ok res)
  then throw (Error (lit "Falha ao carregar notas: " ++ toString10 (status res)))
  else res_json res.

Definition createDeviceNote (deviceId : jsstring) (payload : json)
    (reply : settlement) : M world json :=
  base <- getBaseUrl ;;
  id <- call URIError (encodeURIComponent deviceId) ;;
  let url := base ++ lit "/api/devices/" ++ id ++ lit "/notes" in
  res <- fetch (init (lit "POST") json_headers
                     (Some (JSON_stringify payload)) None url) reply ;;
  if negb (ok res)
  then throw (Error (lit "Falha ao criar nota: " ++ toString10 (status res)))
  else res_json res.

(** The ids [noteId] and [maintenanceId] are the whole numbers from 0 to
    [2 ^ 53] the backend issues, which a template literal prints as their
    decimal digits. *)
Definition updateDeviceNote (deviceId : jsstring) (noteId : N) (payload : json)
    (reply : settlement) : M world json :=
  base <- getBaseUrl ;;
  id <- call URIError (encodeURIComponent deviceId) ;;
  let url := base ++ lit "/api/devices/" ++ id ++ lit "/notes/" ++ toString10 noteId in
  res <- fetch (init (lit "PUT") json_headers
                     (Some (JSON_stringify payload)) None url) reply ;;
  if negb (ok res)
  then throw (Error (lit "Falha ao atualizar nota: " ++ toString10 (status res)))
  else res_json res.

Definition deleteDeviceNote (deviceId : jsstring) (noteId : N)
    (reply : settlement) : M world unit :=
  base <- getBaseUrl ;;
  id <- call URIError (encodeURIComponent deviceId) ;;
  let url := base ++ lit "/api/devices/" ++ id ++ lit "/notes/" ++ toString10 noteId in
  res <- fetch (init (lit "DELETE") [] None None url) reply ;;
  if negb (ok res)
  then throw (Error (lit "Falha ao deletar nota: " ++ toString10 (status res)))
  else ret tt.

Definition getDeviceMaintenance (deviceId : jsstring) (reply : settlement)
  : M world json :=
  base <- getBaseUrl ;;
  id <- call URIError (encodeURIComponent deviceId) ;;
  let url := base ++ lit "/api/devices/" ++ id ++ lit "/maintenance" in
  res <- fetch (init (lit "GET") [] None (Some (lit "no-store")) url) reply ;;
  if negb (ok res)
  then throw (Error (lit "Falha ao carregar manuten" ++ [231; 245]
                     ++ lit "es: " ++ toString10 (status res)))
  else res_json res.

Definition createMaintenance (payload : json) (reply : settlement)
  : M world json :=
  base <- getBaseUrl ;;
  let url := base ++ lit "/api/maintenance" in
  res <- fetch (init (lit "POST") json_headers
                     (Some (JSON_stringify payload)) None url) reply ;;
  if negb (ok res)
  then throw (Error (lit "Falha ao criar manuten" ++ [231; 227; 111; 58; 32]
                     ++ toString10 (status res)))
  else res_json res.

Definition updateMaintenance (maintenanceId : N) (payload : json)
    (reply : settlement) : M world json :=
  base <- getBaseUrl ;;
  let url := base ++ lit "/api/maintenance/" ++ toString10 maintenanceId in
  res <- fetch (init (lit "PUT") json_headers
                     (Some (JSON_stringify payload)) None url) reply ;;
  if negb (ok res)
  then throw (Error (lit "Falha ao atualizar manuten" ++ [231; 227; 111; 58; 32]
                     ++ toString10 (status res)))
  else res_json res.

Definition deleteMaintenance (maintenanceId : N) (reply : settlement)
  : M world unit :=
  base <- getBaseUrl ;;
  let url := base ++ lit "/api/maintenance/" ++ toString10 maintenanceId in
  res <- fetch (init (lit "DELETE") [] None None url) reply ;;
  if negb (ok res)
  then throw (Error (lit "Falha ao deletar manuten" ++ [231; 227; 111; 58; 32]
                     ++ toString10 (status res)))
  else ret tt.

End DeviceService.

(** Which of its three trees [AppFrame] returns: the "Verificando sessão..."
    notice, the bare layout of the login page, or the header with the
    logout button around the page. *)
Inductive screen :=
| VerifyingSession
| LoginLayout
| AppShell.

Definition render (f : frame) : screen :=
  let isLogin := bool_decide (pathname f = lit "/login") in
  if negb isLogin && checking f then VerifyingSession
  else if isLogin then LoginLayout
  else AppShell.

(** ** components/home/HomeClient.tsx *)

Module Home.

Inductive Tab := dispositivos | preventiva | corretiva | relatorio.

Definition normalizeTab (tab : option jsstring) : Tab :=
  match tab with
  | Some s =>
      if bool_decide (s = lit "preventiva") then preventiva
      else if bool_decide (s = lit "corretiva") then corretiva
      else if bool_decide (s = lit "dispositivos") then dispositivos
      else if bool_decide (s = lit "relatorio") then relatorio
      else dispositivos
  | None => dispositivos
  end.

Inductive ReportType := Preventiva | Corretiva | Ambas.

(** The constant [reportType]. *)
Definition normalizeReportType (raw : jsstring) : ReportType :=
  if bool_decide (raw = lit "Preventiva") then Preventiva
  else if bool_decide (raw = lit "Corretiva") then Corretiva
  else Ambas.

(** The constant [pageSize]. *)
Definition pageSize : Q := 10.

(** The dependencies of the second effect; [pageSize] is the constant
    above.  Numbers are rationals, as in the JSON values. *)
Record query := {
  tab : Tab;
  q : jsstring;
  page : Q;
  reportFrom : jsstring;
  reportTo : jsstring;
  reportType : ReportType;
}.


(** What [loadDevices] resolves to, by the fields the component reads. *)
Record devices_page := {
  items : list json;
  d_page : Q;
  d_pageSize : Q;
  total : Q;
}.

(** The React state of the component. *)
Record view := {
  metrics : option json;
  devicesLoading : bool;
  devicesError : option jsstring;
  devicesData : option devices_page;
  reportLoading : bool;
  reportError : option jsstring;
  report : option json;
}.

Definition setMetrics (m : option json) (v : view) : view :=
  {| metrics := m; devicesLoading := devicesLoading v;
     devicesError := devicesError v; devicesData := devicesData v;
     reportLoading := reportLoading v; reportError := reportError v;
     report := report v |}.

Definition setDevicesLoading (b : bool) (v : view) : view :=
  {| metrics := metrics v; devicesLoading := b;
     devicesError := devicesError v; devicesData := devicesData v;
     reportLoading := reportLoading v; reportError := reportError v;
     report := report v |}.

Definition setDevicesError (e : option jsstring) (v : view) : view :=
  {| metrics := metrics v; devicesLoading := devicesLoading v;
     devicesError := e; devicesData := devicesData v;
     reportLoading := reportLoading v; reportError := reportError v;
     report := report v |}.

Definition setDevicesData (d : option devices_page) (v : view) : view :=
  {| metrics := metrics v; devicesLoading := devicesLoading v;
     devicesError := devicesError v; devicesData := d;
     reportLoading := reportLoading v; reportError := reportError v;
     report := report v |}.

Definition setReportLoading (b : bool) (v : view) : view :=
  {| metrics := metrics v; devicesLoading := devicesLoading v;
     devicesError := devicesError v; devicesData := devicesData v;
     reportLoading := b; reportError := reportError v;
     report := report v |}.

Definition setReportError (e : option jsstring) (v : view) : view :=
  {| metrics := metrics v; devicesLoading := devicesLoading v;
     devicesError := devicesError v; devicesData := devicesData v;
     reportLoading := reportLoading v; reportError := e;
     report := report v |}.

Definition setReport (r : option json) (v : view) : view :=
  {| metrics := metrics v; devicesLoading := devicesLoading v;
     devicesError := devicesError v; devicesData := devicesData v;
     reportLoading := reportLoading v; reportError := reportError v;
     report := r |}.

(** [useState(null)], [useState(false)], ... *)
Definition initial_view : view :=
  {| metrics := None; devicesLoading := false; devicesError := None;
     devicesData := None; reportLoading := false; reportError := None;
     report := None |}.

(** Which effect a closure belongs to. *)
Inductive effect_kind := MetricsEffect | QueryEffect.

(** One run of an effect: its variable [alive], the constants it captured,
    and whether the promise it awaits is still pending. *)
Record closure := {
  kind : effect_kind;
  alive : bool;
  awaiting : bool;
  captured : query;
}.

Definition set_alive (b : bool) (c : closure) : closure :=
  {| kind := kind c; alive := b; awaiting := awaiting c; captured := captured c |}.

Definition set_awaiting (b : bool) (c : closure) : closure :=
  {| kind := kind c; alive := alive c; awaiting := b; captured := captured c |}.

(** The calls of the controllers. *)
Inductive call :=
| LoadDashboardMetrics
| LoadMaintenanceReport (from to : jsstring) (maintenance_type : ReportType)
| LoadDevices (tab : Tab) (q : jsstring) (page pageSize : Q).

(** A mounted component: its state, the closures its effects created
    (a closure is named by its position), the clean-ups React holds, and
    the calls made so far. *)
Record home := {
  shown : view;
  closures : list closure;
  metrics_cleanup : option nat;
  query_cleanup : option nat;
  calls : list call;
}.

Definition initial_home : home :=
  {| shown := initial_view; closures := []; metrics_cleanup := None;
     query_cleanup := None; calls := [] |}.

Definition with_view (f : view -> view) (h : home) : home :=
  {| shown := f (shown h); closures := closures h;
     metrics_cleanup := metrics_cleanup h; query_cleanup := query_cleanup h;
     calls := calls h |}.

(** How a promise of a controller settles; a rejection is read through
    [e?.message] only, [None] when that is null or undefined. *)
Inductive outcome (A : Type) :=
| Resolved (a : A)
| RejectedWith (message : option jsstring).

Arguments Resolved {A} a.
Arguments RejectedWith {A} message.

(** The first effect up to its [await]. *)
Definition start_metrics (qy : query) (h : home) : home :=
  {| shown := shown h;
     closures := closures h ++ [{| kind := MetricsEffect; alive := true;
                                   awaiting := true; captured := qy |}];
     metrics_cleanup := Some (length (closures h));
     query_cleanup := query_cleanup h;
     calls := calls h ++ [LoadDashboardMetrics] |}.

(** The second effect, [run()], up to its [await]. *)
Definition start_query (qy : query) (h : home) : home :=
  let v := setReportError None (setDevicesError None (shown h)) in
  let c := {| kind := QueryEffect; alive := true; awaiting := true;
              captured := qy |} in
  match tab qy with
  | relatorio =>
      {| shown := setReportLoading true (setDevicesData None v);
         closures := closures h ++ [c];
         metrics_cleanup := metrics_cleanup h;
         query_cleanup := Some (length (closures h));
         calls := calls h ++ [LoadMaintenanceReport (reportFrom qy) (reportTo qy)
                                                    (reportType qy)] |}
  | _ =>
      {| shown := setDevicesLoading true (setReportLoading false (setReport None v));
         closures := closures h ++ [c];
         metrics_cleanup := metrics_cleanup h;
         query_cleanup := Some (length (closures h));
         calls := calls h ++ [LoadDevices (tab qy) (q qy) (page qy) pageSize] |}
  end.

(** A clean-up: [alive = false] in the closure it belongs to. *)
Definition cleanup (id : option nat) (h : home) : home :=
  match id with
  | Some i =>
      {| shown := shown h;
         closures := alter (set_alive false) i (closures h);
         metrics_cleanup := metrics_cleanup h;
         query_cleanup := query_cleanup h;
         calls := calls h |}
  | None => h
  end.

Definition mark_settled (i : nat) (h : home) : home :=
  {| shown := shown h;
     closures := alter (set_awaiting false) i (closures h);
     metrics_cleanup := metrics_cleanup h;
     query_cleanup := query_cleanup h;
     calls := calls h |}.

(** The first effect after its [await]. *)
Definition metrics_settled (c : closure) (o : outcome json) (v : view) : view :=
  if negb (alive c) then v
  else match o with
       | Resolved m => setMetrics (Some m) v
       | RejectedWith _ => setMetrics None v
       end.

(** [run()] after [await loadMaintenanceReport(..)]. *)
Definition report_settled (c : closure) (o : outcome json) (v : view) : view :=
  if negb (alive c) then v
  else
    setReportLoading false
      match o with
      | Resolved r => setReport (Some r) v
      | RejectedWith message =>
          setReportError
            (Some (default (lit "Falha ao carregar relat" ++ [243] ++ lit "rio")
                           message))
            (setReport None v)
      end.

(** [run()] after [await loadDevices(..)]. *)
Definition devices_settled (c : closure) (o : outcome devices_page) (v : view)
  : view :=
  if negb (alive c) then v
  else
    setDevicesLoading false
      match o with
      | Resolved d => setDevicesData (Some d) v
      | RejectedWith message =>
          setDevicesError
            (Some (default (lit "Falha ao carregar dispositivos") message))
            (setDevicesData
               (Some {| items := []; d_page := page (captured c);
                        d_pageSize := pageSize; total := 0 |})
               v)
      end.

(** What can happen to a mounted component. *)
Inductive event :=
| Mounted (qy : query)
| DepsChanged (qy : query)
| Unmounted
| MetricsSettled (id : nat) (o : outcome json)
| ReportSettled (id : nat) (o : outcome json)
| DevicesSettled (id : nat) (o : outcome devices_page).

(** The closure [id], if it is one of the wanted kind whose promise is
    still pending. *)
Definition awaited (id : nat) (k : effect_kind) (report_run : option bool)
    (h : home) : option closure :=
  match closures h !! id with
  | Some c =>
      if awaiting c
         && match kind c, k with
            | MetricsEffect, MetricsEffect | QueryEffect, QueryEffect => true
            | _, _ => false
            end
         && match report_run, tab (captured c) with
            | Some true, relatorio => true
            | Some true, _ => false
            | Some false, relatorio => false
            | _, _ => true
            end
      then Some c else None
  | None => None
  end.

Definition step (e : event) (h : home) : home :=
  match e with
  | Mounted qy => start_query qy (start_metrics qy h)
  | DepsChanged qy => start_query qy (cleanup (query_cleanup h) h)
  | Unmounted => cleanup (query_cleanup h) (cleanup (metrics_cleanup h) h)
  | MetricsSettled id o =>
      match awaited id MetricsEffect None h with
      | Some c => with_view (metrics_settled c o) (mark_settled id h)
      | None => h
      end
  | ReportSettled id o =>
      match awaited id QueryEffect (Some true) h with
      | Some c => with_view (report_settled c o) (mark_settled id h)
      | None => h
      end
  | DevicesSettled id o =>
      match awaited id QueryEffect (Some false) h with
      | Some c => with_view (devices_settled c o) (mark_settled id h)
      | None => h
      end
  end.

Definition run (l : list event) (h : home) : home :=
  foldl (fun h e => step e h) h l.

(** The numbers under the table: "Mostrando from - to de total" and
    "page / pages".  [pages] is meant for a page size other than 0. *)
Definition from_row (v : view) : Q :=
  match devicesData v with
  | Some d => if Qeq_bool (total d) 0 then 0
              else (d_page d - 1) * d_pageSize d + 1
  | None => 0
  end.

Definition to_row (v : view) : Q :=
  match devicesData v with
  | Some d => Qmin (total d) (d_page d * d_pageSize d)
  | None => 0
  end.

Definition pages (v : view) : Q :=
  match devicesData v with
  | Some d => Qmax 1 (inject_Z (Qceiling (total d / d_pageSize d)))
  | None => 1
  end.

(** The pages the links "Anterior" and "Próximo" lead to. *)
Definition previous_page (page : Q) : Q := Qmax 1 (page - 1).

Definition next_page (v : view) (page : Q) : Q := Qmin (pages v) (page + 1).

End Home.

(** ** Notions used to state the properties *)

(** What the proofs need of the base64 character of one sextet; checked by
    computation on the 64 sextets. *)
Definition b64_char_ok (v : N) : bool :=
  bool_decide (b64_value (b64_char v) = Some v)
  && negb (is_ascii_whitespace (b64_char v))
  && negb (b64_char v =? 61)
  && bool_decide (replace_all 95 47 (replace_all 45 43
                    (replace_all 47 95 (replace_all 43 45 [b64_char v])))
                  = [b64_char v])
  && bool_decide (List.filter (fun c => negb (c =? 61))
                    (replace_all 47 95 (replace_all 43 45 [b64_char v]))
                  = replace_all 47 95 (replace_all 43 45 [b64_char v]))
  && bool_decide (Forall (fun c => c <> 46)
                    (replace_all 47 95 (replace_all 43 45 [b64_char v]))).

(** What the proofs need of the escape of one byte; checked by computation
    on the 256 bytes. *)
Definition percent_ok (b : N) : bool :=
  bool_decide (padStart0 2 (toString16 b)
               = [hex_digit (b / 16); hex_digit (b mod 16)])
  && bool_decide (hex_value (hex_digit (b / 16)) = Some (b / 16))
  && bool_decide (hex_value (hex_digit (b mod 16)) = Some (b mod 16))
  && (16 * (b / 16) + b mod 16 =? b).

(** What [base64UrlDecode] returns, as a function of its input. *)
Definition decode_segment (seg : jsstring) : jsstring :=
  match atob (normalized seg) with
  | Some bin =>
      match decodeURIComponent (percent_escape bin) with
      | Some s => s
      | None => []
      end
  | None => []
  end.

(** What [getTokenPayload] returns for a credential whose second segment
    is [seg]. *)
Definition claims_of_segment `{Platform} (seg : jsstring) : json :=
  match decode_segment seg with
  | [] => JNull
  | c :: s => match JSON_parse (c :: s) with
              | Some v => v
              | None => JNull
              end
  end.

(** What [getTokenPayload] returns for the credential [t]. *)
Definition claims_of `{Platform} (t : jsstring) : json :=
  if negb (truthy (Some t)) then JNull
  else match split (ch ".") t with
       | _ :: seg :: _ => claims_of_segment seg
       | _ => JNull
       end.

(** The credential [getToken] finds. *)
Definition stored (w : world) : option jsstring :=
  match window w with
  | Some (Area _ items) => items !! TOKEN_KEY
  | _ => None
  end.

(** The tab after [getToken]: the read is on record when there is a
    window. *)
Definition after_read (w : world) : world :=
  match window w with
  | Some _ => record_event (StorageGet TOKEN_KEY) w
  | None => w
  end.

(** What [isTokenExpired] answers for decoded claims at clock reading
    [ms]. *)
Definition expired_of (claims : json) (skewSeconds : option number) (ms : N)
  : bool :=
  let exp := optional_exp claims in
  falsy exp || negb (typeof_number exp)
  || number_ge (Double (inject_Z (Z.of_N (ms / 1000))))
       (number_sub (number_of exp)
          (Math_max (Double 0%Q) (default (Double 30%Q) skewSeconds))).

(** The requests on record in a trace. *)
Definition fetches (tr : list event) : list request :=
  flat_map (fun ev => match ev with FetchSent r => [r] | _ => [] end) tr.

(** The identity-verification request. *)
Definition me_request (base token : jsstring) : request :=
  {| url := base ++ lit "/api/auth/me";
     method := lit "GET";
     headers := [(lit "Authorization", lit "Bearer " ++ token)];
     body := None;
     cache := Some (lit "no-store");
     signal := true |}.

(** The answer of [!token || isTokenExpired(token)]. *)
Definition must_stop `{Platform} (token : option jsstring) (ms : N) : bool :=
  match token with
  | Some (c :: t) => expired_of (claims_of (c :: t)) None ms
  | _ => true
  end.

(** The effect of a protected page whose storage can be read, as a function
    of the frame. *)
Definition protected_effect `{Platform} (full : bool)
    (items : gmap (list N) (list N)) (f : frame) : completion bool * frame :=
  let w1 := record_event (StorageGet TOKEN_KEY) (tab f) in
  if must_stop (items !! TOKEN_KEY) (clock_ms (tab f)) then
    (Normal false,
     set_tab (record_event (RouterReplace (lit "/login"))
                (record_event (StorageRemove TOKEN_KEY)
                   (with_items full (delete TOKEN_KEY items) w1))) f)
  else if negb (truthy (NEXT_PUBLIC_PY_API_URL (tab f))) then
    (Normal false, set_checking false (set_tab w1 f))
  else
    let req := me_request (default [] (NEXT_PUBLIC_PY_API_URL (tab f)))
                          (default [] (items !! TOKEN_KEY)) in
    (Normal true,
     set_request (Some req)
       (set_checking true (set_tab (record_event (FetchSent req) w1) f))).

(** What the first [then] hands to the second one, [None] when the chain
    goes to [catch] instead. *)
Definition verified_profile `{Platform} (s : settlement) : option json :=
  match s with
  | Fulfilled res =>
      if status res =? 401 then None
      else if negb (ok res) then None
      else JSON_parse (text res)
  | Rejected _ => None
  end.

(** The frame after [clearToken(); router.replace("/login")] on a storage
    that can be written. *)
Definition session_cleared (full : bool) (items : gmap (list N) (list N))
    (f : frame) : frame :=
  set_tab (record_event (RouterReplace (lit "/login"))
             (record_event (StorageRemove TOKEN_KEY)
                (with_items full (delete TOKEN_KEY items) (tab f)))) f.

(** The frame after the promise chain has run. *)
Definition settled_frame `{Platform} (full : bool)
    (items : gmap (list N) (list N)) (s : settlement) (f : frame) : frame :=
  match verified_profile s with
  | Some data => set_checking false (set_me data f)
  | None => session_cleared full items f
  end.

(** The requests a page instance has sent so far. *)
Definition sent (f : frame) : list request := fetches (trace (tab f)).

(** The exact result rounded, before the range check of [round64]. *)
Definition nearest (x : Q) : Q :=
  (inject_Z (round_half_even (x / 2 ^ ulp_exponent x)) * 2 ^ ulp_exponent x)%Q.

(** The claims [getTokenPayload] decodes for an argument in a tab. *)
Definition claims_for `{Platform} (token : arg jsstring) (w : world) : json :=
  match token with
  | Given t => claims_of t
  | Null | Undefined =>
      match stored w with
      | Some t => claims_of t
      | None => JNull
      end
  end.

(** The [StorageSet] events of a trace. *)
Definition writes (tr : list event) : list (jsstring * jsstring) :=
  flat_map (fun ev => match ev with StorageSet k v => [(k, v)] | _ => [] end) tr.

(** [clearToken] as a function of the tab, for every kind of storage. *)
Definition cleared (w : world) : completion unit * world :=
  match window w with
  | None => (Normal tt, w)
  | Some Blocked =>
      (Throw (DOMException (lit "SecurityError")),
       record_event (StorageRemove TOKEN_KEY) w)
  | Some (Area full items) =>
      (Normal tt, record_event (StorageRemove TOKEN_KEY)
                    (with_items full (delete TOKEN_KEY items) w))
  end.

(** [clearToken(); router.replace("/login")] as a function of the frame. *)
Definition clear_and_redirect (f : frame) : completion unit * frame :=
  match cleared (tab f) with
  | (Normal _, w) =>
      (Normal tt, set_tab (record_event (RouterReplace (lit "/login")) w) f)
  | (Throw e, w) => (Throw e, set_tab w f)
  end.

(** The effect of a protected page, for every kind of storage. *)
Definition guarded_effect `{Platform} (f : frame) : completion bool * frame :=
  let w1 := after_read (tab f) in
  if must_stop (stored (tab f)) (clock_ms (tab f)) then
    match clear_and_redirect (set_tab w1 f) with
    | (Normal _, f') => (Normal false, f')
    | (Throw e, f') => (Throw e, f')
    end
  else if negb (truthy (NEXT_PUBLIC_PY_API_URL (tab f))) then
    (Normal false, set_checking false (set_tab w1 f))
  else
    let req := me_request (default [] (NEXT_PUBLIC_PY_API_URL (tab f)))
                          (default [] (stored (tab f))) in
    (Normal true,
     set_request (Some req)
       (set_checking true (set_tab (record_event (FetchSent req) w1) f))).

(** The effect of the login page. *)
Definition login_effect `{Platform} (f : frame) : completion bool * frame :=
  let w1 := after_read (tab f) in
  (Normal false,
   set_checking false
     (set_tab (if must_stop (stored (tab f)) (clock_ms (tab f))
               then w1 else record_event (RouterReplace (lit "/")) w1) f)).

(** The promise chain as a function of the frame, for every kind of
    storage. *)
Definition settled_any `{Platform} (s : settlement) (f : frame)
  : completion unit * frame :=
  match verified_profile s with
  | Some data => (Normal tt, set_checking false (set_me data f))
  | None => clear_and_redirect f
  end.

(** The frames reached from [f] when only the tab may have changed. *)
Definition same_component (f f' : frame) : Prop :=
  pathname f' = pathname f /\ checking f' = checking f /\
  me f' = me f /\ pending f' = pending f.

(** The tab [w'] holds no credential that [w] did not hold, and nothing was
    written on the way. *)
Definition tame (w w' : world) : Prop :=
  writes (trace w') = writes (trace w) /\
  (stored w' = stored w \/ stored w' = None).

(** [unhandled (on_settled s)] as a function of the frame. *)
Definition chain_any `{Platform} (s : settlement) (f : frame) : frame :=
  match settled_any s f with
  | (Normal _, f') => f'
  | (Throw e, f') => set_tab (record_event (UnhandledRejection e) (tab f')) f'
  end.

(** The frame after one input other than [Mount]. *)
Definition after_input `{Platform} (i : input) (f : frame)
  : completion unit * frame :=
  match i with
  | Mount => step Mount f
  | Settle s =>
      match pending f with
      | Some _ => (Normal tt, chain_any s (set_request None f))
      | None => (Normal tt, f)
      end
  | Unmount =>
      match pending f with
      | Some _ =>
          (Normal tt,
           chain_any (Rejected (DOMException (lit "AbortError")))
             (set_request None
                (set_tab (record_event AbortSignalled (tab f)) f)))
      | None => (Normal tt, f)
      end
  | ClickLogout => clear_and_redirect f
  end.

(** A call of one of the ten wrappers. *)
Inductive api_call :=
| GetDeviceDetail (deviceId : jsstring)
| GetDeviceComponents (deviceId : jsstring)
| GetDeviceNotes (deviceId : jsstring)
| CreateDeviceNote (deviceId : jsstring) (payload : json)
| UpdateDeviceNote (deviceId : jsstring) (noteId : N) (payload : json)
| DeleteDeviceNote (deviceId : jsstring) (noteId : N)
| GetDeviceMaintenance (deviceId : jsstring)
| CreateMaintenance (payload : json)
| UpdateMaintenance (maintenanceId : N) (payload : json)
| DeleteMaintenance (maintenanceId : N).

(** What the call resolves to: the parsed body, or nothing for the two
    wrappers that delete. *)
Definition perform `{Platform} (c : api_call) (reply : settlement)
  : M world (option json) :=
  match c with
  | GetDeviceDetail d => v <- getDeviceDetail d reply ;; ret (Some v)
  | GetDeviceComponents d => v <- getDeviceComponents d reply ;; ret (Some v)
  | GetDeviceNotes d => v <- getDeviceNotes d reply ;; ret (Some v)
  | CreateDeviceNote d p => v <- createDeviceNote d p reply ;; ret (Some v)
  | UpdateDeviceNote d n p => v <- updateDeviceNote d n p reply ;; ret (Some v)
  | DeleteDeviceNote d n => deleteDeviceNote d n reply ;; ret None
  | GetDeviceMaintenance d => v <- getDeviceMaintenance d reply ;; ret (Some v)
  | CreateMaintenance p => v <- createMaintenance p reply ;; ret (Some v)
  | UpdateMaintenance m p => v <- updateMaintenance m p reply ;; ret (Some v)
  | DeleteMaintenance m => deleteMaintenance m reply ;; ret None
  end.

(** The device id the call has to encode, if it has one. *)
Definition device_of (c : api_call) : option jsstring :=
  match c with
  | GetDeviceDetail d | GetDeviceComponents d | GetDeviceNotes d
  | CreateDeviceNote d _ | UpdateDeviceNote d _ _ | DeleteDeviceNote d _
  | GetDeviceMaintenance d => Some d
  | CreateMaintenance _ | UpdateMaintenance _ _ | DeleteMaintenance _ => None
  end.

Definition deletes (c : api_call) : bool :=
  match c with
  | DeleteDeviceNote _ _ | DeleteMaintenance _ => true
  | _ => false
  end.

(** The URL can be built: the base URL is configured and the device id, if
    any, can be encoded. *)
Definition reachable `{Platform} (c : api_call) (w : world) : Prop :=
  truthy (NEXT_PUBLIC_PY_API_URL w) = true /\
  forall d, device_of c = Some d -> encodeURIComponent d <> None.

Definition is_mount (e : Home.event) : bool :=
  match e with Home.Mounted _ => true | _ => false end.

Definition is_settlement (e : Home.event) : bool :=
  match e with
  | Home.MetricsSettled _ _ | Home.ReportSettled _ _ | Home.DevicesSettled _ _ => true
  | _ => false
  end.

(** A closure whose [alive] is still true is the one React holds the
    clean-up of. *)
Definition one_live_run (h : Home.home) : Prop :=
  forall j c, Home.closures h !! j = Some c -> Home.alive c = true ->
    match Home.kind c with
    | Home.MetricsEffect => Home.metrics_cleanup h = Some j
    | Home.QueryEffect => Home.query_cleanup h = Some j
    end.

Definition all_dead (h : Home.home) : Prop :=
  forall j c, Home.closures h !! j = Some c -> Home.alive c = false.

Definition is_unmount (e : Home.event) : bool :=
  match e with Home.Unmounted => true | _ => false end.

(** The constants of the latest render: those given at mount, or at the
    last change of the dependencies. *)
Definition current_query (qy : Home.query) (l : list Home.event) : Home.query :=
  foldl (fun cur e => match e with Home.DepsChanged qy' => qy' | _ => cur end) qy l.

(** [c] is the run of the second effect React holds the clean-up of. *)
Definition latest_run (h : Home.home) (id : nat) (c : Home.closure) : Prop :=
  Home.query_cleanup h = Some id /\ Home.closures h !! id = Some c
  /\ Home.kind c = Home.QueryEffect /\ Home.alive c = true.

(** What the state says about a run: no error while its request is
    pending, the loading flag of its tab is set exactly while its request
    is pending, and the other tab's data is cleared. *)
Definition view_of_run (v : Home.view) (c : Home.closure) : Prop :=
  (Home.awaiting c = true ->
   Home.devicesError v = None /\ Home.reportError v = None)
  /\ match Home.tab (Home.captured c) with
     | Home.relatorio =>
         Home.reportLoading v = Home.awaiting c
         /\ Home.devicesData v = None /\ Home.devicesError v = None
         /\ (Home.awaiting c = false ->
             Home.report v <> None \/ Home.reportError v <> None)
     | _ =>
         Home.devicesLoading v = Home.awaiting c
         /\ Home.reportLoading v = false
         /\ Home.report v = None /\ Home.reportError v = None
         /\ (Home.awaiting c = false -> Home.devicesData v <> None)
     end.

Definition shows_latest_run (h : Home.home) (qy : Home.query) : Prop :=
  exists id c, latest_run h id c /\ Home.captured c = qy
               /\ view_of_run (Home.shown h) c.

Definition is_metrics_call (c : Home.call) : bool :=
  match c with Home.LoadDashboardMetrics => true | _ => false end.

Definition is_deps_change (e : Home.event) : bool :=
  match e with Home.DepsChanged _ => true | _ => false end.

(** A request for devices names a device tab and the constant page size. *)
Definition device_request_ok (c : Home.call) : Prop :=
  match c with
  | Home.LoadDevices t _ _ ps => t <> Home.relatorio /\ ps = Home.pageSize
  | _ => True
  end.

(** ** Sample data *)

Module Sample.

Definition claims (exp : Q) : json :=
  JObj [(lit "sub", JStr (lit "ana")); (lit "exp", JNum exp)].

Definition header : jsstring := lit "eyJhbGciOiJIUzI1NiJ9".

Definition credential (exp : Q) : jsstring :=
  header ++ ch "." ::
  base64url_encode (utf8_encode (Reference.stringify (claims exp)))
  ++ lit ".c2ln".

(** A tab at 1 700 000 000 s after the epoch. *)
Definition browser (base : option jsstring) (win : option storage) : world :=
  {| window := win;
     NEXT_PUBLIC_PY_API_URL := base;
     clock_ms := 1700000000000;
     trace := [] |}.

Definition holding (t : jsstring) : option storage :=
  Some (Area false {[ TOKEN_KEY := t ]}).

Definition empty_storage : option storage := Some (Area false ∅).

Definition profile : json := JObj [(lit "username", JStr (lit "ana"))].

Definition profile_body : jsstring := Reference.stringify profile.

End Sample.

Module HomeSample.

(** The first page of the device list, and its third page. *)
Definition first_page : Home.query :=
  {| Home.tab := Home.dispositivos; Home.q := []; Home.page := 1;
     Home.reportFrom := []; Home.reportTo := []; Home.reportType := Home.Ambas |}.

Definition third_page : Home.query :=
  {| Home.tab := Home.preventiva; Home.q := lit "lab"; Home.page := 3;
     Home.reportFrom := []; Home.reportTo := []; Home.reportType := Home.Ambas |}.

(** 25 rows, seen from the third page of 10. *)
Definition rows : Home.devices_page :=
  {| Home.items := [JNull; JNull; JNull; JNull; JNull];
     Home.d_page := 3; Home.d_pageSize := 10; Home.total := 25 |}.

(** A frame whose verification request is in flight. *)
Definition verifying : frame :=
  {| tab := Sample.browser (Some (lit "http://api"))
              (Sample.holding (Sample.credential 1700000100));
     pathname := lit "/";
     checking := true;
     me := JNull;
     pending := Some (me_request (lit "http://api")
                        (Sample.credential 1700000100)) |}.

End HomeSample.

(** ** Samples for the arithmetic *)

(** The number a float of the Standard Library's IEEE 754 specification
    is. *)
Definition number_of_float (x : SpecFloat.spec_float) : number :=
  match x with
  | SpecFloat.S754_zero _ => Double 0%Q
  | SpecFloat.S754_infinity s => Infinite s
  | SpecFloat.S754_nan => NaN
  | SpecFloat.S754_finite s m e =>
      Double (inject_Z (if s then Z.neg m else Z.pos m) * 2 ^ e)%Q
  end.

(** The double nearest to [m * 2 ^ e]. *)
Definition binary64 (m e : Z) : SpecFloat.spec_float :=
  SpecFloat.binary_normalize 53 1024 m e false.

Definition same_number (x y : number) : bool :=
  number_ge x y && number_ge y x.

(** [number_sub] and the specification's subtraction give the same number
    for the doubles nearest to [m1 * 2 ^ e1] and [m2 * 2 ^ e2]. *)
Definition subtraction_agrees (p : Z * Z * (Z * Z)) : bool :=
  let '(m1, e1, (m2, e2)) := p in
  same_number
    (number_of_float (SpecFloat.SFsub 53 1024 (binary64 m1 e1) (binary64 m2 e2)))
    (number_sub (number_of_float (binary64 m1 e1))
                (number_of_float (binary64 m2 e2))).

(** ** Rounding to the nearest double *)

Section Rounding.

Local Open Scope Q_scope.

Lemma pow2_pos (e : Z) : 0 < 2 ^ e.
Proof. apply Qpower_0_lt. reflexivity. Qed.

Lemma two_nonzero : ~ 2 == 0.
Proof. intros H. discriminate H. Qed.

Lemma pow2_plus (a b : Z) : 2 ^ (a + b) == 2 ^ a * 2 ^ b.
Proof. apply Qpower_plus, two_nonzero. Qed.

Lemma pow2_Z (n : Z) : (0 <= n)%Z -> 2 ^ n == inject_Z (2 ^ n).
Proof. intros Hn. symmetry. exact (Zpower_Qpower 2 n Hn). Qed.

Lemma pow2_le (a b : Z) : (a <= b)%Z -> 2 ^ a <= 2 ^ b.
Proof. intros Hab. apply Qpower_le_compat_l; [exact Hab|discriminate]. Qed.

Lemma pow2_lt (a b : Z) : (a < b)%Z -> 2 ^ a < 2 ^ b.
Proof. intros Hab. apply Qpower_lt_compat_l; [exact Hab|reflexivity]. Qed.

Lemma pow2_lt_inv (a b : Z) : 2 ^ a < 2 ^ b -> (a < b)%Z.
Proof. intros Hab. apply (Qpower_lt_compat_l_inv 2); [exact Hab|reflexivity]. Qed.

Lemma pow2_minus (a b : Z) :
  (0 <= a)%Z -> (0 <= b)%Z -> 2 ^ (a - b) == inject_Z (2 ^ a) / inject_Z (2 ^ b).
Proof.
  intros Ha Hb. rewrite Qpower_minus by exact two_nonzero.
  rewrite (pow2_Z a Ha), (pow2_Z b Hb). reflexivity.
Qed.

Lemma log2_floor_spec (x : Q) :
  0 < x -> 2 ^ log2_floor x <= x /\ x < 2 ^ (log2_floor x + 1).
Proof.
  destruct x as [n d]. intros Hx.
  assert (Hn : (0 < n)%Z).
  { unfold Qlt in Hx. cbn in Hx. lia. }
  pose proof (Z.log2_spec n Hn) as Ha.
  pose proof (Z.log2_spec (Zpos d) (Pos2Z.is_pos d)) as Hb.
  pose proof (Z.log2_nonneg n) as Ha0.
  pose proof (Z.log2_nonneg (Zpos d)) as Hb0.
  unfold log2_floor. cbn [Qnum Qden].
  set (a := Z.log2 n) in *. set (b := Z.log2 (Zpos d)) in *.
  assert (HA : (0 < 2 ^ a)%Z) by (apply Z.pow_pos_nonneg; lia).
  assert (HB : (0 < 2 ^ b)%Z) by (apply Z.pow_pos_nonneg; lia).
  assert (HB' : (2 ^ Z.succ b = 2 * 2 ^ b)%Z) by (apply Z.pow_succ_r; lia).
  assert (HA' : (2 ^ Z.succ a = 2 * 2 ^ a)%Z) by (apply Z.pow_succ_r; lia).
  destruct (Qle_bool (2 ^ (a - b)) (n # d)) eqn:E.
  - apply Qle_bool_iff in E. split; [exact E|].
    replace (a - b + 1)%Z with (Z.succ a - b)%Z by lia.
    rewrite pow2_minus by lia. apply Qlt_shift_div_l.
    + change 0 with (inject_Z 0). rewrite <- Zlt_Qlt. exact HB.
    + unfold Qlt, Qmult, inject_Z. cbn [Qnum Qden].
      rewrite Pos.mul_1_r, Z.mul_1_r. nia.
  - assert (Hlt : n # d < 2 ^ (a - b)).
    { apply Qnot_le_lt. intros Hle. apply Qle_bool_iff in Hle. congruence. }
    split.
    + replace (a - b - 1)%Z with (a - Z.succ b)%Z by lia.
      rewrite pow2_minus by lia. apply Qle_shift_div_r.
      * change 0 with (inject_Z 0). rewrite <- Zlt_Qlt. lia.
      * unfold Qle, Qmult, inject_Z. cbn [Qnum Qden].
        rewrite Pos.mul_1_r, Z.mul_1_r. nia.
    + replace (a - b - 1 + 1)%Z with (a - b)%Z by lia. exact Hlt.
Qed.



Lemma log2_floor_mono (x y : Q) : 0 < x -> x <= y -> (log2_floor x <= log2_floor y)%Z.
Proof.
  intros Hx Hxy.
  destruct (log2_floor_spec x Hx) as [Hlo _].
  destruct (log2_floor_spec y (Qlt_le_trans _ _ _ Hx Hxy)) as [_ Hhi].
  pose proof (pow2_lt_inv _ _ (Qle_lt_trans _ _ _ (Qle_trans _ _ _ Hlo Hxy) Hhi)).
  lia.
Qed.

Lemma round_half_even_comp (x y : Q) :
  x == y -> round_half_even x = round_half_even y.
Proof.
  intros Hxy. unfold round_half_even.
  assert (Ef : Qfloor x = Qfloor y) by (apply Qfloor_comp, Hxy).
  rewrite Ef.
  assert (Ec : (x - inject_Z (Qfloor y) ?= 1 # 2) = (y - inject_Z (Qfloor y) ?= 1 # 2)).
  { apply Qcompare_comp; [rewrite Hxy; reflexivity|reflexivity]. }
  rewrite Ec. reflexivity.
Qed.

Lemma round_half_even_Z (z : Z) : round_half_even (inject_Z z) = z.
Proof.
  unfold round_half_even. rewrite Qfloor_Z.
  assert (E : (inject_Z z - inject_Z z ?= 1 # 2) = Lt).
  { apply (proj1 (Qlt_alt _ _)). lra. }
  rewrite E. reflexivity.
Qed.

Lemma round_half_even_bounds (x : Q) :
  (Qfloor x <= round_half_even x <= Qfloor x + 1)%Z.
Proof.
  unfold round_half_even.
  destruct (x - inject_Z (Qfloor x) ?= 1 # 2); [destruct (Z.even (Qfloor x))| |]; lia.
Qed.

Lemma round_half_even_mono (x y : Q) :
  x <= y -> (round_half_even x <= round_half_even y)%Z.
Proof.
  intros Hxy. pose proof (Qfloor_resp_le x y Hxy) as Hf.
  destruct (Z.eq_dec (Qfloor x) (Qfloor y)) as [E|E].
  - unfold round_half_even. rewrite E.
    destruct (Qcompare_spec (x - inject_Z (Qfloor y)) (1 # 2)) as [H1|H1|H1],
             (Qcompare_spec (y - inject_Z (Qfloor y)) (1 # 2)) as [H2|H2|H2];
      try (destruct (Z.even (Qfloor y))); try lia; exfalso; lra.
  - pose proof (round_half_even_bounds x). pose proof (round_half_even_bounds y).
    lia.
Qed.

Lemma ulp_exponent_min (x : Q) : (-1074 <= ulp_exponent x)%Z.
Proof. unfold ulp_exponent. lia. Qed.

Lemma Qabs_pos_lt (x : Q) : ~ x == 0 -> 0 < Qabs x.
Proof.
  intros Hx. destruct (Qlt_le_dec 0 (Qabs x)) as [H|H]; [exact H|].
  exfalso. apply Hx.
  destruct (proj1 (Qabs_Qle_condition x 0) H) as [H1 H2]. lra.
Qed.


Lemma ulp_exponent_above (x : Q) : ~ x == 0 -> Qabs x < 2 ^ (ulp_exponent x + 53).
Proof.
  intros Hx. destruct (log2_floor_spec _ (Qabs_pos_lt x Hx)) as [_ Hhi].
  eapply Qlt_le_trans; [exact Hhi|]. apply pow2_le. unfold ulp_exponent. lia.
Qed.

Lemma ulp_exponent_below (x : Q) :
  ~ x == 0 -> (-1074 < ulp_exponent x)%Z -> 2 ^ (ulp_exponent x + 52) <= Qabs x.
Proof.
  intros Hx He. destruct (log2_floor_spec _ (Qabs_pos_lt x Hx)) as [Hlo _].
  eapply Qle_trans; [|exact Hlo]. apply pow2_le. unfold ulp_exponent in *. lia.
Qed.

Lemma ulp_exponent_mono (x y : Q) :
  ~ x == 0 -> Qabs x <= Qabs y -> (ulp_exponent x <= ulp_exponent y)%Z.
Proof.
  intros Hx Hxy. unfold ulp_exponent.
  pose proof (log2_floor_mono _ _ (Qabs_pos_lt x Hx) Hxy). lia.
Qed.

End Rounding.

Section Nearest.

Local Open Scope Q_scope.

Lemma round64_nonzero (x : Q) :
  ~ x == 0 ->
  round64 x = if Qle_bool (2 ^ 1024) (Qabs (nearest x))
              then Infinite (negb (Qle_bool 0 x)) else Double (nearest x).
Proof.
  intros Hx. unfold round64. destruct (Qeq_bool x 0) eqn:E; [|reflexivity].
  apply Qeq_bool_iff in E. contradiction.
Qed.

Lemma round64_zero (x : Q) : x == 0 -> round64 x = Double 0.
Proof.
  intros Hx. unfold round64. destruct (Qeq_bool x 0) eqn:E; [reflexivity|].
  apply Qeq_bool_iff in Hx. congruence.
Qed.

Lemma div_pow2_le (x : Q) (e k : Z) : x <= 2 ^ (e + k) -> x / 2 ^ e <= 2 ^ k.
Proof.
  intros Hx. apply Qle_shift_div_r; [apply pow2_pos|].
  rewrite pow2_plus, Qmult_comm in Hx. exact Hx.
Qed.

Lemma div_pow2_ge (x : Q) (e k : Z) : 2 ^ (e + k) <= x -> 2 ^ k <= x / 2 ^ e.
Proof.
  intros Hx. apply Qle_shift_div_l; [apply pow2_pos|].
  rewrite pow2_plus, Qmult_comm in Hx. exact Hx.
Qed.

Lemma div_pow2_mono (x y : Q) (e : Z) : x <= y -> x / 2 ^ e <= y / 2 ^ e.
Proof.
  intros Hxy. unfold Qdiv. apply Qmult_le_compat_r; [exact Hxy|].
  apply Qinv_le_0_compat, Qlt_le_weak, pow2_pos.
Qed.

Lemma div_pow2_opp (x : Q) (e : Z) : (- x) / 2 ^ e == - (x / 2 ^ e).
Proof. field. intros E. pose proof (pow2_pos e). lra. Qed.

Lemma round_half_even_pow2 (k : Z) :
  (0 <= k)%Z -> round_half_even (2 ^ k) = (2 ^ k)%Z.
Proof.
  intros Hk. rewrite (round_half_even_comp _ _ (pow2_Z k Hk)).
  apply round_half_even_Z.
Qed.

Lemma round_half_even_opp_pow2 (k : Z) :
  (0 <= k)%Z -> round_half_even (- 2 ^ k) = (- 2 ^ k)%Z.
Proof.
  intros Hk.
  assert (E : - 2 ^ k == inject_Z (- 2 ^ k)).
  { rewrite inject_Z_opp, (pow2_Z k Hk). reflexivity. }
  rewrite (round_half_even_comp _ _ E). apply round_half_even_Z.
Qed.

Lemma scale_le (a b : Z) (e : Z) :
  (a <= b)%Z -> inject_Z a * 2 ^ e <= inject_Z b * 2 ^ e.
Proof.
  intros Hab. apply Qmult_le_compat_r; [|apply Qlt_le_weak, pow2_pos].
  rewrite <- Zle_Qle. exact Hab.
Qed.

Lemma scale_pow2 (k e : Z) : (0 <= k)%Z -> inject_Z (2 ^ k) * 2 ^ e == 2 ^ (e + k).
Proof.
  intros Hk. rewrite <- (pow2_Z k Hk), pow2_plus. apply Qmult_comm.
Qed.

Lemma nearest_same_scale (x y : Q) :
  ulp_exponent x = ulp_exponent y -> x <= y -> nearest x <= nearest y.
Proof.
  intros E Hxy. unfold nearest. rewrite E.
  apply scale_le, round_half_even_mono, div_pow2_mono, Hxy.
Qed.

Lemma nearest_upper (x : Q) :
  ~ x == 0 -> nearest x <= 2 ^ (ulp_exponent x + 53).
Proof.
  intros Hx. pose proof (ulp_exponent_above x Hx) as Hb.
  assert (Hle : x <= 2 ^ (ulp_exponent x + 53)).
  { apply Qlt_le_weak. eapply Qle_lt_trans; [apply Qle_Qabs|exact Hb]. }
  unfold nearest. rewrite <- (scale_pow2 53) by lia.
  apply scale_le. rewrite <- (round_half_even_pow2 53) by lia.
  apply round_half_even_mono, div_pow2_le, Hle.
Qed.

Lemma nearest_lower (x : Q) :
  ~ x == 0 -> - 2 ^ (ulp_exponent x + 53) <= nearest x.
Proof.
  intros Hx. pose proof (ulp_exponent_above x Hx) as Hb.
  assert (Hle : - x <= 2 ^ (ulp_exponent x + 53)).
  { apply Qlt_le_weak. eapply Qle_lt_trans; [|exact Hb].
    rewrite <- Qabs_opp. apply Qle_Qabs. }
  unfold nearest.
  assert (E : - 2 ^ (ulp_exponent x + 53)
              == inject_Z (- 2 ^ 53) * 2 ^ ulp_exponent x).
  { rewrite inject_Z_opp, <- (pow2_Z 53), pow2_plus by lia. ring. }
  rewrite E. apply scale_le. rewrite <- (round_half_even_opp_pow2 53) by lia.
  apply round_half_even_mono.
  pose proof (div_pow2_le _ _ _ Hle) as Hd. rewrite div_pow2_opp in Hd. lra.
Qed.

Lemma nearest_nonneg (x : Q) : 0 <= x -> 0 <= nearest x.
Proof.
  intros Hx. unfold nearest.
  apply Qmult_le_0_compat; [|apply Qlt_le_weak, pow2_pos].
  change 0 with (inject_Z 0). rewrite <- Zle_Qle.
  rewrite <- (round_half_even_Z 0). apply round_half_even_mono.
  apply Qle_shift_div_l; [apply pow2_pos|]. rewrite Qmult_0_l. exact Hx.
Qed.

Lemma nearest_nonpos (x : Q) : x <= 0 -> nearest x <= 0.
Proof.
  intros Hx. unfold nearest.
  assert (Hr : (round_half_even (x / 2 ^ ulp_exponent x) <= 0)%Z).
  { rewrite <- (round_half_even_Z 0). apply round_half_even_mono.
    apply Qle_shift_div_r; [apply pow2_pos|]. rewrite Qmult_0_l. exact Hx. }
  pose proof (scale_le _ _ (ulp_exponent x) Hr) as Hs.
  rewrite Qmult_0_l in Hs. exact Hs.
Qed.

Lemma nearest_above_pos (x : Q) :
  0 < x -> (-1074 < ulp_exponent x)%Z -> 2 ^ (ulp_exponent x + 52) <= nearest x.
Proof.
  intros Hx He.
  assert (Hnz : ~ x == 0) by (intros E; lra).
  pose proof (ulp_exponent_below x Hnz He) as Hb.
  rewrite Qabs_pos in Hb by lra.
  unfold nearest. rewrite <- (scale_pow2 52) by lia.
  apply scale_le. rewrite <- (round_half_even_pow2 52) by lia.
  apply round_half_even_mono, div_pow2_ge, Hb.
Qed.

Lemma nearest_below_neg (x : Q) :
  x < 0 -> (-1074 < ulp_exponent x)%Z -> nearest x <= - 2 ^ (ulp_exponent x + 52).
Proof.
  intros Hx He.
  assert (Hnz : ~ x == 0) by (intros E; lra).
  pose proof (ulp_exponent_below x Hnz He) as Hb.
  rewrite Qabs_neg in Hb by lra.
  unfold nearest.
  assert (E : - 2 ^ (ulp_exponent x + 52)
              == inject_Z (- 2 ^ 52) * 2 ^ ulp_exponent x).
  { rewrite inject_Z_opp, <- (pow2_Z 52), pow2_plus by lia. ring. }
  rewrite E. apply scale_le. rewrite <- (round_half_even_opp_pow2 52) by lia.
  apply round_half_even_mono.
  pose proof (div_pow2_ge _ _ _ Hb) as Hd. rewrite div_pow2_opp in Hd. lra.
Qed.

Lemma nearest_mono (x y : Q) :
  ~ x == 0 -> ~ y == 0 -> x <= y -> nearest x <= nearest y.
Proof.
  intros Hx Hy Hxy.
  destruct (Qlt_le_dec 0 x) as [Hx0|Hx0], (Qlt_le_dec 0 y) as [Hy0|Hy0].
  - assert (He : (ulp_exponent x <= ulp_exponent y)%Z).
    { apply ulp_exponent_mono; [exact Hx|]. rewrite !Qabs_pos by lra. exact Hxy. }
    destruct (Z.eq_dec (ulp_exponent x) (ulp_exponent y)) as [E|E].
    + apply nearest_same_scale; assumption.
    + eapply Qle_trans; [apply nearest_upper, Hx|].
      eapply Qle_trans; [|apply nearest_above_pos; [exact Hy0|]].
      * apply pow2_le. lia.
      * pose proof (ulp_exponent_min x). lia.
  - exfalso. lra.
  - eapply Qle_trans; [apply nearest_nonpos, Hx0|].
    apply nearest_nonneg. lra.
  - assert (Hx1 : x < 0) by (destruct (Qlt_le_dec x 0); [assumption|exfalso; apply Hx; lra]).
    assert (Hy1 : y < 0) by (destruct (Qlt_le_dec y 0); [assumption|exfalso; apply Hy; lra]).
    assert (He : (ulp_exponent y <= ulp_exponent x)%Z).
    { apply ulp_exponent_mono; [exact Hy|]. rewrite !Qabs_neg by lra. lra. }
    destruct (Z.eq_dec (ulp_exponent x) (ulp_exponent y)) as [E|E].
    + apply nearest_same_scale; assumption.
    + eapply Qle_trans; [apply nearest_below_neg; [exact Hx1|]|].
      * pose proof (ulp_exponent_min y). lia.
      * eapply Qle_trans; [|apply nearest_lower, Hy].
        apply Qopp_le_compat, pow2_le. lia.
Qed.

Lemma round_half_even_scaled (x : Q) (e e' : Z) :
  e = e' -> round_half_even (x / 2 ^ e) = round_half_even (x / 2 ^ e').
Proof. intros ->. reflexivity. Qed.



(** Rounding keeps the order. *)
Lemma round64_mono (x y : Q) :
  x <= y -> number_ge (round64 y) (round64 x) = true.
Proof.
  intros Hxy.
  assert (Hzero : forall z, 0 <= z -> number_ge (round64 z) (Double 0) = true).
  { intros z Hz. destruct (Qeq_dec z 0) as [E|E].
    - rewrite (round64_zero z E). reflexivity.
    - rewrite (round64_nonzero z E).
      destruct (Qle_bool (2 ^ 1024) (Qabs (nearest z))).
      + apply Qle_bool_iff in Hz. rewrite Hz. reflexivity.
      + cbn. apply Qle_bool_iff, nearest_nonneg, Hz. }
  assert (Hzero' : forall z, z <= 0 -> number_ge (Double 0) (round64 z) = true).
  { intros z Hz. destruct (Qeq_dec z 0) as [E|E].
    - rewrite (round64_zero z E). reflexivity.
    - rewrite (round64_nonzero z E).
      destruct (Qle_bool (2 ^ 1024) (Qabs (nearest z))).
      + assert (E0 : Qle_bool 0 z = false).
        { destruct (Qle_bool 0 z) eqn:E0; [|reflexivity].
          apply Qle_bool_iff in E0. exfalso. apply E. lra. }
        rewrite E0. reflexivity.
      + cbn. apply Qle_bool_iff, nearest_nonpos, Hz. }
  destruct (Qeq_dec x 0) as [Hx|Hx].
  { rewrite (round64_zero x Hx). apply Hzero. lra. }
  destruct (Qeq_dec y 0) as [Hy|Hy].
  { rewrite (round64_zero y Hy). apply Hzero'. lra. }
  pose proof (nearest_mono x y Hx Hy Hxy) as Hn.
  rewrite (round64_nonzero x Hx), (round64_nonzero y Hy).
  destruct (Qle_bool (2 ^ 1024) (Qabs (nearest y))) eqn:Oy.
  - destruct (Qle_bool 0 y) eqn:Sy; cbn [negb].
    + destruct (Qle_bool (2 ^ 1024) (Qabs (nearest x))); [|reflexivity].
      cbn. reflexivity.
    + assert (Hy0 : y < 0).
      { apply Qnot_le_lt. intros H. apply Qle_bool_iff in H. congruence. }
      apply Qle_bool_iff in Oy.
      pose proof (nearest_nonpos y (Qlt_le_weak _ _ Hy0)) as Hny.
      rewrite Qabs_neg in Oy by exact Hny.
      pose proof (nearest_nonpos x ltac:(lra)) as Hnx.
      assert (Ox : Qle_bool (2 ^ 1024) (Qabs (nearest x)) = true).
      { apply Qle_bool_iff. rewrite Qabs_neg by exact Hnx. lra. }
      assert (Sx : Qle_bool 0 x = false).
      { destruct (Qle_bool 0 x) eqn:Sx; [|reflexivity].
        apply Qle_bool_iff in Sx. exfalso. lra. }
      rewrite Ox, Sx. reflexivity.
  - destruct (Qle_bool (2 ^ 1024) (Qabs (nearest x))) eqn:Ox.
    + destruct (Qle_bool 0 x) eqn:Sx; cbn [negb]; [|reflexivity].
      exfalso. apply Qle_bool_iff in Sx, Ox.
      pose proof (nearest_nonneg x Sx) as Hnx.
      rewrite Qabs_pos in Ox by exact Hnx.
      assert (Oy' : Qle_bool (2 ^ 1024) (Qabs (nearest y)) = true).
      { apply Qle_bool_iff. rewrite Qabs_pos by lra. lra. }
      congruence.
    + cbn. apply Qle_bool_iff, Hn.
Qed.


End Nearest.

(** * Properties *)

(** ** Arithmetic helpers *)

(** Names the quotient and the remainder of [x] by [k] and forgets how
    they were computed, which leaves linear arithmetic. *)
Ltac euclid x k :=
  let q := fresh "q" in
  let r := fresh "r" in
  let Hd := fresh "Hd" in
  let Hr := fresh "Hr" in
  assert (Hd : x = k * (x / k) + x mod k) by (apply N.div_mod'; lia);
  assert (Hr : x mod k < k) by (apply N.mod_lt; lia);
  set (q := x / k) in *; set (r := x mod k) in *;
  clearbody q r.

Lemma div_by (n k q r : N) : n = k * q + r -> r < k -> n / k = q.
Proof. intros Hn Hr. symmetry. apply (N.div_unique n k q r); assumption. Qed.

Lemma mod_by (n k q r : N) : n = k * q + r -> r < k -> n mod k = r.
Proof. intros Hn Hr. symmetry. apply (N.mod_unique n k q r); assumption. Qed.

Lemma forall_below (P : N -> bool) (n : nat) :
  forallb P (map N.of_nat (seq 0 n)) = true ->
  forall x, x < N.of_nat n -> P x = true.
Proof.
  intros Hall x Hx.
  rewrite forallb_forall in Hall. apply Hall.
  apply in_map_iff. exists (N.to_nat x). split; [lia|].
  apply in_seq. lia.
Qed.

(** ** Base64: [atob] undoes [base64_encode] *)

Lemma sextets_decode (bytes : list N) :
  Forall (fun b => b < 256) bytes -> decode_sextets (sextets bytes) = bytes.
Proof.
  revert bytes.
  fix IH 1. intros [|a [|b [|c r]]] Hb; [reflexivity| | |].
  - inversion_clear Hb as [|? ? Ha _]. cbn [sextets decode_sextets].
    f_equal. euclid a 4. apply (div_by _ 16 a 0); lia.
  - inversion_clear Hb as [|? ? Ha Hb']. inversion_clear Hb' as [|? ? Hb _].
    cbn [sextets decode_sextets].
    euclid a 4. euclid b 16. euclid r0 4.
    assert (E : ((q * 64 + (r * 16 + q0)) * 64 + r0 * 4) / 4 = a * 256 + b).
    { apply (div_by _ 4 _ 0); lia. }
    rewrite E. f_equal; [apply (div_by _ 256 a b); lia|].
    f_equal. apply (mod_by _ 256 a b); lia.
  - inversion_clear Hb as [|? ? Ha Hb']. inversion_clear Hb' as [|? ? Hb Hc'].
    inversion_clear Hc' as [|? ? Hc Hr].
    cbn [sextets decode_sextets]. cbv zeta.
    euclid a 4. euclid b 16. euclid c 64.
    f_equal; [apply (div_by _ 65536 a (b * 256 + c)); lia|].
    f_equal.
    { assert (E : (((q * 64 + (r0 * 16 + q0)) * 64 + (r1 * 4 + q1)) * 64 + r2) / 256
                  = a * 256 + b) by (apply (div_by _ 256 _ c); lia).
      rewrite E. apply (mod_by _ 256 a b); lia. }
    f_equal; [apply (mod_by _ 256 (a * 256 + b) c); lia|].
    apply IH, Hr.
Qed.

Lemma b64_char_facts (v : N) : v < 64 -> b64_char_ok v = true.
Proof. apply (forall_below b64_char_ok 64). vm_compute. reflexivity. Qed.

Lemma sextets_lt (bytes : list N) :
  Forall (fun b => b < 256) bytes -> Forall (fun v => v < 64) (sextets bytes).
Proof.
  revert bytes.
  fix IH 1. intros [|a [|b [|c r]]] Hb; [constructor| | |].
  - inversion_clear Hb as [|? ? Ha _]. cbn [sextets].
    euclid a 4. repeat constructor; lia.
  - inversion_clear Hb as [|? ? Ha Hb']. inversion_clear Hb' as [|? ? Hb _].
    cbn [sextets]. euclid a 4. euclid b 16. repeat constructor; lia.
  - inversion_clear Hb as [|? ? Ha Hb']. inversion_clear Hb' as [|? ? Hb Hc'].
    inversion_clear Hc' as [|? ? Hc Hr].
    cbn [sextets]. euclid a 4. euclid b 16. euclid c 64.
    repeat (constructor; [lia|]). apply IH, Hr.
Qed.

Lemma b64_values_chars (sx : list N) :
  Forall (fun v => v < 64) sx -> b64_values (map b64_char sx) = Some sx.
Proof.
  induction 1 as [|v sx Hv _ IH]; [reflexivity|].
  cbn [map b64_values]. rewrite IH.
  pose proof (b64_char_facts v Hv) as F. unfold b64_char_ok in F.
  repeat (apply andb_prop in F; destruct F as [F ?]).
  apply bool_decide_eq_true in F. rewrite F. reflexivity.
Qed.

Lemma filter_ws_chars (sx : list N) (k : nat) :
  Forall (fun v => v < 64) sx ->
  List.filter (fun c => negb (is_ascii_whitespace c))
    (map b64_char sx ++ repeat 61 k)
  = map b64_char sx ++ repeat 61 k.
Proof.
  induction 1 as [|v sx Hv _ IH].
  - induction k as [|k IHk]; [reflexivity|]. cbn in *. rewrite IHk. reflexivity.
  - cbn [map app List.filter]. rewrite IH.
    pose proof (b64_char_facts v Hv) as F. unfold b64_char_ok in F.
    repeat (apply andb_prop in F; destruct F as [F ?]).
    match goal with E : negb (is_ascii_whitespace _) = true |- _ => rewrite E end.
    reflexivity.
Qed.

Lemma strip_equals_chars (sx : list N) (k : nat) :
  Forall (fun v => v < 64) sx -> (k <= 2)%nat ->
  strip_equals (map b64_char sx ++ repeat 61 k) = map b64_char sx.
Proof.
  intros Hsx Hk. unfold strip_equals.
  assert (Hlast : match rev (map b64_char sx) with
                  | c :: _ => (c =? 61) = false
                  | [] => True
                  end).
  { destruct (rev (map b64_char sx)) as [|c t] eqn:E; [exact I|].
    assert (Hin : In c (map b64_char sx)).
    { apply in_rev. rewrite E. left. reflexivity. }
    apply in_map_iff in Hin. destruct Hin as (v & <- & Hv).
    rewrite Forall_forall in Hsx. 
    pose proof (b64_char_facts v (Hsx v ltac:(apply list_elem_of_In; exact Hv))) as F.
    unfold b64_char_ok in F.
    repeat (apply andb_prop in F; destruct F as [F ?]).
    match goal with E : negb (_ =? 61) = true |- _ =>
      apply negb_true_iff in E; exact E end. }
  rewrite rev_app_distr, rev_repeat.
  destruct k as [|[|[|k]]]; [| | |lia]; cbn [repeat app].
  - destruct (rev (map b64_char sx)) as [|c t] eqn:E.
    + apply (f_equal (@rev N)) in E. rewrite rev_involutive in E.
      rewrite app_nil_r. reflexivity.
    + rewrite Hlast, app_nil_r. reflexivity.
  - rewrite N.eqb_refl.
    destruct (rev (map b64_char sx)) as [|c t] eqn:E.
    + apply (f_equal (@rev N)) in E. rewrite rev_involutive in E. symmetry. exact E.
    + rewrite Hlast. rewrite <- E. apply rev_involutive.
  - rewrite !N.eqb_refl. apply rev_involutive.
Qed.

Lemma atob_chars (sx : list N) (k : nat) :
  Forall (fun v => v < 64) sx -> (k <= 2)%nat ->
  ((length sx + k) mod 4 = 0)%nat ->
  atob (map b64_char sx ++ repeat 61 k) = Some (decode_sextets sx).
Proof.
  intros Hsx Hk Hlen. unfold atob.
  rewrite filter_ws_chars by assumption.
  assert (E : (length (map b64_char sx ++ repeat 61%N k) mod 4 =? 0)%nat = true).
  { rewrite length_app, length_map, repeat_length. apply Nat.eqb_eq, Hlen. }
  rewrite E, strip_equals_chars by assumption.
  rewrite length_map.
  assert (E1 : (length sx mod 4 =? 1)%nat = false).
  { apply Nat.eqb_neq. intros E1.
    assert (E2 : ((length sx + k) mod 4 = (1 + k) mod 4)%nat).
    { rewrite <- Nat.Div0.add_mod_idemp_l, E1. reflexivity. }
    rewrite Hlen in E2. destruct k as [|[|[|k]]]; cbn in E2; lia. }
  rewrite E1, b64_values_chars by assumption. reflexivity.
Qed.

Lemma sextets_length (bytes : list N) :
  (pad_length bytes <= 2)%nat /\
  ((length (sextets bytes) + pad_length bytes) mod 4 = 0)%nat.
Proof.
  unfold pad_length. revert bytes.
  fix IH 1. intros [|a [|b [|c r]]]; [split; cbn; lia ..|].
  destruct (IH r) as [H1 H2]. cbn [sextets length].
  replace (S (S (S (length r))) mod 3)%nat with (length r mod 3)%nat.
  - split; [exact H1|].
    replace (S (S (S (S (length (sextets r))))) + (3 - length r mod 3) mod 3)%nat
      with ((length (sextets r) + (3 - length r mod 3) mod 3) + 1 * 4)%nat by lia.
    rewrite Nat.Div0.mod_add. exact H2.
  - replace (S (S (S (length r)))) with (length r + 1 * 3)%nat by lia.
    rewrite Nat.Div0.mod_add. reflexivity.
Qed.

Lemma atob_base64_encode (bytes : list N) :
  Forall (fun b => b < 256) bytes -> atob (base64_encode bytes) = Some bytes.
Proof.
  intros Hb. unfold base64_encode.
  destruct (sextets_length bytes) as [H1 H2].
  rewrite atob_chars; [|apply sextets_lt, Hb|exact H1|exact H2].
  rewrite sextets_decode by exact Hb. reflexivity.
Qed.

(** ** [normalized] undoes the URL-safe substitutions and the stripping *)

Lemma replace_all_app (a b : N) (s t : jsstring) :
  replace_all a b (s ++ t) = replace_all a b s ++ replace_all a b t.
Proof. apply map_app. Qed.

Lemma replace_all_cons (a b c : N) (s : jsstring) :
  replace_all a b (c :: s) = replace_all a b [c] ++ replace_all a b s.
Proof. reflexivity. Qed.

Lemma replace_all_equals (a b : N) (k : nat) :
  a <> 61 -> replace_all a b (repeat 61 k) = repeat 61 k.
Proof.
  intros Ha. induction k as [|k IH]; [reflexivity|].
  cbn [repeat]. rewrite replace_all_cons, IH. unfold replace_all. cbn [map].
  destruct (N.eqb_spec 61 a); [congruence|reflexivity].
Qed.

Lemma url_chars_strip (sx : list N) (k : nat) :
  Forall (fun v => v < 64) sx ->
  List.filter (fun c => negb (c =? 61))
    (replace_all 47 95 (replace_all 43 45 (map b64_char sx ++ repeat 61 k)))
  = replace_all 47 95 (replace_all 43 45 (map b64_char sx)).
Proof.
  induction 1 as [|v sx Hv _ IH].
  - cbn [map app]. rewrite !replace_all_equals by discriminate.
    induction k as [|k IHk]; [reflexivity|exact IHk].
  - cbn [map app].
    rewrite (replace_all_cons 43), (replace_all_app 47), List.filter_app, IH.
    rewrite (replace_all_cons 43 45 _ (map b64_char sx)), (replace_all_app 47).
    f_equal.
    pose proof (b64_char_facts v Hv) as F. unfold b64_char_ok in F.
    repeat (apply andb_prop in F; destruct F as [F ?]).
    match goal with E : bool_decide (List.filter _ _ = _) = true |- _ =>
      apply bool_decide_eq_true in E; exact E end.
Qed.

Lemma url_chars_back (sx : list N) :
  Forall (fun v => v < 64) sx ->
  replace_all 95 47 (replace_all 45 43
    (replace_all 47 95 (replace_all 43 45 (map b64_char sx))))
  = map b64_char sx.
Proof.
  induction 1 as [|v sx Hv _ IH]; [reflexivity|].
  cbn [map].
  rewrite (replace_all_cons 43), (replace_all_app 47), (replace_all_app 45),
    (replace_all_app 95), IH.
  pose proof (b64_char_facts v Hv) as F. unfold b64_char_ok in F.
  repeat (apply andb_prop in F; destruct F as [F ?]).
  match goal with E : bool_decide (replace_all 95 47 _ = _) = true |- _ =>
    apply bool_decide_eq_true in E; rewrite E end.
  reflexivity.
Qed.

Lemma normalized_url_chars (sx : list N) (k : nat) :
  Forall (fun v => v < 64) sx -> (k <= 2)%nat ->
  ((length sx + k) mod 4 = 0)%nat ->
  normalized (replace_all 47 95 (replace_all 43 45 (map b64_char sx)))
  = map b64_char sx ++ repeat 61 k.
Proof.
  intros Hsx Hk Hlen. unfold normalized.
  change (ch "_") with 95. change (ch "/") with 47.
  change (ch "-") with 45. change (ch "+") with 43. change (ch "=") with 61.
  assert (Hl : length (replace_all 47 95 (replace_all 43 45 (map b64_char sx)))
               = length sx) by (unfold replace_all; rewrite !length_map; reflexivity).
  rewrite !Hl.
  assert (Hm : (length sx mod 4 < 4)%nat) by (apply Nat.mod_upper_bound; lia).
  assert (Hk' : (k = (4 - length sx mod 4) mod 4)%nat).
  { assert (E : ((length sx mod 4 + k) mod 4 = 0)%nat)
      by (rewrite Nat.Div0.add_mod_idemp_l; exact Hlen).
    destruct (length sx mod 4)%nat as [|[|[|[|m]]]]; [| | | |lia];
      destruct k as [|[|[|k]]]; cbn in E |- *; lia. }
  destruct (Nat.eqb_spec (length sx mod 4) 0) as [E0|E0]; cbn [negb].
  - rewrite url_chars_back by assumption.
    rewrite Hk', E0. cbn. rewrite app_nil_r. reflexivity.
  - rewrite (replace_all_app 45), (replace_all_app 95), url_chars_back by assumption.
    rewrite !replace_all_equals by discriminate.
    f_equal. f_equal. rewrite Hk'.
    symmetry. apply Nat.mod_small. lia.
Qed.

Lemma normalized_base64url (bytes : list N) :
  Forall (fun b => b < 256) bytes ->
  normalized (base64url_encode bytes) = base64_encode bytes.
Proof.
  intros Hb. unfold base64url_encode, base64_encode.
  destruct (sextets_length bytes) as [H1 H2]. fold (pad_length bytes).
  pose proof (sextets_lt bytes Hb) as Hsx.
  rewrite url_chars_strip by assumption.
  apply normalized_url_chars; assumption.
Qed.

(** ** Percent escapes and UTF-8: [decodeURIComponent] undoes [utf8_encode] *)

Lemma percent_facts (b : N) : b < 256 -> percent_ok b = true.
Proof. apply (forall_below percent_ok 256). vm_compute. reflexivity. Qed.

Lemma uri_unescape_percent (bytes : list N) :
  Forall (fun b => b < 256) bytes ->
  uri_unescape (percent_escape bytes) = Some (map Oct bytes).
Proof.
  induction 1 as [|b bytes Hb _ IH]; [reflexivity|].
  change (percent_escape (b :: bytes))
    with (37 :: padStart0 2 (toString16 b) ++ percent_escape bytes).
  cbn [map].
  pose proof (percent_facts b Hb) as F. unfold percent_ok in F.
  repeat (apply andb_prop in F; destruct F as [F ?]).
  apply bool_decide_eq_true in F. rewrite F.
  cbn [app uri_unescape]. rewrite N.eqb_refl.
  repeat match goal with
         | E : bool_decide _ = true |- _ => apply bool_decide_eq_true in E; rewrite E
         end.
  rewrite IH.
  match goal with E : (_ =? b) = true |- _ => apply N.eqb_eq in E; rewrite E end.
  reflexivity.
Qed.

Ltac bools :=
  repeat match goal with
         | H : (_ && _) = true |- _ => apply andb_prop in H; destruct H
         | H : (_ || _) = false |- _ => apply orb_false_elim in H; destruct H
         | H : negb _ = true |- _ => apply negb_true_iff in H
         | H : negb _ = false |- _ => apply negb_false_iff in H
         | H : (_ <? _) = true |- _ => apply N.ltb_lt in H
         | H : (_ <? _) = false |- _ => apply N.ltb_ge in H
         | H : (_ <=? _) = true |- _ => apply N.leb_le in H
         | H : (_ <=? _) = false |- _ => apply N.leb_gt in H
         | H : (_ =? _) = true |- _ => apply N.eqb_eq in H
         | H : (_ =? _) = false |- _ => apply N.eqb_neq in H
         end.

Lemma ltb_true (a b : N) : a < b -> (a <? b) = true.
Proof. apply N.ltb_lt. Qed.

Lemma ltb_false (a b : N) : b <= a -> (a <? b) = false.
Proof. apply N.ltb_ge. Qed.

Lemma leb_true (a b : N) : a <= b -> (a <=? b) = true.
Proof. apply N.leb_le. Qed.

Lemma leb_false (a b : N) : b < a -> (a <=? b) = false.
Proof. apply N.leb_gt. Qed.

Lemma utf8_bytes_lt (cp : N) :
  cp < 1114112 -> Forall (fun b => b < 256) (utf8_bytes cp).
Proof.
  intros Hcp. unfold utf8_bytes.
  destruct (N.ltb_spec cp 128); [repeat constructor; lia|].
  destruct (N.ltb_spec cp 2048).
  { euclid cp 64. repeat constructor; lia. }
  destruct (N.ltb_spec cp 65536).
  { change 4096 with (64 * 64). rewrite <- (N.Div0.div_div cp 64 64).
    euclid cp 64. euclid q 64. repeat constructor; lia. }
  change 262144 with (64 * 64 * 64). change 4096 with (64 * 64).
  rewrite <- !N.Div0.div_div.
  euclid cp 64. euclid q 64. euclid q0 64. repeat constructor; lia.
Qed.

Lemma utf8_items_bytes (cp : N) (items : list uri_item) :
  cp < 1114112 -> is_surrogate cp = false ->
  utf8_items (map Oct (utf8_bytes cp) ++ items)
  = match utf8_items items with
    | Some s => Some (utf16 cp ++ s)
    | None => None
    end.
Proof.
  intros Hcp Hs. unfold utf8_bytes.
  destruct (N.ltb_spec cp 128) as [H1|H1].
  { cbn [map app utf8_items]. unfold utf16.
    rewrite (ltb_true cp 128), (ltb_true cp 65536) by lia.
    reflexivity. }
  destruct (N.ltb_spec cp 2048) as [H2|H2].
  { cbn [map app utf8_items].
    euclid cp 64.
    rewrite (ltb_false _ 128), (ltb_false _ 192), (ltb_true _ 224) by lia.
    unfold utf8_cp2, is_continuation.
    rewrite (leb_true 128 (128 + r)), (ltb_true (128 + r) 192) by lia.
    replace ((192 + q - 192) * 64 + (128 + r - 128)) with cp by lia.
    rewrite (leb_true 128 cp) by lia. reflexivity. }
  destruct (N.ltb_spec cp 65536) as [H3|H3].
  { cbn [map app utf8_items].
    change 4096 with (64 * 64). rewrite <- (N.Div0.div_div cp 64 64).
    euclid cp 64. euclid q 64.
    rewrite (ltb_false _ 128), (ltb_false _ 192), (ltb_false _ 224),
      (ltb_true _ 240) by lia.
    unfold utf8_cp3, is_continuation.
    rewrite (leb_true 128 (128 + r0)), (ltb_true (128 + r0) 192),
      (leb_true 128 (128 + r)), (ltb_true (128 + r) 192) by lia.
    replace (((224 + q0 - 224) * 64 + (128 + r0 - 128)) * 64 + (128 + r - 128))
      with cp by lia.
    rewrite (leb_true 2048 cp), Hs by lia. reflexivity. }
  cbn [map app utf8_items].
  change 262144 with (64 * 64 * 64). change 4096 with (64 * 64).
  rewrite <- !N.Div0.div_div.
  euclid cp 64. euclid q 64. euclid q0 64.
  rewrite (ltb_false _ 128), (ltb_false _ 192), (ltb_false _ 224),
    (ltb_false _ 240), (ltb_true _ 248) by lia.
  unfold utf8_cp4, is_continuation.
  rewrite (leb_true 128 (128 + r1)), (ltb_true (128 + r1) 192),
    (leb_true 128 (128 + r0)), (ltb_true (128 + r0) 192),
    (leb_true 128 (128 + r)), (ltb_true (128 + r) 192) by lia.
  replace ((((240 + q1 - 240) * 64 + (128 + r1 - 128)) * 64 + (128 + r0 - 128)) * 64
           + (128 + r - 128)) with cp by lia.
  rewrite (leb_true 65536 cp), (ltb_true cp 1114112) by lia. reflexivity.
Qed.

Lemma utf8_items_encode (s : jsstring) :
  well_formed s = true -> utf8_items (map Oct (utf8_encode s)) = Some s.
Proof.
  unfold utf8_encode. revert s.
  fix IH 1. intros [|c r] Hwf; [reflexivity|].
  cbn [well_formed code_points] in *.
  destruct (is_high_surrogate c) eqn:Hh.
  - destruct r as [|d r']; [discriminate|].
    apply andb_prop in Hwf. destruct Hwf as [Hl Hwf]. rewrite Hl.
    cbn [flat_map]. rewrite map_app.
    unfold is_high_surrogate, is_low_surrogate in *. bools.
    rewrite utf8_items_bytes, (IH r' Hwf); [|lia|].
    + unfold utf16. rewrite (ltb_false _ 65536) by lia.
      replace (65536 + (c - 55296) * 1024 + (d - 56320) - 65536)
        with (1024 * (c - 55296) + (d - 56320)) by lia.
      rewrite (div_by _ 1024 (c - 55296) (d - 56320)),
        (mod_by _ 1024 (c - 55296) (d - 56320)) by lia.
      cbn [app]. do 3 f_equal; lia.
    + unfold is_surrogate. rewrite (ltb_false _ 57344) by lia.
      apply andb_false_r.
  - apply andb_prop in Hwf. destruct Hwf as [Hwf' Hwf].
    apply andb_prop in Hwf'. destruct Hwf' as [Hl Hc].
    apply negb_true_iff in Hl. rewrite Hl.
    cbn [flat_map]. rewrite map_app.
    rewrite utf8_items_bytes, (IH r Hwf).
    + unfold utf16. rewrite Hc. reflexivity.
    + bools. lia.
    + unfold is_high_surrogate, is_low_surrogate, is_surrogate in *. bools.
      destruct (N.leb_spec 55296 c), (N.ltb_spec c 57344); cbn [andb]; try reflexivity.
      destruct (N.ltb_spec c 56320), (N.leb_spec 56320 c); cbn in *; try discriminate; lia.
Qed.

Lemma code_points_lt (s : jsstring) :
  well_formed s = true -> Forall (fun cp => cp < 1114112) (code_points s).
Proof.
  revert s.
  fix IH 1. intros [|c r] Hwf; [constructor|].
  cbn [well_formed code_points] in *.
  destruct (is_high_surrogate c) eqn:Hh.
  - destruct r as [|d r']; [discriminate|].
    apply andb_prop in Hwf. destruct Hwf as [Hl Hwf]. rewrite Hl.
    constructor; [|apply IH, Hwf].
    unfold is_high_surrogate, is_low_surrogate in *. bools. lia.
  - apply andb_prop in Hwf. destruct Hwf as [Hwf' Hwf].
    apply andb_prop in Hwf'. destruct Hwf' as [Hl Hc].
    apply negb_true_iff in Hl. rewrite Hl.
    constructor; [bools; lia|apply IH, Hwf].
Qed.

Lemma utf8_encode_lt (s : jsstring) :
  well_formed s = true -> Forall (fun b => b < 256) (utf8_encode s).
Proof.
  intros Hwf. unfold utf8_encode.
  pose proof (code_points_lt s Hwf) as Hcp.
  induction Hcp as [|cp l Hcp _ IH]; [constructor|].
  cbn [flat_map]. apply Forall_app. split; [apply utf8_bytes_lt, Hcp|exact IH].
Qed.

Lemma decodeURIComponent_utf8 (s : jsstring) :
  well_formed s = true ->
  decodeURIComponent (percent_escape (utf8_encode s)) = Some s.
Proof.
  intros Hwf. unfold decodeURIComponent.
  rewrite uri_unescape_percent by (apply utf8_encode_lt, Hwf).
  apply utf8_items_encode, Hwf.
Qed.

(** ** The decoder as a function of the credential *)

Lemma claims_of_nonempty `{Platform} (t : jsstring) :
  t <> [] ->
  claims_of t = match split (ch ".") t with
                | _ :: seg :: _ => claims_of_segment seg
                | _ => JNull
                end.
Proof. destruct t; [contradiction|reflexivity]. Qed.

Lemma base64UrlDecode_eval {S} (input : jsstring) (st : S) :
  base64UrlDecode input st = (Normal (decode_segment input), st).
Proof.
  unfold base64UrlDecode, decode_segment, try_catch, bind, call.
  destruct (atob (normalized input)) as [bin|]; [|reflexivity].
  unfold ret at 1.
  destruct (decodeURIComponent (percent_escape bin)); reflexivity.
Qed.

Lemma getTokenPayload_given `{Platform} (t : jsstring) (w : world) :
  getTokenPayload (Given t) w = (Normal (claims_of t), w).
Proof.
  unfold getTokenPayload, claims_of, claims_of_segment.
  unfold bind at 1. unfold ret at 1.
  destruct t as [|c s]; [reflexivity|].
  cbn [truthy negb default from_option id].
  destruct (split (ch ".") (c :: s)) as [|h [|seg parts]]; [reflexivity ..|].
  cbn [length Nat.ltb Nat.leb nth].
  unfold bind. rewrite base64UrlDecode_eval.
  destruct (decode_segment seg) as [|c' s']; [reflexivity|].
  cbn [truthy negb]. unfold try_catch, call.
  destruct (JSON_parse (c' :: s')); reflexivity.
Qed.

Lemma base64UrlDecode_roundtrip (s : jsstring) :
  well_formed s = true ->
  decode_segment (base64url_encode (utf8_encode s)) = s.
Proof.
  intros Hwf. unfold decode_segment.
  pose proof (utf8_encode_lt s Hwf) as Hb.
  rewrite normalized_base64url, atob_base64_encode by exact Hb.
  rewrite decodeURIComponent_utf8 by exact Hwf. reflexivity.
Qed.

Lemma split_no_sep (sep : N) (s : jsstring) :
  Forall (fun c => c <> sep) s -> split sep s = [s].
Proof.
  induction 1 as [|c s Hc _ IH]; [reflexivity|].
  cbn [split]. destruct (N.eqb_spec c sep); [contradiction|].
  rewrite IH. reflexivity.
Qed.

Lemma split_app_sep (sep : N) (h r : jsstring) :
  Forall (fun c => c <> sep) h -> split sep (h ++ sep :: r) = h :: split sep r.
Proof.
  induction 1 as [|c s Hc _ IH].
  - cbn [app split]. rewrite N.eqb_refl. reflexivity.
  - cbn [app split]. destruct (N.eqb_spec c sep); [contradiction|].
    rewrite IH. reflexivity.
Qed.

Lemma split_app_end (sep : N) (h : jsstring) (tail : jsstring) :
  Forall (fun c => c <> sep) h ->
  tail = [] \/ (exists sig, tail = sep :: sig) ->
  exists parts, split sep (h ++ tail) = h :: parts.
Proof.
  intros Hh [->|[sig ->]].
  - rewrite app_nil_r, split_no_sep by exact Hh. eauto.
  - rewrite split_app_sep by exact Hh. eauto.
Qed.

(** ** The token store *)

Lemma getToken_eval (w : world) :
  getToken w = (Normal (stored w), after_read w).
Proof.
  unfold getToken, stored, after_read, bind, typeof_window_undefined, gets,
    try_catch, localStorage_getItem, ret.
  destruct (window w) as [[|full items]|] eqn:E; rewrite ?E; reflexivity.
Qed.

Lemma clearToken_area (w : world) (full : bool) (items : gmap (list N) (list N)) :
  window w = Some (Area full items) ->
  clearToken w
  = (Normal tt, record_event (StorageRemove TOKEN_KEY)
                  (with_items full (delete TOKEN_KEY items) w)).
Proof.
  intros E.
  unfold clearToken, bind, typeof_window_undefined, gets, localStorage_removeItem.
  rewrite !E. reflexivity.
Qed.

Lemma getTokenPayload_stored `{Platform} (token : arg jsstring) (w : world) :
  token = Null \/ token = Undefined ->
  getTokenPayload token w
  = (Normal (match stored w with Some t => claims_of t | None => JNull end),
     after_read w).
Proof.
  intros Ht.
  assert (E : getTokenPayload token w
              = match getToken w with
                | (Normal (Some t), w') => getTokenPayload (Given t) w'
                | (Normal None, w') => (Normal JNull, w')
                | (Throw e, w') => (Throw e, w')
                end).
  { unfold getTokenPayload at 1. unfold bind at 1.
    destruct Ht as [-> | ->]; destruct (getToken w) as [[[t|]|e] w'];
      reflexivity. }
  rewrite E, getToken_eval.
  destruct (stored w) as [t|]; [apply getTokenPayload_given|reflexivity].
Qed.

Lemma isTokenExpired_eval `{Platform} (token : arg jsstring) (skew : option number)
    (w w' : world) (claims : json) :
  getTokenPayload token w = (Normal claims, w') ->
  isTokenExpired token skew w
  = (Normal (expired_of claims skew (clock_ms w')), w').
Proof.
  intros E. unfold isTokenExpired, expired_of, bind. rewrite E.
  destruct (falsy (optional_exp claims) || negb (typeof_number (optional_exp claims)));
    reflexivity.
Qed.

Lemma isTokenExpired_given `{Platform} (t : jsstring) (skew : option number) (w : world) :
  isTokenExpired (Given t) skew w
  = (Normal (expired_of (claims_of t) skew (clock_ms w)), w).
Proof. apply isTokenExpired_eval, getTokenPayload_given. Qed.

(** ** The expiry evaluator *)


Lemma Math_max_0_double (x : Q) :
  Math_max (Double 0%Q) (Double x) = Double (Qmax 0 x).
Proof.
  unfold Math_max, number_ge.
  destruct (Qle_bool x 0) eqn:E.
  - apply Qle_bool_iff in E. f_equal. unfold Qmax, GenericMinMax.gmax.
    destruct (Qcompare_spec 0 x) as [H0|H0|H0]; try reflexivity.
    exfalso. lra.
  - f_equal. unfold Qmax, GenericMinMax.gmax.
    destruct (Qcompare_spec 0 x) as [H0|H0|H0]; try reflexivity;
      exfalso; assert (Hle : (x <= 0)%Q) by lra;
      apply Qle_bool_iff in Hle; congruence.
Qed.

Lemma round64_not_NaN (x : Q) : round64 x <> NaN.
Proof.
  unfold round64. destruct (Qeq_bool x 0); [discriminate|].
  destruct (Qle_bool _ _); discriminate.
Qed.

Lemma number_ge_trans (a b c : number) :
  number_ge a b = true -> number_ge b c = true -> number_ge a c = true.
Proof.
  destruct a as [|na|x], b as [|nb|y], c as [|nc|z]; cbn;
    try discriminate; try reflexivity;
    repeat match goal with n : bool |- _ => destruct n end; cbn;
    try congruence.
  rewrite !Qle_bool_iff. intros Hyx Hzy. lra.
Qed.

Lemma number_ge_total (a b : number) :
  a <> NaN -> b <> NaN -> number_ge a b = false -> number_ge b a = true.
Proof.
  destruct a as [|na|x], b as [|nb|y]; cbn; try congruence;
    repeat match goal with n : bool |- _ => destruct n end; cbn;
    try congruence.
  intros _ _ Hxy. apply Qle_bool_iff.
  destruct (Qlt_le_dec x y) as [Hlt|Hle]; [lra|].
  apply Qle_bool_iff in Hle. congruence.
Qed.

Lemma number_ge_not_NaN (a b : number) :
  number_ge a b = true -> a <> NaN /\ b <> NaN.
Proof. destruct a, b; cbn; intros E; split; congruence. Qed.


Lemma Math_max_0_cases (s : number) :
  s <> NaN ->
  Math_max (Double 0%Q) s = Infinite false \/
  exists m, Math_max (Double 0%Q) s = Double m /\ (0 <= m)%Q.
Proof.
  destruct s as [|[|]|x]; [congruence| | |]; intros _.
  - right. exists 0%Q. split; [reflexivity|lra].
  - left. reflexivity.
  - right. exists (Qmax 0 x). split; [apply Math_max_0_double|apply Q.le_max_l].
Qed.

Lemma Math_max_0_mono (s s' : number) :
  number_ge s' s = true ->
  number_ge (Math_max (Double 0%Q) s') (Math_max (Double 0%Q) s) = true.
Proof.
  intros Hge. destruct (number_ge_not_NaN _ _ Hge) as [Hs' Hs].
  assert (E : forall t, t <> NaN ->
                Math_max (Double 0%Q) t
                = if number_ge (Double 0%Q) t then Double 0%Q else t).
  { intros [| |]; [congruence|reflexivity|reflexivity]. }
  assert (Hlow : forall t, t <> NaN ->
                   number_ge (Math_max (Double 0%Q) t) (Double 0%Q) = true).
  { intros t Ht. rewrite (E t Ht).
    destruct (number_ge (Double 0%Q) t) eqn:G; [reflexivity|].
    apply number_ge_total; [discriminate|exact Ht|exact G]. }
  rewrite (E s Hs).
  destruct (number_ge (Double 0%Q) s) eqn:G; [apply Hlow, Hs'|].
  rewrite (E s' Hs').
  destruct (number_ge (Double 0%Q) s') eqn:G'; [|exact Hge].
  rewrite (number_ge_trans _ _ _ G' Hge) in G. discriminate.
Qed.

Lemma number_sub_antitone (e : Q) (m m' : number) :
  number_ge m' m = true ->
  number_ge (number_sub (Double e) m) (number_sub (Double e) m') = true.
Proof.
  destruct m as [|nm|x], m' as [|nm'|x']; cbn; try discriminate.
  - destruct nm, nm'; cbn; congruence.
  - intros ->. cbn. destruct (round64 (e - x'))%Q as [|n|r] eqn:R;
      [exfalso; exact (round64_not_NaN _ R)|reflexivity|reflexivity].
  - destruct nm'; cbn; [discriminate|]. intros _.
    destruct (round64 (e - x))%Q as [|n|r] eqn:R;
      [exfalso; exact (round64_not_NaN _ R)|destruct n; reflexivity|reflexivity].
  - rewrite Qle_bool_iff. intros Hx. apply round64_mono. lra.
Qed.

Lemma now_mono (ms ms' : N) :
  ms <= ms' ->
  number_ge (Double (inject_Z (Z.of_N (ms' / 1000))))
            (Double (inject_Z (Z.of_N (ms / 1000)))) = true.
Proof.
  intros Hms. cbn. apply Qle_bool_iff. rewrite <- Zle_Qle.
  apply N2Z.inj_le. apply N.Div0.div_le_mono. exact Hms.
Qed.


Lemma expired_of_number (claims : json) (skew : option number) (ms : N) (e : Q) :
  optional_exp claims = Some (JNum e) ->
  expired_of claims skew ms
  = Qeq_bool e 0
    || number_ge (Double (inject_Z (Z.of_N (ms / 1000))))
         (number_sub (Double e)
            (Math_max (Double 0%Q) (default (Double 30%Q) skew))).
Proof.
  intros He. unfold expired_of. rewrite He.
  cbn [falsy typeof_number number_of negb]. rewrite orb_false_r. reflexivity.
Qed.





Lemma base64url_no_dot (bytes : list N) :
  Forall (fun b => b < 256) bytes ->
  Forall (fun c => c <> 46) (base64url_encode bytes).
Proof.
  intros Hb. unfold base64url_encode, base64_encode.
  pose proof (sextets_lt bytes Hb) as Hsx.
  rewrite url_chars_strip by assumption.
  induction Hsx as [|v sx Hv _ IH]; [constructor|].
  cbn [map]. rewrite (replace_all_cons 43), (replace_all_app 47).
  apply Forall_app. split; [|exact IH].
  pose proof (b64_char_facts v Hv) as F. unfold b64_char_ok in F.
  repeat (apply andb_prop in F; destruct F as [F ?]).
  match goal with E : bool_decide (Forall _ _) = true |- _ =>
    apply bool_decide_eq_true in E; exact E end.
Qed.

(** ** The credential decoder *)

(** C8. A claims record written as JSON, encoded as UTF-8, then as URL-safe
    base64 without padding and placed as the second dot-separated segment of
    a credential is the record the decoder returns, whatever the first
    segment and whatever follows the second.  The JSON text is well-formed
    UTF-16 and [JSON.parse] reads back what [JSON.stringify] wrote. *)
Theorem C8_decode_encode_round_trip `{Platform} (claims : json)
    (header tail : jsstring) (w : world) :
  Forall (fun c => c <> ch ".") header ->
  tail = [] \/ (exists signature, tail = ch "." :: signature) ->
  well_formed (JSON_stringify claims) = true ->
  JSON_stringify claims <> [] ->
  JSON_parse (JSON_stringify claims) = Some claims ->
  getTokenPayload
    (Given (header ++ ch "." ::
            base64url_encode (utf8_encode (JSON_stringify claims)) ++ tail)) w
  = (Normal claims, w).
Proof.
  intros Hh Ht Hwf Hne Hparse.
  rewrite getTokenPayload_given. f_equal. f_equal.
  rewrite claims_of_nonempty by (destruct header; discriminate).
  rewrite split_app_sep by exact Hh.
  destruct (split_app_end (ch ".")
              (base64url_encode (utf8_encode (JSON_stringify claims))) tail)
    as [parts ->]; [apply base64url_no_dot, utf8_encode_lt, Hwf|exact Ht|].
  unfold claims_of_segment. rewrite base64UrlDecode_roundtrip by exact Hwf.
  destruct (JSON_stringify claims) as [|c s] eqn:E; [contradiction|].
  rewrite Hparse. reflexivity.
Qed.

(** C7. The decoder never raises.  A credential with fewer than two
    dot-separated segments gives null claims, and so does one whose second
    segment fails to decode as base64, or as UTF-8, or to parse as JSON. *)
Theorem C7_decoder_never_raises `{Platform} (w : world) :
  (forall token, exists claims w', getTokenPayload token w = (Normal claims, w')) /\
  (forall input, (length (split (ch ".") input) < 2)%nat ->
     getTokenPayload (Given input) w = (Normal JNull, w)) /\
  (forall input seg, split (ch ".") input !! 1%nat = Some seg ->
     atob (normalized seg) = None \/
     (exists bin, atob (normalized seg) = Some bin /\
                  decodeURIComponent (percent_escape bin) = None) \/
     (exists bin txt, atob (normalized seg) = Some bin /\
                      decodeURIComponent (percent_escape bin) = Some txt /\
                      JSON_parse txt = None) ->
     getTokenPayload (Given input) w = (Normal JNull, w)).
Proof.
  split; [|split].
  - intros [| |t].
    + eexists _, _. apply getTokenPayload_stored. auto.
    + eexists _, _. apply getTokenPayload_stored. auto.
    + eexists _, _. apply getTokenPayload_given.
  - intros input Hlen. rewrite getTokenPayload_given. f_equal. f_equal.
    destruct input as [|c s]; [reflexivity|].
    rewrite claims_of_nonempty by discriminate.
    destruct (split (ch ".") (c :: s)) as [|h [|seg parts]]; cbn in Hlen; try lia;
      reflexivity.
  - intros input seg Hseg Hfail. rewrite getTokenPayload_given. f_equal. f_equal.
    destruct input as [|c s]; [reflexivity|].
    rewrite claims_of_nonempty by discriminate.
    destruct (split (ch ".") (c :: s)) as [|h [|seg' parts]]; try discriminate.
    cbn in Hseg. injection Hseg as ->.
    unfold claims_of_segment, decode_segment.
    destruct Hfail as [-> | [(bin & -> & ->) | (bin & txt & -> & -> & Hp)]];
      try reflexivity.
    destruct txt; [reflexivity|]. rewrite Hp. reflexivity.
Qed.

(** C9. Two credentials with at least two dot-separated segments and the
    same second segment decode to the same claims. *)
Theorem C9_only_second_segment_matters `{Platform} (t1 t2 : jsstring) (w : world) :
  (2 <= length (split (ch ".") t1))%nat ->
  (2 <= length (split (ch ".") t2))%nat ->
  split (ch ".") t1 !! 1%nat = split (ch ".") t2 !! 1%nat ->
  getTokenPayload (Given t1) w = getTokenPayload (Given t2) w.
Proof.
  intros H1 H2 Hseg. rewrite !getTokenPayload_given. f_equal. f_equal.
  destruct t1 as [|c1 s1]; [cbn in H1; lia|].
  destruct t2 as [|c2 s2]; [cbn in H2; lia|].
  rewrite !claims_of_nonempty by discriminate.
  destruct (split (ch ".") (c1 :: s1)) as [|h1 [|seg1 p1]]; cbn in H1; try lia.
  destruct (split (ch ".") (c2 :: s2)) as [|h2 [|seg2 p2]]; cbn in H2; try lia.
  cbn in Hseg. injection Hseg as ->. reflexivity.
Qed.

Lemma after_read_clock (w : world) : clock_ms (after_read w) = clock_ms w.
Proof. unfold after_read. destruct (window w); reflexivity. Qed.

(** C10. The decoder and the expiry evaluator use the stored credential
    exactly when their credential argument is null or undefined: they then
    read the store once and answer what they answer for the credential
    [getToken] finds, or null claims and "expired" when it finds none.
    Given a string they leave the tab as it was and their answer does not
    depend on the store; given the empty string they answer null claims and
    "expired". *)
Theorem C10_fallback_only_on_nullish `{Platform} (w : world) (skew : option number) :
  getTokenPayload (Given []) w = (Normal JNull, w) /\
  isTokenExpired (Given []) skew w = (Normal true, w) /\
  (forall t, snd (getTokenPayload (Given t) w) = w /\
             snd (isTokenExpired (Given t) skew w) = w) /\
  (forall t w2, clock_ms w2 = clock_ms w ->
     fst (getTokenPayload (Given t) w2) = fst (getTokenPayload (Given t) w) /\
     fst (isTokenExpired (Given t) skew w2)
     = fst (isTokenExpired (Given t) skew w)) /\
  (forall token, token = Null \/ token = Undefined ->
     snd (getTokenPayload token w) = snd (getToken w) /\
     snd (isTokenExpired token skew w) = snd (getToken w) /\
     (forall storage, window w = Some storage ->
        trace (snd (getToken w)) = trace w ++ [StorageGet TOKEN_KEY]) /\
     (forall t, fst (getToken w) = Normal (Some t) ->
        fst (getTokenPayload token w) = fst (getTokenPayload (Given t) w) /\
        fst (isTokenExpired token skew w)
        = fst (isTokenExpired (Given t) skew w)) /\
     (fst (getToken w) = Normal None ->
        fst (getTokenPayload token w) = Normal JNull /\
        fst (isTokenExpired token skew w) = Normal true)).
Proof.
  split; [apply getTokenPayload_given|].
  split; [rewrite isTokenExpired_given; reflexivity|].
  split; [|split].
  - intros t. rewrite getTokenPayload_given, isTokenExpired_given. split; reflexivity.
  - intros t w2 Hclock.
    rewrite !getTokenPayload_given, !isTokenExpired_given, Hclock.
    split; reflexivity.
  - intros token Ht.
    rewrite (isTokenExpired_eval token skew w _ _ (getTokenPayload_stored token w Ht)).
    rewrite getTokenPayload_stored, getToken_eval by exact Ht.
    cbn [fst snd]. rewrite after_read_clock.
    split; [reflexivity|]. split; [reflexivity|]. split; [|split].
    + intros storage E. unfold after_read. rewrite E. reflexivity.
    + intros t Hst. injection Hst as ->.
      rewrite getTokenPayload_given, isTokenExpired_given. split; reflexivity.
    + intros Hst. injection Hst as ->. split; reflexivity.
Qed.

(** ** The session guard *)

Lemma lift_eval {A} (m : M world A) (f : frame) (r : completion A) (w : world) :
  m (tab f) = (r, w) -> lift m f = (r, set_tab w f).
Proof. intros E. unfold lift. rewrite E. reflexivity. Qed.

Lemma after_read_area (w : world) (full : bool) (items : gmap (list N) (list N)) :
  window w = Some (Area full items) ->
  after_read w = record_event (StorageGet TOKEN_KEY) w /\
  stored w = items !! TOKEN_KEY.
Proof. intros E. unfold after_read, stored. rewrite E. split; reflexivity. Qed.

Lemma effect_protected `{Platform} (f : frame) (full : bool)
    (items : gmap (list N) (list N)) :
  pathname f <> lit "/login" ->
  window (tab f) = Some (Area full items) ->
  effect f = protected_effect full items f.
Proof.
  intros Hpath Hwin.
  destruct (after_read_area _ _ _ Hwin) as [Har Hst].
  unfold effect, protected_effect. unfold bind at 1. unfold gets at 1.
  rewrite bool_decide_eq_false_2 by exact Hpath.
  unfold bind at 1. rewrite (lift_eval _ _ _ _ (getToken_eval (tab f))).
  rewrite Har, Hst. clear Har Hst.
  set (w1 := record_event (StorageGet TOKEN_KEY) (tab f)).
  assert (Hstop :
    (if negb (truthy (items !! TOKEN_KEY)) then ret true
     else lift (isTokenExpired match items !! TOKEN_KEY with
                               | Some s => Given s
                               | None => Null
                               end None)) (set_tab w1 f)
    = (Normal (must_stop (items !! TOKEN_KEY) (clock_ms (tab f))), set_tab w1 f)).
  { destruct (items !! TOKEN_KEY) as [[|c t]|]; try reflexivity.
    cbn [truthy negb must_stop].
    rewrite (lift_eval _ _ _ _ (isTokenExpired_given (c :: t) None (tab (set_tab w1 f)))).
    reflexivity. }
  unfold bind at 1. rewrite Hstop. clear Hstop.
  destruct (must_stop (items !! TOKEN_KEY) (clock_ms (tab f))); cbv iota.
  - unfold bind at 1.
    rewrite (lift_eval clearToken (set_tab w1 f) _ _
               (clearToken_area w1 full items Hwin)).
    reflexivity.
  - unfold bind at 1.
    unfold process_env_NEXT_PUBLIC_PY_API_URL, lift at 1, gets.
    cbn [tab set_tab].
    change (NEXT_PUBLIC_PY_API_URL w1) with (NEXT_PUBLIC_PY_API_URL (tab f)).
    destruct (negb (truthy (NEXT_PUBLIC_PY_API_URL (tab f)))); reflexivity.
Qed.

Lemma session_clear_eval (f : frame) (full : bool)
    (items : gmap (list N) (list N)) :
  window (tab f) = Some (Area full items) ->
  (lift clearToken ;; router_replace (lit "/login")) f
  = (Normal tt, session_cleared full items f).
Proof.
  intros Hwin. unfold bind.
  rewrite (lift_eval clearToken f _ _ (clearToken_area (tab f) full items Hwin)).
  reflexivity.
Qed.

Lemma on_settled_eval `{Platform} (s : settlement) (f : frame) (full : bool)
    (items : gmap (list N) (list N)) :
  window (tab f) = Some (Area full items) ->
  on_settled s f = (Normal tt, settled_frame full items s f).
Proof.
  intros Hwin. pose proof (session_clear_eval f full items Hwin) as Hclear.
  unfold on_settled, settled_frame, verified_profile.
  cbv beta iota delta [try_catch bind ret throw call res_json setMe setChecking
                       modify] in *.
  destruct s as [res|e]; [|exact Hclear].
  destruct (status res =? 401); [exact Hclear|].
  destruct (negb (ok res)); [exact Hclear|].
  destruct (JSON_parse (text res)) as [data|]; [reflexivity|exact Hclear].
Qed.

Lemma step_settle `{Platform} (s : settlement) (f : frame) (r : request)
    (full : bool) (items : gmap (list N) (list N)) :
  pending f = Some r ->
  window (tab f) = Some (Area full items) ->
  step (Settle s) f
  = (Normal tt, settled_frame full items s (set_request None f)).
Proof.
  intros Hp Hwin. unfold step, bind at 1, gets. rewrite Hp.
  unfold bind at 1, set_pending, modify, unhandled, try_catch.
  fold (set_request None f).
  rewrite (on_settled_eval s (set_request None f) full items Hwin). reflexivity.
Qed.

Lemma step_unmount `{Platform} (f : frame) (r : request)
    (full : bool) (items : gmap (list N) (list N)) :
  pending f = Some r ->
  window (tab f) = Some (Area full items) ->
  step Unmount f
  = (Normal tt,
     session_cleared full items
       (set_request None (set_tab (record_event AbortSignalled (tab f)) f))).
Proof.
  intros Hp Hwin. unfold step, bind at 1, gets. rewrite Hp.
  unfold bind at 1, lift at 1, modify. cbv iota beta.
  unfold bind at 1, set_pending, modify, unhandled, try_catch.
  set (f1 := set_tab (record_event AbortSignalled (tab f)) f).
  fold (set_request None f1).
  rewrite (on_settled_eval _ (set_request None f1) full items Hwin). reflexivity.
Qed.

Lemma must_stop_spec `{Platform} (token : jsstring) (w : world) (b : bool) :
  fst (isTokenExpired (Given token) None w) = Normal b ->
  must_stop (Some token) (clock_ms w) = b.
Proof.
  rewrite isTokenExpired_given. cbn [fst]. intros E. injection E as <-.
  destruct token; reflexivity.
Qed.

Lemma fetches_app (tr1 tr2 : list event) :
  fetches (tr1 ++ tr2) = fetches tr1 ++ fetches tr2.
Proof. apply flat_map_app. Qed.

Lemma run_mount `{Platform} (f : frame) :
  run [Mount] f = match effect f with
                  | (Normal _, f') => (Normal tt, f')
                  | (Throw e, f') => (Throw e, f')
                  end.
Proof.
  cbv beta iota delta [run step bind ret].
  destruct (effect f) as [[b|e] f']; reflexivity.
Qed.

Lemma run_mount_then `{Platform} (i : input) (f : frame) :
  run [Mount; i] f = match effect f with
                     | (Normal _, f') => step i f'
                     | (Throw e, f') => (Throw e, f')
                     end.
Proof.
  cbv beta iota delta [run bind ret]. unfold step at 1.
  cbv beta iota delta [bind ret].
  destruct (effect f) as [[b|e] f']; [|reflexivity].
  destruct (step i f') as [[[]|e] f'']; reflexivity.
Qed.

(** ** Only mounting sends a request *)

Lemma clearToken_sent (w : world) :
  fetches (trace (snd (clearToken w))) = fetches (trace w).
Proof.
  destruct w as [[[|full items]|] env clk tr];
    cbv beta iota delta [clearToken bind typeof_window_undefined gets
                         localStorage_removeItem window trace record_event
                         with_items snd ret];
    rewrite ?fetches_app; cbn [fetches flat_map]; rewrite ?app_nil_r; reflexivity.
Qed.

Lemma session_clear_sent (f : frame) :
  sent (snd ((lift clearToken ;; router_replace (lit "/login")) f)) = sent f.
Proof.
  unfold sent, bind, lift at 1.
  pose proof (clearToken_sent (tab f)) as Hc.
  destruct (clearToken (tab f)) as [[[]|e] w']; cbn in *.
  - rewrite fetches_app, Hc. cbn. apply app_nil_r.
  - exact Hc.
Qed.

Lemma unhandled_sent (m : M frame unit) (f : frame) :
  sent (snd (m f)) = sent f -> sent (snd (unhandled m f)) = sent f.
Proof.
  unfold unhandled, try_catch, sent. intros Hm.
  destruct (m f) as [[[]|e] f']; cbn in *; [exact Hm|].
  rewrite fetches_app, Hm. cbn. apply app_nil_r.
Qed.

Lemma on_settled_sent `{Platform} (s : settlement) (f : frame) :
  sent (snd (on_settled s f)) = sent f.
Proof.
  pose proof (session_clear_sent f) as Hclear.
  unfold on_settled.
  cbv beta iota delta [try_catch bind ret throw call res_json setMe setChecking
                       modify] in *.
  destruct s as [res|e]; [|exact Hclear].
  destruct (status res =? 401); [exact Hclear|].
  destruct (negb (ok res)); [exact Hclear|].
  destruct (JSON_parse (text res)) as [data|]; [reflexivity|exact Hclear].
Qed.

Lemma step_sent `{Platform} (i : input) (f : frame) :
  i <> Mount -> sent (snd (step i f)) = sent f.
Proof.
  intros Hi. destruct i as [|s| |]; [contradiction| | |].
  - unfold step, bind at 1, gets. destruct (pending f) as [r|]; [|reflexivity].
    unfold bind at 1, set_pending, modify.
    apply (unhandled_sent _ (set_request None f)), on_settled_sent.
  - unfold step, bind at 1, gets. destruct (pending f) as [r|]; [|reflexivity].
    unfold bind at 1, lift at 1, modify. cbv iota beta.
    unfold bind at 1, set_pending, modify.
    set (f1 := set_tab (record_event AbortSignalled (tab f)) f).
    rewrite (unhandled_sent _ (set_request None f1)) by apply on_settled_sent.
    unfold sent. cbn. rewrite fetches_app. cbn. apply app_nil_r.
  - apply session_clear_sent.
Qed.

Lemma run_sent `{Platform} (l : list input) (f : frame) :
  Forall (fun i => i <> Mount) l -> sent (snd (run l f)) = sent f.
Proof.
  intros Hl. revert f. induction Hl as [|i l Hi _ IH]; intros f; [reflexivity|].
  cbn [run]. unfold bind.
  pose proof (step_sent i f Hi) as Hs.
  destruct (step i f) as [[[]|e] f']; cbn [snd] in *; [|exact Hs].
  rewrite IH. exact Hs.
Qed.

Lemma run_cons `{Platform} (i : input) (l : list input) (f : frame) (f' : frame) :
  step i f = (Normal tt, f') -> run (i :: l) f = run l f'.
Proof. intros E. cbn [run]. unfold bind. rewrite E. reflexivity. Qed.

Lemma run_one `{Platform} (i : input) (f : frame) : run [i] f = step i f.
Proof.
  cbn [run]. unfold bind, ret. destruct (step i f) as [[[]|e] f']; reflexivity.
Qed.

Lemma run_after_mount `{Platform} (l : list input) (f0 f : frame) :
  run [Mount] f0 = (Normal tt, f) ->
  Forall (fun i => i <> Mount) l ->
  sent (snd (run (Mount :: l) f0)) = sent f.
Proof.
  intros Hrun Hl. rewrite run_one in Hrun.
  rewrite (run_cons Mount l f0 f Hrun). apply run_sent, Hl.
Qed.

Lemma run_cons_throw `{Platform} (i : input) (l : list input) (f f' : frame)
    (e : exn) :
  step i f = (Throw e, f') -> run (i :: l) f = (Throw e, f').
Proof. intros E. cbn [run]. unfold bind. rewrite E. reflexivity. Qed.

Lemma effect_blocked `{Platform} (f : frame) :
  pathname f <> lit "/login" ->
  window (tab f) = Some Blocked ->
  effect f
  = (Throw (DOMException (lit "SecurityError")),
     set_tab (record_event (StorageRemove TOKEN_KEY)
                (record_event (StorageGet TOKEN_KEY) (tab f))) f).
Proof.
  intros Hpath Hwin. destruct f as [[win env clk tr] pth chk m pend].
  cbn [tab window pathname] in Hpath, Hwin. subst win.
  unfold effect. unfold bind at 1. unfold gets at 1. cbn [pathname].
  rewrite bool_decide_eq_false_2 by exact Hpath. reflexivity.
Qed.

Lemma effect_no_window `{Platform} (f : frame) :
  pathname f <> lit "/login" ->
  window (tab f) = None ->
  effect f
  = (Normal false,
     set_tab (record_event (RouterReplace (lit "/login")) (tab f)) f).
Proof.
  intros Hpath Hwin. destruct f as [[win env clk tr] pth chk m pend].
  cbn [tab window pathname] in Hpath, Hwin. subst win.
  unfold effect. unfold bind at 1. unfold gets at 1. cbn [pathname].
  rewrite bool_decide_eq_false_2 by exact Hpath. reflexivity.
Qed.

(** C6, as the code has it: on a protected page whose stored credential is
    absent or locally expired the instance sends no request, then or later.
    With a storage that works, mounting clears the store and redirects to
    /login at once; so it does, without a store to clear, where there is no
    window.  With a storage whose access throws, [getToken] finds no
    credential, [clearToken] throws out of the effect, and the redirect to
    /login is never issued. *)
Theorem C6_absent_or_expired_redirects `{Platform} (w : world) (path : jsstring) :
  path <> lit "/login" ->
  (fst (getToken w) = Normal None \/
   exists token, fst (getToken w) = Normal (Some token) /\
                 fst (isTokenExpired (Given token) None w) = Normal true) ->
  (forall l, Forall (fun i => i <> Mount) l ->
     sent (snd (run (Mount :: l) (initial_frame w path))) = fetches (trace w)) /\
  (forall full items, window w = Some (Area full items) ->
     exists f,
       run [Mount] (initial_frame w path) = (Normal tt, f) /\
       window (tab f) = Some (Area full (delete TOKEN_KEY items)) /\
       stored (tab f) = None /\
       trace (tab f)
       = trace w ++ [StorageGet TOKEN_KEY; StorageRemove TOKEN_KEY;
                     RouterReplace (lit "/login")] /\
       pending f = None) /\
  (window w = Some Blocked ->
     exists f,
       run [Mount] (initial_frame w path)
       = (Throw (DOMException (lit "SecurityError")), f) /\
       window (tab f) = Some Blocked /\
       trace (tab f)
       = trace w ++ [StorageGet TOKEN_KEY; StorageRemove TOKEN_KEY] /\
       checking f = true /\
       pending f = None) /\
  (window w = None ->
     exists f,
       run [Mount] (initial_frame w path) = (Normal tt, f) /\
       trace (tab f) = trace w ++ [RouterReplace (lit "/login")] /\
       pending f = None).
Proof.
  intros Hpath Htok.
  assert (Hchk : checking (initial_frame w path) = true).
  { cbn. rewrite bool_decide_eq_false_2 by exact Hpath. reflexivity. }
  assert (Harea : forall full items, window w = Some (Area full items) ->
            exists f,
              run [Mount] (initial_frame w path) = (Normal tt, f) /\
              window (tab f) = Some (Area full (delete TOKEN_KEY items)) /\
              stored (tab f) = None /\
              trace (tab f)
              = trace w ++ [StorageGet TOKEN_KEY; StorageRemove TOKEN_KEY;
                            RouterReplace (lit "/login")] /\
              pending f = None).
  { intros full items Hwin.
    rewrite run_mount, (effect_protected _ full items) by assumption.
    unfold protected_effect.
    assert (Hstop : must_stop (items !! TOKEN_KEY)
                      (clock_ms (tab (initial_frame w path))) = true).
    { rewrite getToken_eval in Htok. cbn [fst] in Htok.
      unfold stored in Htok. rewrite Hwin in Htok.
      destruct Htok as [Hnone | (token & Hsome & Hexp)].
      - injection Hnone as ->. reflexivity.
      - injection Hsome as ->. apply (must_stop_spec token w), Hexp. }
    rewrite Hstop. eexists. split; [reflexivity|].
    cbn [tab set_tab initial_frame window trace record_event with_items pending].
    repeat split.
    - unfold stored. cbn [window]. apply lookup_delete_eq.
    - rewrite <- !app_assoc. reflexivity. }
  assert (Hblocked : window w = Some Blocked ->
            exists f,
              run [Mount] (initial_frame w path)
              = (Throw (DOMException (lit "SecurityError")), f) /\
              window (tab f) = Some Blocked /\
              trace (tab f)
              = trace w ++ [StorageGet TOKEN_KEY; StorageRemove TOKEN_KEY] /\
              checking f = true /\
              pending f = None).
  { intros Hwin. rewrite run_mount, effect_blocked by assumption.
    eexists. split; [reflexivity|].
    cbn [tab set_tab initial_frame window trace record_event pending checking].
    split; [exact Hwin|]. split; [rewrite <- app_assoc; reflexivity|].
    split; [exact Hchk|reflexivity]. }
  assert (Hnone : window w = None ->
            exists f,
              run [Mount] (initial_frame w path) = (Normal tt, f) /\
              trace (tab f) = trace w ++ [RouterReplace (lit "/login")] /\
              pending f = None).
  { intros Hwin. rewrite run_mount, effect_no_window by assumption.
    eexists. split; [reflexivity|]. split; reflexivity. }
  split; [|split; [exact Harea|split; [exact Hblocked|exact Hnone]]].
  intros l Hl. destruct (window w) as [[|full items]|] eqn:Hwin.
  - destruct (Hblocked eq_refl) as (f & Hrun & _ & Htr & _).
    rewrite run_one in Hrun. rewrite (run_cons_throw Mount l _ f _ Hrun).
    unfold sent. cbn [snd]. rewrite Htr, fetches_app. cbn. apply app_nil_r.
  - destruct (Harea full items eq_refl) as (f & Hrun & _ & _ & Htr & _).
    rewrite (run_after_mount l _ f Hrun Hl).
    unfold sent. rewrite Htr, fetches_app. cbn. apply app_nil_r.
  - destruct (Hnone eq_refl) as (f & Hrun & Htr & _).
    rewrite (run_after_mount l _ f Hrun Hl).
    unfold sent. rewrite Htr, fetches_app. cbn. apply app_nil_r.
Qed.

(** C5, as the code has it: with a stored credential that is not locally
    expired and a backend base URL that is configured, a protected page
    sends exactly one request in its lifetime, [GET base/api/auth/me] with
    the credential as bearer authorization, when it mounts.  A 401 or any
    other non-success status clears the store and redirects to /login; a
    success whose body parses gives the Authenticated state with the parsed
    body as profile. *)
Theorem C5_verification_round_trip `{Platform} (w : world) (path : jsstring)
    (full : bool) (items : gmap (list N) (list N)) (token base : jsstring) :
  path <> lit "/login" ->
  window w = Some (Area full items) ->
  items !! TOKEN_KEY = Some token ->
  fst (isTokenExpired (Given token) None w) = Normal false ->
  NEXT_PUBLIC_PY_API_URL w = Some base -> base <> [] ->
  let req := me_request base token in
  (exists f,
     run [Mount] (initial_frame w path) = (Normal tt, f) /\
     trace (tab f) = trace w ++ [StorageGet TOKEN_KEY; FetchSent req] /\
     pending f = Some req /\ checking f = true /\ window (tab f) = window w) /\
  (forall l, Forall (fun i => i <> Mount) l ->
     sent (snd (run (Mount :: l) (initial_frame w path)))
     = fetches (trace w) ++ [req]) /\
  (forall res, status res = 401 \/ ok res = false ->
     exists f,
       run [Mount; Settle (Fulfilled res)] (initial_frame w path) = (Normal tt, f) /\
       window (tab f) = Some (Area full (delete TOKEN_KEY items)) /\
       trace (tab f)
       = trace w ++ [StorageGet TOKEN_KEY; FetchSent req;
                     StorageRemove TOKEN_KEY; RouterReplace (lit "/login")]) /\
  (forall res profile, ok res = true -> JSON_parse (text res) = Some profile ->
     exists f,
       run [Mount; Settle (Fulfilled res)] (initial_frame w path) = (Normal tt, f) /\
       me f = profile /\ checking f = false /\
       window (tab f) = window w /\
       trace (tab f) = trace w ++ [StorageGet TOKEN_KEY; FetchSent req]).
Proof.
  intros Hpath Hwin Htok Hexp Hbase Hne req.
  assert (Heff : effect (initial_frame w path)
                 = (Normal true,
                    set_request (Some req)
                      (set_checking true
                         (set_tab (record_event (FetchSent req)
                                     (record_event (StorageGet TOKEN_KEY) w))
                                  (initial_frame w path))))).
  { rewrite (effect_protected _ full items) by assumption.
    unfold protected_effect. cbn [tab initial_frame].
    rewrite Htok, (must_stop_spec token w false Hexp), Hbase.
    destruct base; [contradiction|reflexivity]. }
  split; [|split; [|split]].
  - rewrite run_mount, Heff. eexists. split; [reflexivity|].
    cbn. rewrite <- app_assoc. rewrite Hwin. repeat split.
  - intros l Hl. erewrite run_after_mount; [|rewrite run_mount, Heff; reflexivity|exact Hl].
    unfold sent. cbn. rewrite !fetches_app. cbn. rewrite app_nil_r. reflexivity.
  - intros res Hres. rewrite run_mount_then, Heff.
    erewrite step_settle; [|reflexivity|cbn; exact Hwin].
    unfold settled_frame, verified_profile.
    assert (E : (if status res =? 401 then None
                 else if negb (ok res) then None else JSON_parse (text res))
                = None).
    { destruct Hres as [-> | ->]; [reflexivity|].
      destruct (status res =? 401); reflexivity. }
    rewrite E. eexists. split; [reflexivity|].
    cbn. rewrite <- !app_assoc. split; reflexivity.
  - intros res profile Hok Hparse. rewrite run_mount_then, Heff.
    erewrite step_settle; [|reflexivity|cbn; exact Hwin].
    unfold settled_frame, verified_profile.
    assert (E : (status res =? 401) = false).
    { apply N.eqb_neq. intros E. unfold ok in Hok. rewrite E in Hok. discriminate. }
    rewrite E, Hok, Hparse. eexists. split; [reflexivity|].
    cbn. rewrite <- !app_assoc, Hwin. repeat split.
Qed.

(** C1, as the code has it: tearing the page down while the verification
    request is in flight aborts the request, and the rejection runs the
    [catch] handler, which clears the store and redirects to /login. *)
Theorem C1_teardown_clears_session `{Platform} (w : world) (path : jsstring)
    (full : bool) (items : gmap (list N) (list N)) (token base : jsstring) :
  path <> lit "/login" ->
  window w = Some (Area full items) ->
  items !! TOKEN_KEY = Some token ->
  fst (isTokenExpired (Given token) None w) = Normal false ->
  NEXT_PUBLIC_PY_API_URL w = Some base -> base <> [] ->
  exists f,
    run [Mount; Unmount] (initial_frame w path) = (Normal tt, f) /\
    window (tab f) = Some (Area full (delete TOKEN_KEY items)) /\
    stored (tab f) = None /\
    trace (tab f)
    = trace w ++ [StorageGet TOKEN_KEY; FetchSent (me_request base token);
                  AbortSignalled; StorageRemove TOKEN_KEY;
                  RouterReplace (lit "/login")].
Proof.
  intros Hpath Hwin Htok Hexp Hbase Hne.
  rewrite run_mount_then, (effect_protected _ full items) by assumption.
  unfold protected_effect. cbn [tab initial_frame].
  rewrite Htok, (must_stop_spec token w false Hexp), Hbase.
  destruct base as [|c base]; [contradiction|]. cbn [truthy negb].
  erewrite step_unmount; [|reflexivity|cbn; exact Hwin].
  eexists. split; [reflexivity|].
  cbn. rewrite <- !app_assoc. repeat split.
  unfold stored. cbn. apply lookup_delete_eq.
Qed.

(** ** The backend base URL *)

Lemma getBaseUrl_missing (w : world) :
  truthy (NEXT_PUBLIC_PY_API_URL w) = false ->
  getBaseUrl w = (Throw configuration_error, w).
Proof.
  intros E.
  unfold getBaseUrl, bind, process_env_NEXT_PUBLIC_PY_API_URL, gets.
  rewrite E. reflexivity.
Qed.

Ltac base_url_missing E :=
  cbv beta delta [getDeviceDetail getDeviceComponents getDeviceNotes
                  createDeviceNote updateDeviceNote deleteDeviceNote
                  getDeviceMaintenance createMaintenance updateMaintenance
                  deleteMaintenance];
  unfold bind at 1; rewrite (getBaseUrl_missing _ E); reflexivity.

(** C2, as the code has it: when the backend base URL is absent (or empty)
    every fetch wrapper throws the configuration error to its caller and
    sends nothing.  The session guard does not: it skips the verification
    request without throwing and stops showing the checking screen. *)
Theorem C2_missing_base_url `{Platform} (w : world) :
  truthy (NEXT_PUBLIC_PY_API_URL w) = false ->
  (forall (deviceId : jsstring) (noteId maintenanceId : N) (payload : json)
          (reply : settlement),
     getDeviceDetail deviceId reply w = (Throw configuration_error, w) /\
     getDeviceComponents deviceId reply w = (Throw configuration_error, w) /\
     getDeviceNotes deviceId reply w = (Throw configuration_error, w) /\
     createDeviceNote deviceId payload reply w = (Throw configuration_error, w) /\
     updateDeviceNote deviceId noteId payload reply w
     = (Throw configuration_error, w) /\
     deleteDeviceNote deviceId noteId reply w = (Throw configuration_error, w) /\
     getDeviceMaintenance deviceId reply w = (Throw configuration_error, w) /\
     createMaintenance payload reply w = (Throw configuration_error, w) /\
     updateMaintenance maintenanceId payload reply w
     = (Throw configuration_error, w) /\
     deleteMaintenance maintenanceId reply w = (Throw configuration_error, w)) /\
  (forall (path : jsstring) (full : bool) (items : gmap (list N) (list N))
          (token : jsstring),
     path <> lit "/login" ->
     window w = Some (Area full items) ->
     items !! TOKEN_KEY = Some token ->
     fst (isTokenExpired (Given token) None w) = Normal false ->
     exists f,
       run [Mount] (initial_frame w path) = (Normal tt, f) /\
       checking f = false /\ me f = JNull /\ pending f = None /\
       window (tab f) = window w /\
       trace (tab f) = trace w ++ [StorageGet TOKEN_KEY]).
Proof.
  intros E. split.
  - intros. repeat split; base_url_missing E.
  - intros path full items token Hpath Hwin Htok Hexp.
    rewrite run_mount, (effect_protected _ full items) by assumption.
    unfold protected_effect. cbn [tab initial_frame].
    rewrite Htok, (must_stop_spec token w false Hexp), E.
    eexists. split; [reflexivity|]. cbn. rewrite Hwin. repeat split.
Qed.

(** ** The token store under failing storage *)

(** C3, as the code has it: [getToken] never throws; it answers the stored
    credential, and null when there is no window or when storage fails.
    Without a window [setToken] and [clearToken] do nothing, and on a
    working storage they store and remove the credential.  But when reading
    [window.localStorage] throws, [setToken] and [clearToken] throw too, and
    [setToken] throws when the quota is exhausted. *)
Theorem C3_token_store_failures (w : world) (token : jsstring) :
  (exists r w', getToken w = (Normal r, w')) /\
  (window w = None ->
     getToken w = (Normal None, w) /\
     setToken token w = (Normal tt, w) /\
     clearToken w = (Normal tt, w)) /\
  (forall full items, window w = Some (Area full items) ->
     fst (getToken w) = Normal (items !! TOKEN_KEY) /\
     (exists w', clearToken w = (Normal tt, w') /\ stored w' = None) /\
     (full = false ->
      exists w', setToken token w = (Normal tt, w') /\ stored w' = Some token)) /\
  (window w = Some Blocked ->
     fst (getToken w) = Normal None /\
     fst (setToken token w) = Throw (DOMException (lit "SecurityError")) /\
     fst (clearToken w) = Throw (DOMException (lit "SecurityError"))) /\
  (forall items, window w = Some (Area true items) ->
     fst (setToken token w) = Throw (DOMException (lit "QuotaExceededError"))).
Proof.
  split; [|split; [|split; [|split]]].
  - rewrite getToken_eval. eauto.
  - intros E. rewrite getToken_eval.
    unfold stored, after_read, setToken, clearToken, bind,
      typeof_window_undefined, gets.
    rewrite !E. repeat split.
  - intros full items E. rewrite getToken_eval. split; [|split].
    + unfold stored. rewrite E. reflexivity.
    + rewrite (clearToken_area w full items E). eexists. split; [reflexivity|].
      unfold stored. cbn [window record_event with_items].
      apply lookup_delete_eq.
    + intros ->.
      unfold setToken, bind, typeof_window_undefined, gets, localStorage_setItem.
      rewrite !E. eexists. split; [reflexivity|].
      unfold stored. cbn [window record_event with_items].
      apply lookup_insert_eq.
  - intros E. rewrite getToken_eval.
    unfold stored, setToken, clearToken, bind, typeof_window_undefined, gets,
      localStorage_setItem, localStorage_removeItem.
    rewrite !E. repeat split.
  - intros items E.
    unfold setToken, bind, typeof_window_undefined, gets, localStorage_setItem.
    rewrite !E. reflexivity.
Qed.

(** ** More on the token store *)

Lemma setToken_area (w : world) (items : gmap (list N) (list N)) (t : jsstring) :
  window w = Some (Area false items) ->
  setToken t w
  = (Normal tt, record_event (StorageSet TOKEN_KEY t)
                  (with_items false (<[TOKEN_KEY := t]> items) w)).
Proof.
  intros E.
  unfold setToken, bind, typeof_window_undefined, gets, localStorage_setItem.
  rewrite !E. reflexivity.
Qed.

(** X1. Writing twice keeps the last credential, which is what [getToken] then
    reads, and no other key of the storage changes. *)
Theorem setToken_last_writer_wins (w : world) (items : gmap (list N) (list N))
    (a b : jsstring) :
  window w = Some (Area false items) ->
  exists w',
    (setToken a ;; setToken b ;; getToken) w = (Normal (Some b), w') /\
    window w' = Some (Area false (<[TOKEN_KEY := b]> items)).
Proof.
  intros E.
  unfold bind at 1. rewrite (setToken_area w items a E).
  unfold bind at 1. erewrite setToken_area by reflexivity.
  rewrite getToken_eval. eexists. split.
  - unfold stored. cbn [window record_event with_items].
    rewrite lookup_insert_eq. reflexivity.
  - unfold after_read. cbn [window record_event with_items].
    rewrite insert_insert_eq. reflexivity.
Qed.

(** X2. Clearing removes the credential and nothing else, clearing again changes
    nothing, and a store that was written and then cleared is the store of
    someone who never logged in. *)
Theorem clearToken_idempotent (w : world) (full : bool)
    (items : gmap (list N) (list N)) (a : jsstring) :
  window w = Some (Area full items) ->
  (exists w',
     (clearToken ;; clearToken ;; getToken) w = (Normal None, w') /\
     window w' = Some (Area full (delete TOKEN_KEY items))) /\
  (full = false -> items !! TOKEN_KEY = None ->
   exists w',
     (setToken a ;; clearToken ;; getToken) w = (Normal None, w') /\
     window w' = window w).
Proof.
  intros E. split.
  - unfold bind at 1. rewrite (clearToken_area w full items E).
    unfold bind at 1. erewrite clearToken_area by reflexivity.
    rewrite getToken_eval. eexists. split.
    + unfold stored. cbn [window record_event with_items].
      rewrite lookup_delete_eq. reflexivity.
    + unfold after_read. cbn [window record_event with_items].
      rewrite delete_delete_eq. reflexivity.
  - intros -> Hnone.
    unfold bind at 1. rewrite (setToken_area w items a E).
    unfold bind at 1. erewrite clearToken_area by reflexivity.
    rewrite getToken_eval. eexists. split.
    + unfold stored. cbn [window record_event with_items].
      rewrite lookup_delete_eq. reflexivity.
    + unfold after_read. cbn [window record_event with_items].
      rewrite delete_insert_eq, delete_id by exact Hnone.
      rewrite E. reflexivity.
Qed.

(** ** More on [base64UrlDecode] *)

Lemma replace_all_length (a b : N) (s : jsstring) :
  length (replace_all a b s) = length s.
Proof. apply length_map. Qed.

Lemma replace_all_twice (a b : N) (s : jsstring) :
  replace_all a b (replace_all b a s) = replace_all a b s.
Proof.
  unfold replace_all. rewrite map_map. apply map_ext. intros c.
  destruct (N.eqb_spec c b) as [->|Hb].
  - rewrite N.eqb_refl. destruct (N.eqb_spec b a); congruence.
  - reflexivity.
Qed.

Lemma replace_all_same (a b : N) (s : jsstring) :
  replace_all a b (replace_all a b s) = replace_all a b s.
Proof.
  unfold replace_all. rewrite map_map. apply map_ext. intros c.
  destruct (N.eqb_spec c a) as [->|Ha].
  - destruct (N.eqb_spec b a); reflexivity.
  - destruct (N.eqb_spec c a); [contradiction|reflexivity].
Qed.

Lemma replace_all_swap (a b c d : N) (s : jsstring) :
  a <> c -> a <> d -> b <> c ->
  replace_all a b (replace_all c d s) = replace_all c d (replace_all a b s).
Proof.
  intros Hac Had Hbc. unfold replace_all. rewrite !map_map. apply map_ext.
  intros x.
  destruct (N.eqb_spec x c) as [->|Hc].
  - destruct (N.eqb_spec d a); [congruence|].
    destruct (N.eqb_spec c a); [congruence|].
    rewrite N.eqb_refl. reflexivity.
  - destruct (N.eqb_spec x a) as [->|Ha].
    + destruct (N.eqb_spec b c); [congruence|reflexivity].
    + destruct (N.eqb_spec x c); [contradiction|reflexivity].
Qed.

Lemma normalized_replace (a b : N) (input : jsstring) :
  a <> 61 ->
  normalized (replace_all a b input)
  = replace_all 95 47 (replace_all 45 43
      (replace_all a b
         (if negb (length input mod 4 =? 0)%nat
          then input ++ repeat 61 (4 - length input mod 4) else input))).
Proof.
  intros Ha. unfold normalized. rewrite replace_all_length.
  change (ch "_") with 95. change (ch "/") with 47.
  change (ch "-") with 45. change (ch "+") with 43. change (ch "=") with 61.
  destruct (negb (length input mod 4 =? 0)%nat); [|reflexivity].
  rewrite (replace_all_app a b), (replace_all_equals a b) by exact Ha.
  reflexivity.
Qed.

Lemma normalized_unfold (input : jsstring) :
  normalized input
  = replace_all 95 47 (replace_all 45 43
      (if negb (length input mod 4 =? 0)%nat
       then input ++ repeat 61 (4 - length input mod 4) else input)).
Proof. reflexivity. Qed.

Lemma normalized_either_alphabet (input : jsstring) :
  normalized (replace_all 43 45 input) = normalized input /\
  normalized (replace_all 47 95 input) = normalized input /\
  normalized (replace_all 45 43 input) = normalized input /\
  normalized (replace_all 95 47 input) = normalized input.
Proof.
  rewrite !normalized_replace by discriminate. rewrite normalized_unfold.
  set (p := if negb (length input mod 4 =? 0)%nat
            then input ++ repeat 61 (4 - length input mod 4) else input).
  repeat split.
  - rewrite replace_all_twice. reflexivity.
  - rewrite (replace_all_swap 45 43 47 95), replace_all_twice by discriminate.
    reflexivity.
  - rewrite replace_all_same. reflexivity.
  - rewrite (replace_all_swap 45 43 95 47), replace_all_same by discriminate.
    reflexivity.
Qed.

(** X3. [base64UrlDecode] reads the standard and the URL-safe alphabet alike,
    also mixed: writing [+] for [-], [-] for [+], [/] for [_] or [_] for [/]
    anywhere in the input does not change the result. *)
Theorem base64UrlDecode_either_alphabet {S} (input : jsstring) (st : S) :
  base64UrlDecode (replace_all (ch "+") (ch "-") input) st
  = base64UrlDecode input st /\
  base64UrlDecode (replace_all (ch "/") (ch "_") input) st
  = base64UrlDecode input st /\
  base64UrlDecode (replace_all (ch "-") (ch "+") input) st
  = base64UrlDecode input st /\
  base64UrlDecode (replace_all (ch "_") (ch "/") input) st
  = base64UrlDecode input st.
Proof.
  rewrite !base64UrlDecode_eval. unfold decode_segment.
  change (ch "_") with 95. change (ch "/") with 47.
  change (ch "-") with 45. change (ch "+") with 43.
  destruct (normalized_either_alphabet input) as (-> & -> & -> & ->).
  repeat split.
Qed.

Lemma b64_chars_plain (sx : list N) :
  Forall (fun v => v < 64) sx ->
  replace_all 95 47 (replace_all 45 43 (map b64_char sx)) = map b64_char sx.
Proof.
  intros Hsx. rewrite <- (url_chars_back sx Hsx) at 2.
  rewrite (replace_all_swap 45 43 47 95), replace_all_twice by discriminate.
  rewrite replace_all_twice. reflexivity.
Qed.

Lemma normalized_base64 (bytes : list N) :
  Forall (fun b => b < 256) bytes ->
  normalized (base64_encode bytes) = base64_encode bytes.
Proof.
  intros Hb. rewrite normalized_unfold. unfold base64_encode.
  destruct (sextets_length bytes) as [_ Hlen].
  rewrite length_app, length_map, repeat_length, Hlen. cbn [Nat.eqb negb].
  rewrite (replace_all_app 45), (replace_all_app 95).
  rewrite !replace_all_equals by discriminate.
  rewrite b64_chars_plain by (apply sextets_lt, Hb). reflexivity.
Qed.

(** X4. The padding is optional: a text encoded as UTF-8 and then as standard
    base64, with its [=] padding, decodes to the text as well. *)
Theorem base64UrlDecode_padded {S} (s : jsstring) (st : S) :
  well_formed s = true ->
  base64UrlDecode (base64_encode (utf8_encode s)) st = (Normal s, st).
Proof.
  intros Hwf. rewrite base64UrlDecode_eval. f_equal. unfold decode_segment.
  pose proof (utf8_encode_lt s Hwf) as Hb.
  rewrite normalized_base64, atob_base64_encode by exact Hb.
  rewrite decodeURIComponent_utf8 by exact Hwf. reflexivity.
Qed.

Lemma b64_values_equals (s t : jsstring) : b64_values (s ++ 61 :: t) = None.
Proof.
  induction s as [|c s IH]; cbn [app b64_values].
  - reflexivity.
  - rewrite IH. destruct (b64_value c); reflexivity.
Qed.

Lemma filter_ws_app_equals (s : jsstring) (k : nat) :
  List.filter (fun c => negb (is_ascii_whitespace c)) (s ++ repeat 61 k)
  = List.filter (fun c => negb (is_ascii_whitespace c)) s ++ repeat 61 k.
Proof.
  rewrite List.filter_app. f_equal.
  induction k as [|k IH]; [reflexivity|]. cbn [repeat List.filter].
  change (negb (is_ascii_whitespace 61)) with true. cbv iota. rewrite IH.
  reflexivity.
Qed.

Lemma atob_three_equals (s : jsstring) : atob (s ++ [61; 61; 61]) = None.
Proof.
  unfold atob. change [61; 61; 61] with (repeat 61 3).
  rewrite (filter_ws_app_equals s 3).
  set (F := List.filter (fun c => negb (is_ascii_whitespace c)) s).
  cbn [repeat].
  destruct (length (F ++ [61; 61; 61]%N) mod 4 =? 0)%nat eqn:E0.
  - assert (Hs : strip_equals (F ++ [61; 61; 61]) = F ++ [61]).
    { unfold strip_equals. rewrite rev_app_distr. cbn [rev app].
      rewrite !N.eqb_refl. cbn [rev]. rewrite rev_involutive. reflexivity. }
    rewrite Hs.
    destruct (length (F ++ [61]%N) mod 4 =? 1)%nat; [reflexivity|].
    rewrite b64_values_equals. reflexivity.
  - destruct (length (F ++ [61; 61; 61]%N) mod 4 =? 1)%nat; [reflexivity|].
    rewrite b64_values_equals. reflexivity.
Qed.

(** X5. An input whose length leaves remainder 1 modulo 4 is no base64: it
    decodes to the empty string, and a credential with such a second
    segment has null claims. *)
Theorem base64UrlDecode_length_1_mod_4 `{Platform} (input : jsstring) :
  (length input mod 4 = 1)%nat ->
  (forall S (st : S), base64UrlDecode input st = (Normal [], st)) /\
  (forall t w, split (ch ".") t !! 1%nat = Some input ->
               getTokenPayload (Given t) w = (Normal JNull, w)).
Proof.
  intros Hlen.
  assert (Ha : atob (normalized input) = None).
  { rewrite normalized_unfold, Hlen. cbn [Nat.eqb negb Nat.sub repeat].
    rewrite (replace_all_app 45), (replace_all_app 95).
    apply atob_three_equals. }
  split.
  - intros S st. rewrite base64UrlDecode_eval. unfold decode_segment.
    rewrite Ha. reflexivity.
  - intros t w Hseg. rewrite getTokenPayload_given. f_equal. f_equal.
    destruct t as [|c t']; [reflexivity|].
    rewrite claims_of_nonempty by discriminate.
    destruct (split (ch ".") (c :: t')) as [|h [|seg parts]]; try discriminate.
    cbn in Hseg. injection Hseg as ->.
    unfold claims_of_segment, decode_segment. rewrite Ha. reflexivity.
Qed.

(** ** More on the expiry evaluator *)

Lemma isTokenExpired_claims_for `{Platform} (token : arg jsstring)
    (skew : option number) (w : world) :
  fst (isTokenExpired token skew w)
  = Normal (expired_of (claims_for token w) skew (clock_ms w)).
Proof.
  destruct token as [| |t].
  - rewrite (isTokenExpired_eval _ _ _ _ _ (getTokenPayload_stored Undefined w
                                              (or_intror eq_refl))).
    unfold after_read, claims_for. destruct (window w); reflexivity.
  - rewrite (isTokenExpired_eval _ _ _ _ _ (getTokenPayload_stored Null w
                                              (or_introl eq_refl))).
    unfold after_read, claims_for. destruct (window w); reflexivity.
  - rewrite isTokenExpired_given. reflexivity.
Qed.

Lemma expired_of_monotone (claims : json) (s s' : option number) (ms ms' : N) :
  ms <= ms' ->
  number_ge (default (Double 30%Q) s') (default (Double 30%Q) s) = true ->
  expired_of claims s ms = true -> expired_of claims s' ms' = true.
Proof.
  intros Hms Hs.
  destruct (optional_exp claims) as [x|] eqn:Ex;
    [|unfold expired_of; rewrite Ex; reflexivity].
  destruct x as [|b|e|str|l|fs];
    try (unfold expired_of; rewrite Ex; cbn; try destruct b; try destruct str;
         reflexivity).
  rewrite !(expired_of_number claims _ _ e Ex).
  destruct (Qeq_bool e 0); [reflexivity|]. cbn [orb]. intros Hexp.
  eapply number_ge_trans; [apply (now_mono ms ms' Hms)|].
  eapply number_ge_trans; [exact Hexp|].
  apply number_sub_antitone, Math_max_0_mono, Hs.
Qed.

(** X6. A credential that counts as expired stays expired: neither a later
    clock nor a larger skew tolerance makes it valid again.  The skews are
    compared as the language compares numbers, so neither is NaN. *)
Theorem isTokenExpired_stays_expired `{Platform} (token : arg jsstring)
    (skew skew' : option number) (w w' : world) :
  window w' = window w ->
  clock_ms w <= clock_ms w' ->
  number_ge (default (Double 30%Q) skew') (default (Double 30%Q) skew) = true ->
  fst (isTokenExpired token skew w) = Normal true ->
  fst (isTokenExpired token skew' w') = Normal true.
Proof.
  intros Hwin Hclock Hskew. rewrite !isTokenExpired_claims_for.
  assert (E : claims_for token w' = claims_for token w).
  { unfold claims_for, stored. rewrite Hwin. reflexivity. }
  rewrite E. intros Hexp. injection Hexp as Hexp.
  f_equal. apply (expired_of_monotone _ skew skew' (clock_ms w)); assumption.
Qed.

(** ** More on the session guard *)

Lemma clearToken_cleared (w : world) : clearToken w = cleared w.
Proof.
  unfold clearToken, cleared, bind, typeof_window_undefined, gets,
    localStorage_removeItem.
  destruct (window w) as [[|full items]|] eqn:E; rewrite ?E; reflexivity.
Qed.

Lemma clear_and_redirect_eval (f : frame) :
  (lift clearToken ;; router_replace (lit "/login")) f = clear_and_redirect f.
Proof.
  unfold bind, lift at 1, clear_and_redirect. rewrite clearToken_cleared.
  destruct (cleared (tab f)) as [[[]|e] w']; reflexivity.
Qed.

Lemma clear_redirect_stop_eval (f : frame) :
  (lift clearToken ;; router_replace (lit "/login") ;; ret false) f
  = match clear_and_redirect f with
    | (Normal _, f') => (Normal false, f')
    | (Throw e, f') => (Throw e, f')
    end.
Proof.
  unfold bind, lift at 1, clear_and_redirect. rewrite clearToken_cleared.
  destruct (cleared (tab f)) as [[[]|e] w']; reflexivity.
Qed.

Lemma after_read_fields (w : world) :
  window (after_read w) = window w /\
  clock_ms (after_read w) = clock_ms w /\
  NEXT_PUBLIC_PY_API_URL (after_read w) = NEXT_PUBLIC_PY_API_URL w /\
  stored (after_read w) = stored w.
Proof.
  unfold after_read, stored.
  destruct w as [[[|full items]|] env clk tr]; cbn; repeat split.
Qed.

Lemma stop_eval `{Platform} (f : frame) (token : option jsstring) :
  (if negb (truthy token) then ret true
   else lift (isTokenExpired match token with
                             | Some s => Given s
                             | None => Null
                             end None)) f
  = (Normal (must_stop token (clock_ms (tab f))), f).
Proof.
  destruct token as [[|c t]|]; try reflexivity.
  cbn [truthy negb must_stop].
  rewrite (lift_eval _ _ _ _ (isTokenExpired_given (c :: t) None (tab f))).
  destruct f; reflexivity.
Qed.

Lemma effect_guarded `{Platform} (f : frame) :
  pathname f <> lit "/login" -> effect f = guarded_effect f.
Proof.
  intros Hpath.
  destruct (after_read_fields (tab f)) as (Hw & Hc & He & Hs).
  unfold effect, guarded_effect. unfold bind at 1. unfold gets at 1.
  rewrite bool_decide_eq_false_2 by exact Hpath.
  unfold bind at 1. rewrite (lift_eval _ _ _ _ (getToken_eval (tab f))).
  unfold bind at 1. rewrite stop_eval. cbn [tab set_tab]. rewrite Hc.
  destruct (must_stop (stored (tab f)) (clock_ms (tab f))).
  - apply clear_redirect_stop_eval.
  - unfold bind at 1.
    unfold process_env_NEXT_PUBLIC_PY_API_URL, lift at 1, gets.
    cbn [tab set_tab]. rewrite He.
    destruct (negb (truthy (NEXT_PUBLIC_PY_API_URL (tab f)))); reflexivity.
Qed.

Lemma effect_login `{Platform} (f : frame) :
  pathname f = lit "/login" -> effect f = login_effect f.
Proof.
  intros Hpath.
  destruct (after_read_fields (tab f)) as (Hw & Hc & He & Hs).
  unfold effect, login_effect. unfold bind at 1. unfold gets at 1.
  rewrite bool_decide_eq_true_2 by exact Hpath.
  unfold bind at 1. rewrite (lift_eval _ _ _ _ (getToken_eval (tab f))).
  unfold bind at 1.
  assert (E : (if truthy (stored (tab f))
               then expired <- lift (isTokenExpired
                                       match stored (tab f) with
                                       | Some s => Given s
                                       | None => Null
                                       end None) ;;
                    (if negb expired then router_replace (lit "/") else ret tt)
               else ret tt) (set_tab (after_read (tab f)) f)
              = (Normal tt,
                 set_tab (if must_stop (stored (tab f)) (clock_ms (tab f))
                          then after_read (tab f)
                          else record_event (RouterReplace (lit "/"))
                                 (after_read (tab f))) f)).
  { destruct (stored (tab f)) as [[|c t]|]; try reflexivity.
    cbn [truthy must_stop]. unfold bind.
    rewrite (lift_eval _ _ _ _ (isTokenExpired_given (c :: t) None
                                  (tab (set_tab (after_read (tab f)) f)))).
    cbn [tab set_tab]. rewrite Hc.
    destruct (expired_of (claims_of (c :: t)) None (clock_ms (tab f)));
      reflexivity. }
  rewrite E. reflexivity.
Qed.

Lemma on_settled_any `{Platform} (s : settlement) (f : frame) :
  on_settled s f = settled_any s f.
Proof.
  pose proof (clear_and_redirect_eval f) as Hclear.
  unfold on_settled, settled_any, verified_profile.
  cbv beta iota delta [try_catch bind ret throw call res_json setMe setChecking
                       modify] in *.
  destruct s as [res|e]; [|exact Hclear].
  destruct (status res =? 401); [exact Hclear|].
  destruct (negb (ok res)); [exact Hclear|].
  destruct (JSON_parse (text res)) as [data|]; [reflexivity|exact Hclear].
Qed.

Lemma writes_app (tr1 tr2 : list event) :
  writes (tr1 ++ tr2) = writes tr1 ++ writes tr2.
Proof. apply flat_map_app. Qed.

Lemma tame_refl (w : world) : tame w w.
Proof. split; [reflexivity|left; reflexivity]. Qed.

Lemma tame_trans (w1 w2 w3 : world) : tame w1 w2 -> tame w2 w3 -> tame w1 w3.
Proof.
  intros [Hw1 Hs1] [Hw2 Hs2]. split; [congruence|].
  destruct Hs2 as [Hs2|Hs2]; [|right; exact Hs2].
  rewrite Hs2. exact Hs1.
Qed.

Lemma tame_record (ev : event) (w : world) :
  (forall k v, ev <> StorageSet k v) -> tame w (record_event ev w).
Proof.
  intros Hev. split; [|left; reflexivity].
  cbn [trace record_event]. rewrite writes_app.
  destruct ev; cbn; rewrite ?app_nil_r; try reflexivity.
  exfalso. eapply Hev. reflexivity.
Qed.

Lemma tame_after_read (w : world) : tame w (after_read w).
Proof.
  unfold after_read. destruct (window w); [|apply tame_refl].
  apply tame_record. discriminate.
Qed.

Lemma tame_cleared (w : world) : tame w (snd (cleared w)).
Proof.
  unfold cleared. destruct (window w) as [[|full items]|] eqn:E; cbn [snd].
  - apply tame_record. discriminate.
  - split.
    + cbn [trace record_event with_items]. rewrite writes_app. cbn.
      apply app_nil_r.
    + right. unfold stored. cbn [window record_event with_items].
      apply lookup_delete_eq.
  - apply tame_refl.
Qed.

Lemma clear_and_redirect_spec (f : frame) :
  same_component f (snd (clear_and_redirect f)) /\
  tame (tab f) (tab (snd (clear_and_redirect f))).
Proof.
  unfold clear_and_redirect. pose proof (tame_cleared (tab f)) as Ht.
  destruct (cleared (tab f)) as [[[]|e] w']; cbn [snd] in *.
  - split; [unfold same_component; repeat split|].
    cbn [tab set_tab]. eapply tame_trans; [exact Ht|].
    apply tame_record. discriminate.
  - split; [unfold same_component; repeat split|exact Ht].
Qed.

Lemma settled_any_spec `{Platform} (s : settlement) (f : frame) :
  pathname (snd (settled_any s f)) = pathname f /\
  pending (snd (settled_any s f)) = pending f /\
  tame (tab f) (tab (snd (settled_any s f))) /\
  ((checking (snd (settled_any s f)) = checking f /\
    me (snd (settled_any s f)) = me f) \/
   (exists res, s = Fulfilled res /\ ok res = true /\
                JSON_parse (text res) = Some (me (snd (settled_any s f))) /\
                checking (snd (settled_any s f)) = false)).
Proof.
  unfold settled_any.
  destruct (verified_profile s) as [data|] eqn:E.
  - cbn [snd].
    split; [reflexivity|]. split; [reflexivity|]. split; [apply tame_refl|].
    right. unfold verified_profile in E. destruct s as [res|e]; [|discriminate].
    exists res. destruct (status res =? 401); [discriminate|].
    destruct (ok res); [|discriminate]. cbn [negb] in E.
    split; [reflexivity|]. split; [reflexivity|]. split; [exact E|reflexivity].
  - destruct (clear_and_redirect_spec f) as ((Hp & Hc & Hm & Hq) & Ht).
    split; [exact Hp|]. split; [exact Hq|]. split; [exact Ht|].
    left. split; assumption.
Qed.

Lemma unhandled_chain `{Platform} (s : settlement) (f : frame) :
  unhandled (on_settled s) f = (Normal tt, chain_any s f).
Proof.
  unfold unhandled, try_catch, chain_any. rewrite on_settled_any.
  destruct (settled_any s f) as [[[]|e] f']; reflexivity.
Qed.

Lemma chain_any_spec `{Platform} (s : settlement) (f : frame) :
  pathname (chain_any s f) = pathname f /\
  pending (chain_any s f) = pending f /\
  tame (tab f) (tab (chain_any s f)) /\
  ((checking (chain_any s f) = checking f /\ me (chain_any s f) = me f) \/
   (exists res, s = Fulfilled res /\ ok res = true /\
                JSON_parse (text res) = Some (me (chain_any s f)) /\
                checking (chain_any s f) = false)).
Proof.
  pose proof (settled_any_spec s f) as (Hp & Hq & Ht & Hc).
  unfold chain_any. destruct (settled_any s f) as [[[]|e] f']; cbn [snd] in *.
  - split; [exact Hp|]. split; [exact Hq|]. split; [exact Ht|exact Hc].
  - split; [exact Hp|]. split; [exact Hq|]. split; [|exact Hc].
    cbn [tab set_tab]. eapply tame_trans; [exact Ht|].
    apply tame_record. discriminate.
Qed.

Lemma step_after_input `{Platform} (i : input) (f : frame) :
  step i f = after_input i f.
Proof.
  destruct i as [|s| |]; [reflexivity| | |].
  - unfold step, after_input, bind at 1, gets.
    destruct (pending f) as [r|]; [|reflexivity].
    unfold bind at 1, set_pending, modify. apply unhandled_chain.
  - unfold step, after_input, bind at 1, gets.
    destruct (pending f) as [r|]; [|reflexivity].
    unfold bind at 1, lift at 1, modify. cbv iota beta.
    unfold bind at 1, set_pending, modify. apply unhandled_chain.
  - apply clear_and_redirect_eval.
Qed.

Lemma after_input_spec `{Platform} (i : input) (f : frame) :
  i <> Mount ->
  pathname (snd (after_input i f)) = pathname f /\
  tame (tab f) (tab (snd (after_input i f))) /\
  (pending (snd (after_input i f)) = pending f \/
   pending (snd (after_input i f)) = None) /\
  ((checking (snd (after_input i f)) = checking f /\
    me (snd (after_input i f)) = me f) \/
   (exists res, i = Settle (Fulfilled res) /\ ok res = true /\
                JSON_parse (text res) = Some (me (snd (after_input i f))) /\
                checking (snd (after_input i f)) = false)).
Proof.
  intros Hi. destruct i as [|s| |]; [contradiction| | |]; cbn [after_input].
  - destruct (pending f) as [r|] eqn:Ep; cbn [snd].
    + pose proof (chain_any_spec s (set_request None f)) as (Hp & Hq & Ht & Hc).
      split; [exact Hp|]. split; [exact Ht|]. split; [right; exact Hq|].
      destruct Hc as [Hc|(res & -> & Hok & Hparse & Hch)]; [left; exact Hc|].
      right. exists res. repeat split; assumption.
    + split; [reflexivity|]. split; [apply tame_refl|].
      split; [left; exact Ep|]. left. split; reflexivity.
  - destruct (pending f) as [r|] eqn:Ep; cbn [snd].
    + set (f1 := set_request None
                   (set_tab (record_event AbortSignalled (tab f)) f)).
      pose proof (chain_any_spec (Rejected (DOMException (lit "AbortError"))) f1)
        as (Hp & Hq & Ht & Hc).
      split; [exact Hp|]. split.
      { eapply tame_trans; [|exact Ht]. apply tame_record. discriminate. }
      split; [right; exact Hq|].
      destruct Hc as [Hc|(res & Hs & _)]; [left; exact Hc|discriminate Hs].
    + split; [reflexivity|]. split; [apply tame_refl|].
      split; [left; exact Ep|]. left. split; reflexivity.
  - destruct (clear_and_redirect_spec f) as ((Hp & Hc & Hm & Hq) & Ht).
    split; [exact Hp|]. split; [exact Ht|]. split; [left; exact Hq|].
    left. split; assumption.
Qed.

Lemma effect_spec `{Platform} (f : frame) :
  pathname (snd (effect f)) = pathname f /\
  tame (tab f) (tab (snd (effect f))).
Proof.
  destruct (decide (pathname f = lit "/login")) as [Hl|Hl].
  - rewrite (effect_login f Hl). unfold login_effect. cbn [snd].
    split; [reflexivity|]. cbn [tab set_tab set_checking].
    destruct (must_stop (stored (tab f)) (clock_ms (tab f)));
      [apply tame_after_read|].
    eapply tame_trans; [apply tame_after_read|]. apply tame_record. discriminate.
  - rewrite (effect_guarded f Hl). unfold guarded_effect.
    destruct (must_stop (stored (tab f)) (clock_ms (tab f))).
    + destruct (clear_and_redirect_spec (set_tab (after_read (tab f)) f))
        as ((Hp & _) & Ht).
      destruct (clear_and_redirect (set_tab (after_read (tab f)) f))
        as [[[]|e] f']; cbn [snd] in *;
        (split; [exact Hp|]); (eapply tame_trans; [apply tame_after_read|exact Ht]).
    + destruct (negb (truthy (NEXT_PUBLIC_PY_API_URL (tab f)))); cbn [snd].
      * split; [reflexivity|]. apply tame_after_read.
      * split; [reflexivity|]. cbn [tab set_tab set_checking set_request].
        eapply tame_trans; [apply tame_after_read|]. apply tame_record.
        discriminate.
Qed.

Lemma step_spec `{Platform} (i : input) (f : frame) :
  pathname (snd (step i f)) = pathname f /\
  tame (tab f) (tab (snd (step i f))).
Proof.
  assert (Hi : i = Mount \/ i <> Mount)
    by (destruct i; [left; reflexivity|right; discriminate ..]).
  destruct Hi as [->|Hi].
  - pose proof (effect_spec f) as [Hp Ht].
    unfold step, bind. destruct (effect f) as [[b|e] f']; exact (conj Hp Ht).
  - rewrite step_after_input.
    pose proof (after_input_spec i f Hi) as (Hp & Ht & _). exact (conj Hp Ht).
Qed.

Lemma run_step `{Platform} (i : input) (l : list input) (f : frame) :
  run (i :: l) f = match step i f with
                   | (Normal _, f') => run l f'
                   | (Throw e, f') => (Throw e, f')
                   end.
Proof. reflexivity. Qed.

Lemma run_app `{Platform} (l1 l2 : list input) (f : frame) :
  run (l1 ++ l2) f = match run l1 f with
                     | (Normal _, f') => run l2 f'
                     | (Throw e, f') => (Throw e, f')
                     end.
Proof.
  revert f. induction l1 as [|i l1 IH]; intros f; [reflexivity|].
  cbn [app]. rewrite !run_step.
  destruct (step i f) as [[[]|e] f']; [apply IH|reflexivity].
Qed.

(** X7. The session guard never stores a credential: whatever happens to a page
    instance, no [setItem] is issued, and the store afterwards holds the
    credential it held before or none. *)
Theorem guard_never_writes_credential `{Platform} (l : list input) (f : frame) :
  writes (trace (tab (snd (run l f)))) = writes (trace (tab f)) /\
  (stored (tab (snd (run l f))) = stored (tab f) \/
   stored (tab (snd (run l f))) = None).
Proof.
  change (tame (tab f) (tab (snd (run l f)))).
  revert f. induction l as [|i l IH]; intros f; [apply tame_refl|].
  rewrite run_step. pose proof (step_spec i f) as [_ Ht].
  destruct (step i f) as [[[]|e] f']; cbn [snd] in *; [|exact Ht].
  eapply tame_trans; [exact Ht|apply IH].
Qed.

Lemma settle_without_pending `{Platform} (s : settlement) (f : frame) :
  pending f = None -> run [Settle s] f = (Normal tt, f).
Proof.
  intros Hp. rewrite run_step, step_after_input. cbn [after_input].
  rewrite Hp. reflexivity.
Qed.

Lemma pending_after_settle_or_unmount `{Platform} (i : input) (f : frame) :
  (i = Unmount \/ exists s, i = Settle s) ->
  pending (snd (step i f)) = None.
Proof.
  intros Hi. rewrite step_after_input.
  destruct Hi as [->|[s ->]]; cbn [after_input];
    destruct (pending f) as [r|] eqn:Ep; cbn [snd]; try exact Ep.
  - exact (proj1 (proj2 (chain_any_spec _ _))).
  - exact (proj1 (proj2 (chain_any_spec _ _))).
Qed.

(** X8. A result is used at most once and never after teardown: once the
    instance was unmounted, or once a result was taken, a result that arrives
    changes nothing. *)
Theorem stale_result_is_discarded `{Platform} (l : list input) (i : input)
    (s : settlement) (f : frame) :
  i = Unmount \/ (exists s', i = Settle s') ->
  run (l ++ [i; Settle s]) f = run (l ++ [i]) f.
Proof.
  intros Hi. rewrite !run_app.
  destruct (run l f) as [[[]|e] f1]; [|reflexivity].
  rewrite (run_step i [Settle s]), (run_step i []).
  pose proof (pending_after_settle_or_unmount i f1 Hi) as Hp.
  destruct (step i f1) as [[[]|e] f2]; cbn [snd] in Hp; [|reflexivity].
  apply settle_without_pending, Hp.
Qed.

Lemma fetches_record (ev : event) (w : world) :
  (forall r, ev <> FetchSent r) ->
  fetches (trace (record_event ev w)) = fetches (trace w).
Proof.
  intros Hev. unfold record_event. cbn [trace]. rewrite fetches_app.
  destruct ev; cbn; rewrite ?app_nil_r; try reflexivity.
  exfalso. eapply Hev. reflexivity.
Qed.

Lemma render_shell (f : frame) :
  render f = AppShell <-> pathname f <> lit "/login" /\ checking f = false.
Proof.
  unfold render.
  destruct (decide (pathname f = lit "/login")) as [E|E].
  - rewrite bool_decide_eq_true_2 by exact E. cbn.
    split; [discriminate|intros [Hn _]; contradiction].
  - rewrite bool_decide_eq_false_2 by exact E. cbn.
    destruct (checking f); split; try discriminate; try (intros [_ ?]; discriminate);
      auto.
Qed.

Lemma verified_later `{Platform} (l : list input) :
  Forall (fun i => i <> Mount) l ->
  forall f,
    checking (snd (run l f)) = false ->
    (checking f = false /\ me (snd (run l f)) = me f) \/
    (exists res, In (Settle (Fulfilled res)) l /\ ok res = true /\
                 JSON_parse (text res) = Some (me (snd (run l f)))).
Proof.
  induction 1 as [|i l Hi _ IH]; intros f Hch; [left; split; [exact Hch|reflexivity]|].
  rewrite run_step in *. rewrite step_after_input in *.
  pose proof (after_input_spec i f Hi) as (_ & _ & _ & Hc).
  destruct (after_input i f) as [[[]|e] f1]; cbn [snd] in *.
  - destruct (IH f1 Hch) as [[Hch1 Hme]|(res & Hin & Hok & Hp)].
    + destruct Hc as [[Hc Hm]|(res & -> & Hok & Hp & _)].
      * left. split; congruence.
      * right. exists res. split; [left; reflexivity|]. split; [exact Hok|].
        rewrite Hme. exact Hp.
    + right. exists res. split; [right; exact Hin|]. split; assumption.
  - destruct Hc as [[Hc Hm]|(res & -> & Hok & Hp & _)].
    + left. split; congruence.
    + right. exists res. split; [left; reflexivity|]. split; assumption.
Qed.

Lemma mount_checking `{Platform} (f : frame) :
  pathname f <> lit "/login" ->
  truthy (NEXT_PUBLIC_PY_API_URL (tab f)) = true ->
  checking (snd (step Mount f))
  = if must_stop (stored (tab f)) (clock_ms (tab f)) then checking f else true.
Proof.
  intros Hpath Hbase.
  assert (E : snd (step Mount f) = snd (effect f)).
  { unfold step, bind, ret. destruct (effect f) as [[b|e] f']; reflexivity. }
  rewrite E, (effect_guarded f Hpath). unfold guarded_effect.
  rewrite Hbase. cbn [negb].
  destruct (must_stop (stored (tab f)) (clock_ms (tab f))); [|reflexivity].
  pose proof (clear_and_redirect_spec (set_tab (after_read (tab f)) f))
    as ((_ & Hc & _) & _).
  destruct (clear_and_redirect (set_tab (after_read (tab f)) f))
    as [[[]|e] f']; cbn [snd] in *; rewrite Hc; reflexivity.
Qed.

Lemma must_stop_source `{Platform} (w : world) :
  must_stop (stored w) (clock_ms w) = true ->
  fst (getToken w) = Normal None \/
  exists token, fst (getToken w) = Normal (Some token) /\
                fst (isTokenExpired (Given token) None w) = Normal true.
Proof.
  intros Hstop. rewrite getToken_eval. cbn [fst].
  destruct (stored w) as [token|]; [right|left; reflexivity].
  exists token. split; [reflexivity|].
  rewrite isTokenExpired_given. cbn [fst]. f_equal.
  rewrite <- Hstop. symmetry.
  apply (must_stop_spec token w). rewrite isTokenExpired_given. reflexivity.
Qed.

(** X9. With a backend base URL configured, once the effect of an instance on a
    protected path has run, whatever state the instance was in, it shows
    the application shell only after a verification response with a success
    status and a body that parses was received, the profile being that
    body; or else it showed the shell before already ([checking] was
    [false], as for an instance that comes from /login) and its credential
    is absent or locally expired, so that the effect sends it to /login.
    An instance first rendered on the protected path starts with [checking]
    at [true], so for it only the first case is left. *)
Theorem protected_content_needs_verification `{Platform} (f : frame)
    (l : list input) :
  pathname f <> lit "/login" ->
  truthy (NEXT_PUBLIC_PY_API_URL (tab f)) = true ->
  Forall (fun i => i <> Mount) l ->
  render (snd (run (Mount :: l) f)) = AppShell ->
  (exists res,
     In (Settle (Fulfilled res)) l /\ ok res = true /\
     JSON_parse (text res) = Some (me (snd (run (Mount :: l) f)))) \/
  (checking f = false /\
   (fst (getToken (tab f)) = Normal None \/
    exists token, fst (getToken (tab f)) = Normal (Some token) /\
                  fst (isTokenExpired (Given token) None (tab f)) = Normal true)).
Proof.
  intros Hpath Hbase Hl Hshell.
  apply render_shell in Hshell. destruct Hshell as [_ Hch].
  rewrite run_step in *.
  pose proof (mount_checking f Hpath Hbase) as Hm.
  destruct (step Mount f) as [[[]|e] f1]; cbn [snd] in *.
  - destruct (verified_later l Hl f1 Hch) as [[Hch1 _]|Hres]; [|left; exact Hres].
    right. rewrite Hch1 in Hm.
    destruct (must_stop (stored (tab f)) (clock_ms (tab f))) eqn:Hstop;
      [|discriminate].
    split; [symmetry; exact Hm|apply must_stop_source, Hstop].
  - right. rewrite Hch in Hm.
    destruct (must_stop (stored (tab f)) (clock_ms (tab f))) eqn:Hstop;
      [|discriminate].
    split; [symmetry; exact Hm|apply must_stop_source, Hstop].
Qed.

(** X10. The login page never asks the backend and never touches the store:
    with a stored credential that is not locally expired it redirects to
    the home page, otherwise it shows the form; an expired credential stays
    where it is. *)
Theorem login_page_effect `{Platform} (w : world) :
  render (initial_frame w (lit "/login")) = LoginLayout /\
  exists f,
    run [Mount] (initial_frame w (lit "/login")) = (Normal tt, f) /\
    render f = LoginLayout /\
    window (tab f) = window w /\
    sent f = fetches (trace w) /\
    (forall token,
       stored w = Some token ->
       fst (isTokenExpired (Given token) None w) = Normal false ->
       trace (tab f) = trace (after_read w) ++ [RouterReplace (lit "/")]) /\
    (stored w = None \/
     (exists token, stored w = Some token /\
                    fst (isTokenExpired (Given token) None w) = Normal true) ->
     trace (tab f) = trace (after_read w)).
Proof.
  split; [reflexivity|].
  rewrite run_mount, (effect_login (initial_frame w (lit "/login")) eq_refl).
  unfold login_effect.
  eexists. split; [reflexivity|].
  cbn [tab initial_frame set_tab set_checking].
  destruct (after_read_fields w) as (Hw & _).
  split; [reflexivity|]. split.
  { destruct (must_stop (stored w) (clock_ms w)); cbn [window record_event];
      exact Hw. }
  split.
  { unfold sent. cbn [tab].
    assert (Hr : fetches (trace (after_read w)) = fetches (trace w)).
    { unfold after_read. destruct (window w); [|reflexivity].
      apply fetches_record. discriminate. }
    destruct (must_stop (stored w) (clock_ms w)); [exact Hr|].
    cbn [tab set_checking set_tab].
    rewrite fetches_record by discriminate. exact Hr. }
  split.
  - intros token Hst Hexp. rewrite Hst, (must_stop_spec token w false Hexp).
    reflexivity.
  - intros [Hst|(token & Hst & Hexp)]; rewrite Hst.
    + reflexivity.
    + rewrite (must_stop_spec token w true Hexp). reflexivity.
Qed.

(** X11. Logging out works in every state of the instance: the credential is
    removed and the redirect to /login is issued, while the React state and
    a verification request still in flight are left as they are. *)
Theorem logout_clears_session `{Platform} (f : frame) (full : bool)
    (items : gmap (list N) (list N)) :
  window (tab f) = Some (Area full items) ->
  exists f',
    step ClickLogout f = (Normal tt, f') /\
    stored (tab f') = None /\
    trace (tab f')
    = trace (tab f) ++ [StorageRemove TOKEN_KEY; RouterReplace (lit "/login")] /\
    checking f' = checking f /\ me f' = me f /\ pending f' = pending f.
Proof.
  intros Hwin. cbn [step]. unfold onLogout.
  rewrite (session_clear_eval f full items Hwin).
  eexists. split; [reflexivity|].
  unfold session_cleared. cbn [tab set_tab checking me pending].
  split.
  { unfold stored. cbn [window record_event with_items]. apply lookup_delete_eq. }
  split; [|repeat split].
  cbn [trace record_event with_items]. rewrite <- app_assoc. reflexivity.
Qed.

(** X12. A verification that fails in transit, whatever the reason of the
    rejection, and a success status whose body is no JSON end the session
    like an error status: the store is cleared and /login is next. *)
Theorem failed_verification_ends_session `{Platform} (s : settlement) (f : frame)
    (r : request) (full : bool) (items : gmap (list N) (list N)) :
  pending f = Some r ->
  window (tab f) = Some (Area full items) ->
  (exists e, s = Rejected e) \/
  (exists res, s = Fulfilled res /\ JSON_parse (text res) = None) ->
  exists f',
    step (Settle s) f = (Normal tt, f') /\
    stored (tab f') = None /\
    trace (tab f')
    = trace (tab f) ++ [StorageRemove TOKEN_KEY; RouterReplace (lit "/login")] /\
    checking f' = checking f /\ me f' = me f /\ pending f' = None.
Proof.
  intros Hp Hwin Hs. rewrite (step_settle s f r full items Hp Hwin).
  assert (E : verified_profile s = None).
  { destruct Hs as [[e ->]|(res & -> & Hparse)]; [reflexivity|].
    unfold verified_profile. rewrite Hparse.
    destruct (status res =? 401), (negb (ok res)); reflexivity. }
  unfold settled_frame. rewrite E. eexists. split; [reflexivity|].
  unfold session_cleared. cbn [tab set_tab set_request checking me pending].
  split.
  { unfold stored. cbn [window record_event with_items]. apply lookup_delete_eq. }
  split; [|repeat split].
  cbn [trace record_event with_items]. rewrite <- app_assoc. reflexivity.
Qed.

(** ** The fetch wrappers *)

Ltac wrapper_unfold :=
  cbv beta iota delta [perform getDeviceDetail getDeviceComponents getDeviceNotes
                       createDeviceNote updateDeviceNote deleteDeviceNote
                       getDeviceMaintenance createMaintenance updateMaintenance
                       deleteMaintenance getBaseUrl
                       process_env_NEXT_PUBLIC_PY_API_URL gets bind ret throw
                       call fetch modify res_json].

Lemma fetches_sent (r : request) (w : world) :
  fetches (trace (record_event (FetchSent r) w)) = fetches (trace w) ++ [r].
Proof. unfold record_event. cbn [trace]. rewrite fetches_app. reflexivity. Qed.

(** X13. No wrapper retries: a call sends one request when its URL can be built
    and none otherwise, whatever the reply. *)
Theorem wrappers_send_at_most_one_request `{Platform} (c : api_call)
    (reply : settlement) (w : world) :
  (reachable c w ->
   exists r, fetches (trace (snd (perform c reply w))) = fetches (trace w) ++ [r]) /\
  (~ reachable c w ->
   snd (perform c reply w) = w /\ exists e, fst (perform c reply w) = Throw e).
Proof.
  split.
  - intros [Hbase Henc].
    destruct c; wrapper_unfold; rewrite Hbase; cbn [negb];
      try (match goal with
           | |- context [encodeURIComponent ?d] =>
               specialize (Henc d eq_refl);
               destruct (encodeURIComponent d) as [enc|]; [|contradiction]
           end);
      destruct reply as [res|e]; cbn [snd];
      try (destruct (negb (ok res)); cbn [snd]);
      try (destruct (JSON_parse (text res)); cbn [snd]);
      eexists; apply fetches_sent.
  - intros Hn.
    destruct (truthy (NEXT_PUBLIC_PY_API_URL w)) eqn:Hbase.
    + assert (Hd : exists d, device_of c = Some d /\ encodeURIComponent d = None).
      { destruct (device_of c) as [d|] eqn:Ed.
        - destruct (encodeURIComponent d) eqn:Ee; [|eauto].
          exfalso. apply Hn. split; [exact Hbase|].
          intros d' Hd'. rewrite Ed in Hd'. injection Hd' as <-. congruence.
        - exfalso. apply Hn. split; [exact Hbase|].
          intros d' Hd'. rewrite Ed in Hd'. discriminate. }
      destruct Hd as (d & Hd & He).
      destruct c; try discriminate Hd; cbn in Hd; injection Hd as ->;
        wrapper_unfold; rewrite Hbase, He; cbn; eauto.
    + destruct c; wrapper_unfold; rewrite Hbase; cbn; eauto.
Qed.

Ltac wrapper_reach Hbase Henc :=
  wrapper_unfold; rewrite Hbase; cbn [negb];
  try (match goal with
       | |- context [encodeURIComponent ?d] =>
           specialize (Henc d eq_refl);
           destruct (encodeURIComponent d) as [enc|]; [|contradiction]
       end).

(** X14. A reply that is no success is an error for the caller: a rejected fetch
    is rethrown as it is, and a status outside 200-299 gives an [Error]
    whose message ends with the status; the body is not read. *)
Theorem wrappers_fail_on_error `{Platform} (c : api_call) (w : world) :
  reachable c w ->
  (forall e, fst (perform c (Rejected e) w) = Throw e) /\
  (forall res, ok res = false ->
     exists prefix,
       fst (perform c (Fulfilled res) w)
       = Throw (Error (prefix ++ toString10 (status res)))).
Proof.
  intros [Hbase Henc]. split.
  - intros e. destruct c; wrapper_reach Hbase Henc; reflexivity.
  - intros res Hok.
    destruct c; wrapper_reach Hbase Henc; rewrite Hok; cbn [negb fst];
      match goal with
      | |- exists _, Throw (Error (?a ++ ?b ++ ?c ++ toString10 _)) = _ =>
          exists (a ++ b ++ c); rewrite <- !app_assoc; reflexivity
      | |- exists _, Throw (Error (?a ++ ?b ++ toString10 _)) = _ =>
          exists (a ++ b); rewrite <- app_assoc; reflexivity
      | |- exists _, Throw (Error (?a ++ toString10 _)) = _ =>
          exists a; reflexivity
      end.
Qed.

(** X15. On a success status the wrappers that read resolve to the parsed body
    and reject with a [SyntaxError] when the body is no JSON, while the two
    wrappers that delete resolve without looking at the body. *)
Theorem wrappers_resolve_on_success `{Platform} (c : api_call) (res : response)
    (w : world) :
  reachable c w -> ok res = true ->
  fst (perform c (Fulfilled res) w)
  = if deletes c then Normal None
    else match JSON_parse (text res) with
         | Some v => Normal (Some v)
         | None => Throw SyntaxError
         end.
Proof.
  intros [Hbase Henc] Hok.
  destruct c; wrapper_reach Hbase Henc; rewrite Hok; cbn [negb fst deletes];
    try reflexivity; destruct (JSON_parse (text res)); reflexivity.
Qed.

(** ** The home page: runs of the effects *)

Lemma home_run_app l l' h : Home.run (l ++ l') h = Home.run l' (Home.run l h).
Proof. unfold Home.run. apply foldl_app. Qed.

Lemma home_run_cons e l h : Home.run (e :: l) h = Home.run l (Home.step e h).
Proof. reflexivity. Qed.

Lemma home_run_snoc e l h : Home.run (l ++ [e]) h = Home.step e (Home.run l h).
Proof. rewrite home_run_app. reflexivity. Qed.

Lemma awaited_spec id k r h c :
  Home.awaited id k r h = Some c ->
  Home.closures h !! id = Some c /\ Home.awaiting c = true /\ Home.kind c = k.
Proof.
  unfold Home.awaited. destruct (Home.closures h !! id) as [c'|]; [|discriminate].
  destruct (Home.awaiting c') eqn:Ea, (Home.kind c') eqn:Ek, k, r as [[|]|],
    (Home.tab (Home.captured c'));
    cbn; intros Heq; try discriminate; injection Heq as <-; auto.
Qed.

Lemma awaited_tab id k b h c :
  Home.awaited id k (Some b) h = Some c ->
  b = match Home.tab (Home.captured c) with Home.relatorio => true | _ => false end.
Proof.
  unfold Home.awaited. destruct (Home.closures h !! id) as [c'|]; [|discriminate].
  destruct (Home.awaiting c'), (Home.kind c'), k, b,
    (Home.tab (Home.captured c')) eqn:Et;
    cbn; intros Heq; try discriminate; injection Heq as <-; rewrite Et;
    reflexivity.
Qed.

Lemma lookup_set_awaiting (i j : nat) (l : list Home.closure) c :
  alter (Home.set_awaiting false) i l !! j = Some c ->
  exists c0, l !! j = Some c0 /\ Home.alive c = Home.alive c0
             /\ Home.kind c = Home.kind c0 /\ Home.captured c = Home.captured c0
             /\ (j <> i -> c = c0).
Proof.
  destruct (decide (j = i)) as [->|Hne].
  - rewrite list_lookup_alter_eq. destruct (l !! i) as [c0|]; cbn; [|discriminate].
    intros [= <-]. exists c0. repeat split; auto. congruence.
  - rewrite list_lookup_alter_ne by congruence. intros Hc. exists c. auto.
Qed.

Lemma lookup_set_alive (i j : nat) (l : list Home.closure) c :
  alter (Home.set_alive false) i l !! j = Some c ->
  (j = i /\ Home.alive c = false) \/ (j <> i /\ l !! j = Some c).
Proof.
  destruct (decide (j = i)) as [->|Hne].
  - rewrite list_lookup_alter_eq. destruct (l !! i) as [c0|]; cbn; [|discriminate].
    intros [= <-]. left. auto.
  - rewrite list_lookup_alter_ne by congruence. auto.
Qed.

Lemma cleanup_lookup o h j c :
  Home.closures (Home.cleanup o h) !! j = Some c -> Home.alive c = true ->
  o <> Some j /\ Home.closures h !! j = Some c.
Proof.
  intros Hc Ha. destruct o as [i|]; [|split; [discriminate|exact Hc]].
  cbn in Hc. destruct (lookup_set_alive _ _ _ _ Hc) as [[_ Hd]|[Hne Hc0]];
    [congruence|]. split; [congruence|exact Hc0].
Qed.

Lemma unmounted_all_dead h j c :
  one_live_run h ->
  Home.closures (Home.step Home.Unmounted h) !! j = Some c -> Home.alive c = false.
Proof.
  intros Hinv Hc. destruct (Home.alive c) eqn:Ea; [|reflexivity]. exfalso.
  cbn [Home.step] in Hc.
  destruct (cleanup_lookup _ _ _ _ Hc Ea) as [Hq Hc1].
  destruct (cleanup_lookup _ _ _ _ Hc1 Ea) as [Hm Hc0].
  pose proof (Hinv j c Hc0 Ea) as Hk. destruct (Home.kind c); congruence.
Qed.

Lemma one_live_run_settled h i f :
  one_live_run h -> one_live_run (Home.with_view f (Home.mark_settled i h)).
Proof.
  intros Hinv j c Hc Ha. cbn in Hc.
  destruct (lookup_set_awaiting _ _ _ _ Hc) as (c0 & Hc0 & Ea & Ek & _).
  rewrite Ek. cbn. apply Hinv; congruence.
Qed.

Lemma one_live_run_cleanup_query h :
  one_live_run h ->
  forall j c, Home.closures (Home.cleanup (Home.query_cleanup h) h) !! j = Some c ->
    Home.alive c = true ->
    Home.kind c = Home.MetricsEffect /\ Home.metrics_cleanup h = Some j.
Proof.
  intros Hinv j c Hc Ha.
  destruct (cleanup_lookup _ _ _ _ Hc Ha) as [Hq Hc0].
  pose proof (Hinv j c Hc0 Ha) as Hk.
  destruct (Home.kind c); [auto|congruence].
Qed.

Lemma cleanup_fields o h :
  Home.shown (Home.cleanup o h) = Home.shown h
  /\ Home.metrics_cleanup (Home.cleanup o h) = Home.metrics_cleanup h
  /\ Home.query_cleanup (Home.cleanup o h) = Home.query_cleanup h
  /\ Home.calls (Home.cleanup o h) = Home.calls h
  /\ length (Home.closures (Home.cleanup o h)) = length (Home.closures h).
Proof.
  destruct o; cbn; repeat split; auto. apply length_alter.
Qed.

Lemma start_query_fields qy h :
  Home.closures (Home.start_query qy h)
  = Home.closures h ++ [{| Home.kind := Home.QueryEffect; Home.alive := true;
                           Home.awaiting := true; Home.captured := qy |}]
  /\ Home.metrics_cleanup (Home.start_query qy h) = Home.metrics_cleanup h
  /\ Home.query_cleanup (Home.start_query qy h) = Some (length (Home.closures h)).
Proof. unfold Home.start_query. destruct (Home.tab qy); cbn; auto. Qed.

Lemma one_live_run_step e h :
  is_mount e = false -> one_live_run h -> one_live_run (Home.step e h).
Proof.
  intros He Hinv. destruct e as [qy|qy| |id o|id o|id o]; try discriminate.
  - cbn [Home.step].
    destruct (start_query_fields qy (Home.cleanup (Home.query_cleanup h) h))
      as (Ec & Em & Eq).
    destruct (cleanup_fields (Home.query_cleanup h) h) as (_ & Em' & _ & _ & El).
    intros j c Hc Ha. rewrite Ec in Hc. rewrite Em, Eq, Em'.
    apply lookup_app_Some in Hc as [Hc|[Hlen Hc]].
    + destruct (one_live_run_cleanup_query h Hinv j c Hc Ha) as [-> ?]. auto.
    + apply list_lookup_singleton_Some in Hc as [Hj <-]. cbn.
      f_equal. lia.
  - intros j c Hc Ha. rewrite (unmounted_all_dead h j c Hinv Hc) in Ha.
    discriminate.
  - cbn [Home.step]. destruct (Home.awaited id Home.MetricsEffect None h); auto.
    apply one_live_run_settled; auto.
  - cbn [Home.step].
    destruct (Home.awaited id Home.QueryEffect (Some true) h); auto.
    apply one_live_run_settled; auto.
  - cbn [Home.step].
    destruct (Home.awaited id Home.QueryEffect (Some false) h); auto.
    apply one_live_run_settled; auto.
Qed.

Lemma one_live_run_mounted qy :
  one_live_run (Home.step (Home.Mounted qy) Home.initial_home).
Proof.
  intros j c Hc Ha. cbn in Hc.
  destruct (start_query_fields qy (Home.start_metrics qy Home.initial_home))
    as (Ec & Em & Eq).
  cbn [Home.step]. rewrite Em, Eq. rewrite Ec in Hc. cbn in Hc |- *.
  destruct j as [|[|j]]; cbn in Hc; try discriminate;
    injection Hc as <-; cbn; reflexivity.
Qed.

Lemma one_live_run_run l h :
  Forall (fun e => is_mount e = false) l -> one_live_run h ->
  one_live_run (Home.run l h).
Proof.
  revert h. induction l as [|e l IH]; intros h Hl Hinv; [exact Hinv|].
  inversion Hl; subst. rewrite home_run_cons. apply IH; auto.
  apply one_live_run_step; auto.
Qed.

Lemma one_live_run_mount_run qy l :
  Forall (fun e => is_mount e = false) l ->
  one_live_run (Home.run (Home.Mounted qy :: l) Home.initial_home).
Proof.
  intros Hl. rewrite home_run_cons. apply one_live_run_run; auto.
  apply one_live_run_mounted.
Qed.

Lemma dead_settlement_ignored h :
  forall e, is_settlement e = true ->
    (forall id c, Home.closures h !! id = Some c ->
                  match e with
                  | Home.MetricsSettled i _ | Home.ReportSettled i _
                  | Home.DevicesSettled i _ => i = id
                  | _ => False
                  end -> Home.alive c = false) ->
    Home.shown (Home.step e h) = Home.shown h.
Proof.
  intros [qy|qy| |id o|id o|id o] He Hdead; try discriminate; cbn.
  - destruct (Home.awaited _ _ _ h) as [c|] eqn:Eaw; [|reflexivity].
    destruct (awaited_spec _ _ _ _ _ Eaw) as (Hc & _ & _).
    cbn. unfold Home.metrics_settled. rewrite (Hdead id c Hc eq_refl). reflexivity.
  - destruct (Home.awaited _ _ _ h) as [c|] eqn:Eaw; [|reflexivity].
    destruct (awaited_spec _ _ _ _ _ Eaw) as (Hc & _ & _).
    cbn. unfold Home.report_settled. rewrite (Hdead id c Hc eq_refl). reflexivity.
  - destruct (Home.awaited _ _ _ h) as [c|] eqn:Eaw; [|reflexivity].
    destruct (awaited_spec _ _ _ _ _ Eaw) as (Hc & _ & _).
    cbn. unfold Home.devices_settled. rewrite (Hdead id c Hc eq_refl). reflexivity.
Qed.

Lemma all_dead_unmounted h : one_live_run h -> all_dead (Home.step Home.Unmounted h).
Proof. intros Hinv j c Hc. eapply unmounted_all_dead; eauto. Qed.

Lemma all_dead_settlement e h :
  is_settlement e = true -> all_dead h ->
  all_dead (Home.step e h) /\ Home.shown (Home.step e h) = Home.shown h.
Proof.
  intros He Hd. split.
  - destruct e as [qy|qy| |id o|id o|id o]; try discriminate; cbn;
      (destruct (Home.awaited _ _ _ h) as [cw|]; [|exact Hd]);
      intros j c Hc; cbn in Hc;
      destruct (lookup_set_awaiting _ _ _ _ Hc) as (c0 & Hc0 & Ea & _);
      rewrite Ea; eapply Hd; eauto.
  - apply dead_settlement_ignored; auto. intros id c Hc _. eapply Hd; eauto.
Qed.

(** X16. Home: once a run of the second effect has been superseded (the
    dependencies changed, so React holds the clean-up of a later run), the
    answer to its request changes nothing on the screen, whether it resolves
    or rejects. *)
Theorem home_superseded_run_is_ignored qy l id :
  Forall (fun e => is_mount e = false) l ->
  Home.query_cleanup (Home.run (Home.Mounted qy :: l) Home.initial_home) <> Some id ->
  forall o o',
    Home.shown (Home.step (Home.DevicesSettled id o)
                  (Home.run (Home.Mounted qy :: l) Home.initial_home))
    = Home.shown (Home.run (Home.Mounted qy :: l) Home.initial_home)
    /\ Home.shown (Home.step (Home.ReportSettled id o')
                     (Home.run (Home.Mounted qy :: l) Home.initial_home))
       = Home.shown (Home.run (Home.Mounted qy :: l) Home.initial_home).
Proof.
  intros Hl Hid o o'.
  pose proof (one_live_run_mount_run qy l Hl) as Hinv.
  set (h := Home.run (Home.Mounted qy :: l) Home.initial_home) in *.
  assert (Hdead : forall c, Home.closures h !! id = Some c ->
                            Home.kind c = Home.QueryEffect -> Home.alive c = false).
  { intros c Hc Hk. destruct (Home.alive c) eqn:Ea; [|reflexivity].
    pose proof (Hinv id c Hc Ea) as Hlive. rewrite Hk in Hlive. contradiction. }
  split; cbn [Home.step].
  - destruct (Home.awaited id Home.QueryEffect (Some false) h) as [c|] eqn:Eaw;
      [|reflexivity].
    destruct (awaited_spec _ _ _ _ _ Eaw) as (Hc & _ & Hk).
    cbn. unfold Home.devices_settled. rewrite (Hdead c Hc Hk). reflexivity.
  - destruct (Home.awaited id Home.QueryEffect (Some true) h) as [c|] eqn:Eaw;
      [|reflexivity].
    destruct (awaited_spec _ _ _ _ _ Eaw) as (Hc & _ & Hk).
    cbn. unfold Home.report_settled. rewrite (Hdead c Hc Hk). reflexivity.
Qed.

(** X17. Home: after the component is unmounted, no answer that arrives later
    (metrics, report or devices, resolved or rejected) changes its state. *)
Theorem home_unmounted_ignores_answers qy l late :
  Forall (fun e => is_mount e = false) l ->
  Forall (fun e => is_settlement e = true) late ->
  Home.shown (Home.run (Home.Mounted qy :: l ++ Home.Unmounted :: late)
                Home.initial_home)
  = Home.shown (Home.run (Home.Mounted qy :: l) Home.initial_home).
Proof.
  intros Hl Hlate.
  change (Home.Mounted qy :: l ++ Home.Unmounted :: late)
    with ((Home.Mounted qy :: l) ++ Home.Unmounted :: late).
  rewrite home_run_app, home_run_cons.
  pose proof (one_live_run_mount_run qy l Hl) as Hinv.
  set (h := Home.run (Home.Mounted qy :: l) Home.initial_home) in *.
  pose proof (all_dead_unmounted h Hinv) as Hdead.
  assert (Hu : Home.shown (Home.step Home.Unmounted h) = Home.shown h).
  { cbn [Home.step].
    rewrite (proj1 (cleanup_fields (Home.query_cleanup h)
                      (Home.cleanup (Home.metrics_cleanup h) h))).
    exact (proj1 (cleanup_fields (Home.metrics_cleanup h) h)). }
  rewrite <- Hu. revert Hdead. generalize (Home.step Home.Unmounted h).
  clear -Hlate.
  induction Hlate as [|e late He _ IH]; intros h' Hdead; [reflexivity|].
  rewrite home_run_cons.
  destruct (all_dead_settlement e h' He Hdead) as [Hd' Hs'].
  rewrite IH by exact Hd'. exact Hs'.
Qed.

(** ** The home page: what is shown for the latest run *)

Lemma current_query_snoc qy l e :
  current_query qy (l ++ [e])
  = match e with Home.DepsChanged qy' => qy' | _ => current_query qy l end.
Proof. unfold current_query. rewrite foldl_app. reflexivity. Qed.

Lemma view_of_run_start qy h :
  view_of_run (Home.shown (Home.start_query qy h))
    {| Home.kind := Home.QueryEffect; Home.alive := true;
       Home.awaiting := true; Home.captured := qy |}.
Proof.
  unfold view_of_run, Home.start_query. cbn.
  destruct (Home.tab qy); cbn; repeat split; auto; discriminate.
Qed.

Lemma shows_latest_run_start qy h :
  shows_latest_run (Home.start_query qy h) qy.
Proof.
  destruct (start_query_fields qy h) as (Ec & _ & Eq).
  exists (length (Home.closures h)),
    {| Home.kind := Home.QueryEffect; Home.alive := true;
       Home.awaiting := true; Home.captured := qy |}.
  split; [|split; [reflexivity|apply view_of_run_start]].
  unfold latest_run. rewrite Ec, Eq. repeat split.
  rewrite lookup_app_r by lia. rewrite Nat.sub_diag. reflexivity.
Qed.

Lemma view_of_run_metrics v c c' o :
  view_of_run v c -> view_of_run (Home.metrics_settled c' o v) c.
Proof.
  unfold Home.metrics_settled. destruct (negb (Home.alive c')); [auto|].
  destruct o; exact id.
Qed.

Lemma mark_settled_other h id i c f :
  latest_run h id c -> i <> id ->
  latest_run (Home.with_view f (Home.mark_settled i h)) id c.
Proof.
  intros (Eq & Hc & Hk & Ha) Hne. unfold latest_run. cbn.
  rewrite list_lookup_alter_ne by congruence. auto.
Qed.

Lemma mark_settled_same h id c f :
  latest_run h id c ->
  latest_run (Home.with_view f (Home.mark_settled id h)) id
    (Home.set_awaiting false c).
Proof.
  intros (Eq & Hc & Hk & Ha). unfold latest_run. cbn.
  rewrite list_lookup_alter_eq, Hc. auto.
Qed.

Lemma view_of_run_report c o v :
  Home.alive c = true -> Home.tab (Home.captured c) = Home.relatorio ->
  view_of_run v c ->
  view_of_run (Home.report_settled c o v) (Home.set_awaiting false c).
Proof.
  intros Ha Et (Herr & Hv). rewrite Et in Hv. destruct Hv as (_ & Hd & He & _).
  unfold view_of_run, Home.report_settled. rewrite Ha. cbn. rewrite Et.
  destruct o as [r|message]; cbn; repeat split; auto; try discriminate.
Qed.

Lemma view_of_run_devices c o v :
  Home.alive c = true -> Home.tab (Home.captured c) <> Home.relatorio ->
  view_of_run v c ->
  view_of_run (Home.devices_settled c o v) (Home.set_awaiting false c).
Proof.
  intros Ha Et (Herr & Hv).
  unfold view_of_run, Home.devices_settled. rewrite Ha. cbn.
  destruct (Home.tab (Home.captured c)); try contradiction;
    destruct Hv as (_ & Hl & Hr & He & _);
    destruct o as [d|message]; cbn; repeat split; auto; discriminate.
Qed.

Lemma shows_latest_run_step e h qy :
  is_mount e = false -> is_unmount e = false ->
  one_live_run h -> shows_latest_run h qy ->
  shows_latest_run (Home.step e h)
    match e with Home.DepsChanged qy' => qy' | _ => qy end.
Proof.
  intros Hm Hu Hinv (id & c & Hrun & Hq & Hview).
  destruct e as [qy'|qy'| |i o|i o|i o]; try discriminate; cbn [Home.step].
  - apply shows_latest_run_start.
  - destruct (Home.awaited i Home.MetricsEffect None h) as [c'|] eqn:Eaw;
      [|exists id, c; auto].
    destruct (awaited_spec _ _ _ _ _ Eaw) as (Hc' & _ & Hk').
    assert (i <> id).
    { intros ->. destruct Hrun as (_ & Hc & Hk & _). congruence. }
    exists id, c. split; [apply mark_settled_other; auto|].
    split; [exact Hq|]. apply view_of_run_metrics. exact Hview.
  - destruct (Home.awaited i Home.QueryEffect (Some true) h) as [c'|] eqn:Eaw;
      [|exists id, c; auto].
    destruct (awaited_spec _ _ _ _ _ Eaw) as (Hc' & _ & Hk').
    pose proof (awaited_tab _ _ _ _ _ Eaw) as Ht.
    destruct (decide (i = id)) as [->|Hne].
    + assert (c' = c) as -> by (destruct Hrun as (_ & Hc & _); congruence).
      exists id, (Home.set_awaiting false c).
      split; [apply mark_settled_same; auto|]. split; [exact Hq|].
      cbn. apply view_of_run_report; auto.
      * apply Hrun.
      * destruct (Home.tab (Home.captured c)); congruence.
    + exists id, c. split; [apply mark_settled_other; auto|].
      split; [exact Hq|]. cbn. unfold Home.report_settled.
      destruct (Home.alive c') eqn:Ea'; [|exact Hview].
      exfalso. pose proof (Hinv i c' Hc' Ea') as Hlive. rewrite Hk' in Hlive.
      destruct Hrun as (Eq & _). congruence.
  - destruct (Home.awaited i Home.QueryEffect (Some false) h) as [c'|] eqn:Eaw;
      [|exists id, c; auto].
    destruct (awaited_spec _ _ _ _ _ Eaw) as (Hc' & _ & Hk').
    pose proof (awaited_tab _ _ _ _ _ Eaw) as Ht.
    destruct (decide (i = id)) as [->|Hne].
    + assert (c' = c) as -> by (destruct Hrun as (_ & Hc & _); congruence).
      exists id, (Home.set_awaiting false c).
      split; [apply mark_settled_same; auto|]. split; [exact Hq|].
      cbn. apply view_of_run_devices; auto.
      * apply Hrun.
      * destruct (Home.tab (Home.captured c)); congruence.
    + exists id, c. split; [apply mark_settled_other; auto|].
      split; [exact Hq|]. cbn. unfold Home.devices_settled.
      destruct (Home.alive c') eqn:Ea'; [|exact Hview].
      exfalso. pose proof (Hinv i c' Hc' Ea') as Hlive. rewrite Hk' in Hlive.
      destruct Hrun as (Eq & _). congruence.
Qed.

Lemma shows_latest_run_run qy l :
  Forall (fun e => is_mount e = false /\ is_unmount e = false) l ->
  one_live_run (Home.run (Home.Mounted qy :: l) Home.initial_home)
  /\ shows_latest_run (Home.run (Home.Mounted qy :: l) Home.initial_home)
       (current_query qy l).
Proof.
  induction l as [|e l IH] using rev_ind; intros Hl.
  - split; [apply one_live_run_mounted|]. apply shows_latest_run_start.
  - apply Forall_app in Hl as [Hl He]. inversion He as [|? ? [Hm Hu] _]; subst.
    destruct (IH Hl) as [Hinv Hshow].
    change (Home.Mounted qy :: l ++ [e]) with ((Home.Mounted qy :: l) ++ [e]).
    rewrite home_run_snoc, current_query_snoc. split.
    + apply one_live_run_step; auto.
    + apply shows_latest_run_step; auto.
Qed.

(** X18. Home: while the component is mounted, its state is that of the latest
    run of the second effect: the loading flag of the current tab is set
    exactly while that run's request is pending, no error is shown while it
    is pending, on a device tab the report, its error and its loading flag
    are cleared and data is present once the request has settled, and on the
    report tab the device data and error are cleared and a report or an
    error is present once the request has settled. *)
Theorem home_state_follows_latest_run qy l :
  Forall (fun e => is_mount e = false /\ is_unmount e = false) l ->
  exists id c,
    latest_run (Home.run (Home.Mounted qy :: l) Home.initial_home) id c
    /\ Home.captured c = current_query qy l
    /\ view_of_run (Home.shown (Home.run (Home.Mounted qy :: l) Home.initial_home)) c.
Proof. intros Hl. exact (proj2 (shows_latest_run_run qy l Hl)). Qed.

(** X19. Home: when the request of the latest run for a device tab fails, the
    page shows the error's message (or the default text), stops loading,
    and shows an empty first-to-last range: no rows, "0 - 0 de 0", one page,
    and a next link that leads to page 1. *)
Theorem home_failed_load_shows_empty_page qy l id message :
  Forall (fun e => is_mount e = false /\ is_unmount e = false) l ->
  Home.tab (current_query qy l) <> Home.relatorio ->
  Home.query_cleanup (Home.run (Home.Mounted qy :: l) Home.initial_home) = Some id ->
  Home.devicesLoading
    (Home.shown (Home.run (Home.Mounted qy :: l) Home.initial_home)) = true ->
  (1 <= Home.page (current_query qy l))%Q ->
  let v := Home.shown (Home.step (Home.DevicesSettled id (Home.RejectedWith message))
                         (Home.run (Home.Mounted qy :: l) Home.initial_home)) in
  Home.devicesLoading v = false
  /\ Home.devicesError v
     = Some (default (lit "Falha ao carregar dispositivos") message)
  /\ Home.devicesData v
     = Some {| Home.items := []; Home.d_page := Home.page (current_query qy l);
               Home.d_pageSize := Home.pageSize; Home.total := 0 |}
  /\ Home.from_row v = 0%Q /\ (Home.to_row v == 0)%Q /\ Home.pages v = 1%Q
  /\ (Home.next_page v (Home.page (current_query qy l)) == 1)%Q.
Proof.
  intros Hl Htab Hid Hload Hpage.
  destruct (shows_latest_run_run qy l Hl) as [Hinv (id' & c & Hrun & Hq & Hview)].
  set (h := Home.run (Home.Mounted qy :: l) Home.initial_home) in *.
  destruct Hrun as (Eq & Hc & Hk & Ha).
  assert (id' = id) as -> by congruence.
  rewrite <- Hq in *.
  assert (Haw : Home.awaiting c = true).
  { destruct Hview as [_ Hv].
    destruct (Home.tab (Home.captured c)); try contradiction;
      destruct Hv as (<- & _); exact Hload. }
  assert (Eaw : Home.awaited id Home.QueryEffect (Some false) h = Some c).
  { unfold Home.awaited. rewrite Hc, Haw, Hk.
    destruct (Home.tab (Home.captured c)); try contradiction; reflexivity. }
  cbn [Home.step]. rewrite Eaw. cbn. unfold Home.devices_settled. rewrite Ha.
  cbn. unfold Home.from_row, Home.to_row, Home.next_page, Home.pages. cbn.
  repeat split; auto.
  - apply Q.min_l. unfold Home.pageSize. nra.
  - change (Qmax 1 (inject_Z (Qceiling (0 / Home.pageSize)))) with 1%Q.
    apply Q.min_l. lra.
Qed.

(** ** The home page: requests and pagination *)

Lemma start_query_calls qy h :
  exists c, Home.calls (Home.start_query qy h) = Home.calls h ++ [c]
            /\ is_metrics_call c = false /\ device_request_ok c.
Proof.
  unfold Home.start_query.
  destruct (Home.tab qy) eqn:Et; cbn; eexists; (split; [reflexivity|]);
    cbn; rewrite ?Et; repeat split; auto; discriminate.
Qed.

Lemma step_calls e h :
  is_mount e = false ->
  if is_deps_change e
  then exists c, Home.calls (Home.step e h) = Home.calls h ++ [c]
                 /\ is_metrics_call c = false /\ device_request_ok c
  else Home.calls (Home.step e h) = Home.calls h.
Proof.
  intros He. destruct e as [qy|qy| |i o|i o|i o]; try discriminate; cbn [is_deps_change Home.step].
  - destruct (start_query_calls qy (Home.cleanup (Home.query_cleanup h) h))
      as (c & Ec & Hc).
    exists c. rewrite Ec.
    rewrite (proj1 (proj2 (proj2 (proj2 (cleanup_fields _ h))))). auto.
  - rewrite (proj1 (proj2 (proj2 (proj2 (cleanup_fields _ _))))).
    exact (proj1 (proj2 (proj2 (proj2 (cleanup_fields _ h))))).
  - destruct (Home.awaited i Home.MetricsEffect None h); reflexivity.
  - destruct (Home.awaited i Home.QueryEffect (Some true) h); reflexivity.
  - destruct (Home.awaited i Home.QueryEffect (Some false) h); reflexivity.
Qed.

(** X20. Home: the dashboard metrics are requested once, at mount; every run of
    the second effect makes exactly one further request and an answer makes
    none; a request for devices never names the report tab and always
    carries the page size 10. *)
Theorem home_requests qy l :
  Forall (fun e => is_mount e = false) l ->
  exists rest,
    Home.calls (Home.run (Home.Mounted qy :: l) Home.initial_home)
    = Home.LoadDashboardMetrics :: rest
    /\ length rest = S (length (List.filter is_deps_change l))
    /\ Forall (fun c => is_metrics_call c = false) rest
    /\ Forall device_request_ok rest.
Proof.
  induction l as [|e l IH] using rev_ind; intros Hl.
  - rewrite home_run_cons. cbn [Home.run foldl Home.step].
    destruct (start_query_calls qy (Home.start_metrics qy Home.initial_home))
      as (c & Ec & Hm & Hok).
    exists [c]. rewrite Ec. cbn. repeat split; auto.
  - apply Forall_app in Hl as [Hl He]. inversion He as [|? ? Hm _]; subst.
    destruct (IH Hl) as (rest & Ec & Hlen & Hmet & Hok).
    change (Home.Mounted qy :: l ++ [e]) with ((Home.Mounted qy :: l) ++ [e]).
    rewrite home_run_snoc.
    pose proof (step_calls e (Home.run (Home.Mounted qy :: l) Home.initial_home) Hm)
      as Hstep.
    rewrite List.filter_app, length_app. cbn [List.filter].
    destruct (is_deps_change e).
    + destruct Hstep as (c & Ec' & Hcm & Hcok).
      exists (rest ++ [c]). rewrite Ec', Ec. split; [reflexivity|].
      rewrite length_app, Hlen. cbn. split; [lia|].
      split; apply Forall_app; auto.
    + exists rest. rewrite Hstep, Ec. cbn. repeat split; auto. lia.
Qed.

Lemma ceiling_of_quotient (t s : Z) :
  (0 < s)%Z ->
  (t <= Qceiling (inject_Z t / inject_Z s) * s)%Z
  /\ ((Qceiling (inject_Z t / inject_Z s) - 1) * s < t)%Z.
Proof.
  intros Hs.
  assert (Hs' : (0 < inject_Z s)%Q)     by (change (inject_Z 0 < inject_Z s)%Q; rewrite <- Zlt_Qlt; exact Hs).
  assert (Hx : (inject_Z t / inject_Z s * inject_Z s == inject_Z t)%Q).
  { field. lra. }
  set (x := (inject_Z t / inject_Z s)%Q) in *.
  pose proof (Qle_ceiling x) as Hle. pose proof (Qceiling_lt x) as Hlt.
  set (c := Qceiling x) in *. split.
  - rewrite Zle_Qle, inject_Z_mult, <- Hx.
    apply Qmult_le_compat_r; [exact Hle|lra].
  - rewrite Zlt_Qlt, inject_Z_mult, <- Hx.
    apply Qmult_lt_compat_r; [exact Hs'|exact Hlt].
Qed.

(** X21. Home: for whole numbers of rows, the page count is the least number of
    pages of the given size that hold all rows (at least one); on a page
    within that count the range shown starts at the first row of the page,
    is not empty, holds at most one page of rows, ends at the total on the
    last page and is a full page before it. *)
Theorem home_pagination_window v d (p s t : Z) :
  Home.devicesData v = Some d ->
  (Home.d_page d == inject_Z p)%Q ->
  (Home.d_pageSize d == inject_Z s)%Q ->
  (Home.total d == inject_Z t)%Q ->
  (0 < s)%Z -> (0 <= t)%Z ->
  exists n : Z,
    (Home.pages v == inject_Z n)%Q
    /\ (1 <= n)%Z /\ (t <= n * s)%Z /\ (1 < n -> (n - 1) * s < t)%Z
    /\ ((1 <= p <= n)%Z -> (0 < t)%Z ->
        exists a b : Z,
          (Home.from_row v == inject_Z a)%Q /\ (Home.to_row v == inject_Z b)%Q
          /\ a = ((p - 1) * s + 1)%Z /\ (a <= b <= t)%Z /\ (b - a < s)%Z
          /\ (p = n -> b = t) /\ ((p < n)%Z -> (b - a + 1)%Z = s)).
Proof.
  intros Hd Hp Hs Ht Hspos Htnn.
  destruct (ceiling_of_quotient t s Hspos) as [Hup Hlow].
  set (c := Qceiling (inject_Z t / inject_Z s)) in *.
  assert (Hc : Qceiling (Home.total d / Home.d_pageSize d) = c).
  { unfold c. apply Qceiling_comp. rewrite Ht, Hs. reflexivity. }
  exists (Z.max 1 c).
  assert (Hpages : (Home.pages v == inject_Z (Z.max 1 c))%Q).
  { unfold Home.pages. rewrite Hd, Hc.
    destruct (Z.max_spec 1 c) as [[Hlt ->]|[Hge ->]].
    - apply Q.max_r. change 1%Q with (inject_Z 1). rewrite <- Zle_Qle. lia.
    - apply Q.max_l. change 1%Q with (inject_Z 1). rewrite <- Zle_Qle. lia. }
  split; [exact Hpages|]. split; [lia|]. split; [nia|]. split; [nia|].
  intros Hrange Htpos.
  exists ((p - 1) * s + 1)%Z, (Z.min t (p * s)).
  split.
  { unfold Home.from_row. rewrite Hd.
    destruct (Qeq_bool (Home.total d) 0) eqn:Ez.
    - apply Qeq_bool_iff in Ez. rewrite Ht in Ez.
      unfold Qeq in Ez. cbn in Ez. lia.
    - rewrite Hp, Hs. rewrite inject_Z_plus, inject_Z_mult.
      unfold Z.sub. rewrite inject_Z_plus. reflexivity. }
  split.
  { unfold Home.to_row. rewrite Hd.
    destruct (Z.min_spec t (p * s)) as [[Hlt ->]|[Hge ->]].
    - rewrite <- Ht. apply Q.min_l. rewrite Ht, Hp, Hs, <- inject_Z_mult.
      rewrite <- Zle_Qle. lia.
    - rewrite inject_Z_mult, <- Hp, <- Hs. apply Q.min_r.
      rewrite Ht, Hp, Hs, <- inject_Z_mult. rewrite <- Zle_Qle. lia. }
  split; [reflexivity|].
  repeat split; try nia.
Qed.

(** X22. Home: the links "Anterior" and "Próximo" never leave the pages that
    exist: with a page size other than 0 in the data, from a page not below
    1 the previous link leads to a page
    between 1 and the current one, and the next link to a page between 1
    and the page count. *)
Theorem home_page_links_in_range v (page : Q) :
  (forall d, Home.devicesData v = Some d -> ~ (Home.d_pageSize d == 0)%Q) ->
  (1 <= page)%Q ->
  (1 <= Home.previous_page page)%Q /\ (Home.previous_page page <= page)%Q
  /\ (1 <= Home.next_page v page)%Q /\ (Home.next_page v page <= Home.pages v)%Q.
Proof.
  intros _ Hpage. unfold Home.previous_page, Home.next_page.
  assert (Hpages : (1 <= Home.pages v)%Q).
  { unfold Home.pages. destruct (Home.devicesData v); [apply Q.le_max_l|lra]. }
  repeat split.
  - apply Q.le_max_l.
  - apply Q.max_lub; lra.
  - apply Q.min_glb; lra.
  - apply Q.le_min_l.
Qed.

(** ** Instances on the reference platform *)

Example credential_text :
  Sample.credential 1700000100
  = lit "eyJhbGciOiJIUzI1NiJ9.eyJzdWIiOiJhbmEiLCJleHAiOjE3MDAwMDAxMDB9.c2ln".
Proof. vm_compute. reflexivity. Qed.

Example credential_claims :
  getTokenPayload (H := Reference.platform)
    (Given (lit "eyJhbGciOiJIUzI1NiJ9.eyJzdWIiOiJhbmEiLCJleHAiOjE3MDAwMDAxMDB9.c2ln"))
    (Sample.browser None None)
  = (Normal (Sample.claims 1700000100), Sample.browser None None).
Proof. vm_compute. reflexivity. Qed.


Lemma C7_witness :
  getTokenPayload (H := Reference.platform) (Given (lit "h.%%%.s"))
    (Sample.browser None None)
  = (Normal JNull, Sample.browser None None).
Proof.
  apply (proj2 (proj2 (C7_decoder_never_raises (H := Reference.platform)
                         (Sample.browser None None)))
           (lit "h.%%%.s") (lit "%%%")); [reflexivity|left; reflexivity].
Defined.

Lemma C8_witness :
  getTokenPayload (H := Reference.platform)
    (Given (Sample.header ++ ch "." ::
            base64url_encode
              (utf8_encode (@JSON_stringify Reference.platform
                             (Sample.claims 1700000100)))
            ++ lit ".c2ln"))
    (Sample.browser None None)
  = (Normal (Sample.claims 1700000100), Sample.browser None None).
Proof.
  apply (C8_decode_encode_round_trip (H := Reference.platform)).
  - vm_compute. repeat (constructor; [discriminate|]). constructor.
  - right. exists (lit "c2ln"). reflexivity.
  - vm_compute. reflexivity.
  - vm_compute. discriminate.
  - vm_compute. reflexivity.
Defined.

Lemma C9_witness :
  getTokenPayload (H := Reference.platform)
    (Given (lit "a.eyJleHAiOjF9")) (Sample.browser None None)
  = getTokenPayload (H := Reference.platform)
      (Given (lit "bcd.eyJleHAiOjF9.e.f")) (Sample.browser None None).
Proof.
  apply (C9_only_second_segment_matters (H := Reference.platform));
    vm_compute; try reflexivity; lia.
Defined.

Lemma C10_witness :
  fst (getTokenPayload (H := Reference.platform) Null
         (Sample.browser None (Sample.holding (Sample.credential 1700000100))))
  = Normal (Sample.claims 1700000100) /\
  trace (snd (getTokenPayload (H := Reference.platform) Null
                (Sample.browser None
                   (Sample.holding (Sample.credential 1700000100)))))
  = [StorageGet TOKEN_KEY].
Proof.
  destruct (C10_fallback_only_on_nullish (H := Reference.platform)
              (Sample.browser None (Sample.holding (Sample.credential 1700000100)))
              None)
    as (_ & _ & _ & _ & Hnull).
  destruct (Hnull Null (or_introl eq_refl)) as (Hsnd & _ & Htrace & Hsome & _).
  split.
  - rewrite (proj1 (Hsome (Sample.credential 1700000100)
                      ltac:(vm_compute; reflexivity))).
    vm_compute. reflexivity.
  - rewrite Hsnd.
    apply (Htrace (Area false {[ TOKEN_KEY := Sample.credential 1700000100 ]})).
    reflexivity.
Defined.

Lemma C6_witness :
  exists f,
    run (H := Reference.platform) [Mount]
      (initial_frame (Sample.browser (Some (lit "http://api")) (Some Blocked))
                     (lit "/"))
    = (Throw (DOMException (lit "SecurityError")), f) /\
    trace (tab f) = [StorageGet TOKEN_KEY; StorageRemove TOKEN_KEY].
Proof.
  destruct (C6_absent_or_expired_redirects (H := Reference.platform)
              (Sample.browser (Some (lit "http://api")) (Some Blocked))
              (lit "/"))
    as (_ & _ & Hblocked & _).
  - vm_compute. discriminate.
  - left. reflexivity.
  - destruct (Hblocked eq_refl) as (f & Hrun & _ & Htr & _).
    exists f. split; [exact Hrun|exact Htr].
Defined.

Lemma C5_witness :
  exists f,
    run (H := Reference.platform)
      [Mount; Settle (Fulfilled {| status := 200;
                                   text := Sample.profile_body |})]
      (initial_frame (Sample.browser (Some (lit "http://api"))
                        (Sample.holding (Sample.credential 1700000100)))
                     (lit "/"))
    = (Normal tt, f) /\
    me f = Sample.profile /\
    checking f = false.
Proof.
  destruct (C5_verification_round_trip (H := Reference.platform)
              (Sample.browser (Some (lit "http://api"))
                 (Sample.holding (Sample.credential 1700000100)))
              (lit "/") false {[ TOKEN_KEY := Sample.credential 1700000100 ]}
              (Sample.credential 1700000100) (lit "http://api"))
    as (_ & _ & _ & Hok).
  - vm_compute. discriminate.
  - reflexivity.
  - vm_compute. reflexivity.
  - vm_compute. reflexivity.
  - reflexivity.
  - vm_compute. discriminate.
  - destruct (Hok {| status := 200; text := Sample.profile_body |}
                  (Sample.profile))
      as (f & Hrun & Hme & Hch & _).
    + reflexivity.
    + vm_compute. reflexivity.
    + exists f. repeat split; assumption.
Defined.

Lemma C1_witness :
  exists f,
    run (H := Reference.platform) [Mount; Unmount]
      (initial_frame (Sample.browser (Some (lit "http://api"))
                        (Sample.holding (Sample.credential 1700000100)))
                     (lit "/"))
    = (Normal tt, f) /\
    stored (tab f) = None /\
    trace (tab f)
    = [StorageGet TOKEN_KEY;
       FetchSent (me_request (lit "http://api") (Sample.credential 1700000100));
       AbortSignalled; StorageRemove TOKEN_KEY; RouterReplace (lit "/login")].
Proof.
  destruct (C1_teardown_clears_session (H := Reference.platform)
              (Sample.browser (Some (lit "http://api"))
                 (Sample.holding (Sample.credential 1700000100)))
              (lit "/") false {[ TOKEN_KEY := Sample.credential 1700000100 ]}
              (Sample.credential 1700000100) (lit "http://api"))
    as (f & Hrun & _ & Hst & Htr).
  - vm_compute. discriminate.
  - reflexivity.
  - vm_compute. reflexivity.
  - vm_compute. reflexivity.
  - reflexivity.
  - vm_compute. discriminate.
  - exists f. repeat split; assumption.
Defined.

Lemma C2_witness :
  getDeviceDetail (H := Reference.platform) (lit "42")
    (Fulfilled {| status := 200; text := lit "{}" |})
    (Sample.browser None Sample.empty_storage)
  = (Throw configuration_error, Sample.browser None Sample.empty_storage).
Proof.
  apply (proj1 (C2_missing_base_url (H := Reference.platform)
                  (Sample.browser None Sample.empty_storage) eq_refl)
           (lit "42") 0 0 JNull).
Defined.

Lemma C3_witness :
  fst (clearToken (Sample.browser None (Some Blocked)))
  = Throw (DOMException (lit "SecurityError")).
Proof.
  apply (proj1 (proj2 (proj2 (proj2 (C3_token_store_failures
                                       (Sample.browser None (Some Blocked)) []))))
           eq_refl).
Defined.

(** The guard of a protected page with a valid credential and no backend
    base URL: nothing is thrown. *)
Lemma C2_guard_does_not_throw :
  NEXT_PUBLIC_PY_API_URL
    (Sample.browser None (Sample.holding (Sample.credential 1700000100))) = None /\
  fst (isTokenExpired (H := Reference.platform)
         (Given (Sample.credential 1700000100)) None
         (Sample.browser None (Sample.holding (Sample.credential 1700000100))))
  = Normal false /\
  ~ (exists e,
       fst (run (H := Reference.platform) [Mount]
              (initial_frame
                 (Sample.browser None (Sample.holding (Sample.credential 1700000100)))
                 (lit "/")))
       = Throw e).
Proof.
  split; [reflexivity|]. split; [vm_compute; reflexivity|].
  intros [e He]. vm_compute in He. discriminate He.
Qed.

(** The same page sends no verification request. *)
Lemma C5_no_request_without_base_url :
  stored (Sample.browser None (Sample.holding (Sample.credential 1700000100)))
  = Some (Sample.credential 1700000100) /\
  fst (isTokenExpired (H := Reference.platform)
         (Given (Sample.credential 1700000100)) None
         (Sample.browser None (Sample.holding (Sample.credential 1700000100))))
  = Normal false /\
  fetches (trace (tab (snd (run (H := Reference.platform) [Mount]
                              (initial_frame
                                 (Sample.browser None
                                    (Sample.holding (Sample.credential 1700000100)))
                                 (lit "/")))))) = [].
Proof.
  split; [vm_compute; reflexivity|]. split; vm_compute; reflexivity.
Qed.


(** The subtraction of the model and that of the Standard Library's
    IEEE 754 specification agree where they were compared: on a difference
    that is rounded (1700000030 - 29.9999999999), on exact differences, on
    ties, on subnormal numbers and on overflow. *)
Example number_sub_agrees_with_SpecFloat :
  forallb subtraction_agrees
    [ (1700000030, 0, (8444249301291533, -48));
      (1700000030, 0, (30, 0));
      (1, 0, (1, -60));
      (1, 0, (1, -53));
      (1, 0, (3, -54));
      (9007199254740992, 0, (-1, 0));
      (9007199254740993, 0, (-3, 0));
      (1, 1023, (-1, 1023));
      (-1, 1023, (1, 1023));
      (1, -1074, (3, -1075));
      (1, -1074, (1, -1074));
      (1, 0, (1, 0));
      (3, -1, (1, 970)) ]%Z = true.
Proof. vm_compute. reflexivity. Qed.

Example round64_samples :
  (exists r, round64 (1 # 10) = Double r
             /\ (r == 3602879701896397 # 36028797018963968)%Q) /\
  (exists r, round64 9007199254740993 = Double r
             /\ (r == 9007199254740992)%Q) /\
  (exists r, round64 9007199254740995 = Double r
             /\ (r == 9007199254740996)%Q) /\
  round64 (inject_Z (2 ^ 1024 - 2 ^ 970)) = Infinite false.
Proof.
  split; [eexists; split; vm_compute; reflexivity|].
  split; [eexists; split; vm_compute; reflexivity|].
  split; [eexists; split; vm_compute; reflexivity|].
  vm_compute. reflexivity.
Qed.

(** ** Further instances on the reference platform *)

Lemma setToken_last_writer_wins_witness :
  exists w',
    (setToken (lit "a") ;; setToken (lit "b") ;; getToken)
      (Sample.browser None Sample.empty_storage)
    = (Normal (Some (lit "b")), w') /\
    window w' = Some (Area false (<[TOKEN_KEY := lit "b"]> ∅)).
Proof.
  apply (setToken_last_writer_wins (Sample.browser None Sample.empty_storage)
           ∅ (lit "a") (lit "b")).
  reflexivity.
Defined.

Lemma clearToken_idempotent_witness :
  exists w',
    (setToken (lit "a") ;; clearToken ;; getToken)
      (Sample.browser None Sample.empty_storage)
    = (Normal None, w') /\
    window w' = window (Sample.browser None Sample.empty_storage).
Proof.
  apply (proj2 (clearToken_idempotent (Sample.browser None Sample.empty_storage)
                  false ∅ (lit "a") eq_refl)); reflexivity.
Defined.

Lemma base64UrlDecode_padded_witness :
  base64UrlDecode (base64_encode (utf8_encode (lit "a"))) tt
  = (Normal (lit "a"), tt).
Proof.
  apply (base64UrlDecode_padded (lit "a") tt). vm_compute. reflexivity.
Defined.

Lemma base64UrlDecode_length_1_mod_4_witness :
  base64UrlDecode (lit "abcde") tt = (Normal [], tt).
Proof.
  apply (proj1 (base64UrlDecode_length_1_mod_4 (H := Reference.platform)
                  (lit "abcde") eq_refl)).
Defined.

Lemma isTokenExpired_stays_expired_witness :
  fst (isTokenExpired (H := Reference.platform)
         (Given (Sample.credential 1699999000)) (Some (Double 60%Q))
         (Sample.browser None None)) = Normal true.
Proof.
  apply (isTokenExpired_stays_expired (H := Reference.platform)
           (Given (Sample.credential 1699999000)) None (Some (Double 60%Q))
           (Sample.browser None None) (Sample.browser None None)).
  - reflexivity.
  - vm_compute. discriminate.
  - reflexivity.
  - vm_compute. reflexivity.
Defined.

Lemma stale_result_is_discarded_witness :
  run (H := Reference.platform)
    ([Mount] ++ [Unmount; Settle (Fulfilled {| status := 200;
                                               text := Sample.profile_body |})])
    HomeSample.verifying
  = run (H := Reference.platform) ([Mount] ++ [Unmount]) HomeSample.verifying.
Proof.
  apply (stale_result_is_discarded (H := Reference.platform)).
  left. reflexivity.
Defined.

Lemma protected_content_needs_verification_witness :
  exists res,
    In (Settle (Fulfilled res))
       [Settle (Fulfilled {| status := 200; text := Sample.profile_body |})]
    /\ ok res = true
    /\ @JSON_parse Reference.platform (text res)
       = Some (me (snd (run (H := Reference.platform)
                          [Mount; Settle (Fulfilled {| status := 200;
                                                       text := Sample.profile_body |})]
                          (initial_frame
                             (Sample.browser (Some (lit "http://api"))
                                (Sample.holding (Sample.credential 1700000100)))
                             (lit "/"))))).
Proof.
  destruct (protected_content_needs_verification (H := Reference.platform)
              (initial_frame
                 (Sample.browser (Some (lit "http://api"))
                    (Sample.holding (Sample.credential 1700000100)))
                 (lit "/"))
              [Settle (Fulfilled {| status := 200; text := Sample.profile_body |})])
    as [Hres|[Hch _]].
  - vm_compute. discriminate.
  - reflexivity.
  - constructor; [discriminate|constructor].
  - vm_compute. reflexivity.
  - exact Hres.
  - vm_compute in Hch. discriminate Hch.
Defined.

Lemma login_page_effect_witness :
  exists f,
    run (H := Reference.platform) [Mount]
      (initial_frame (Sample.browser None
                        (Sample.holding (Sample.credential 1700000100)))
                     (lit "/login"))
    = (Normal tt, f) /\
    trace (tab f) = [StorageGet TOKEN_KEY; RouterReplace (lit "/")].
Proof.
  destruct (proj2 (login_page_effect (H := Reference.platform)
                     (Sample.browser None
                        (Sample.holding (Sample.credential 1700000100)))))
    as (f & Hrun & _ & _ & _ & Hvalid & _).
  exists f. split; [exact Hrun|].
  rewrite (Hvalid (Sample.credential 1700000100));
    [reflexivity|reflexivity|vm_compute; reflexivity].
Defined.

Lemma logout_clears_session_witness :
  exists f',
    step (H := Reference.platform) ClickLogout HomeSample.verifying
    = (Normal tt, f') /\
    stored (tab f') = None /\
    pending f' = pending HomeSample.verifying.
Proof.
  destruct (logout_clears_session (H := Reference.platform) HomeSample.verifying
              false {[ TOKEN_KEY := Sample.credential 1700000100 ]} eq_refl)
    as (f' & Hstep & Hst & _ & _ & _ & Hp).
  exists f'. auto.
Defined.

Lemma failed_verification_ends_session_witness :
  exists f',
    step (H := Reference.platform) (Settle (Rejected TypeError))
      HomeSample.verifying
    = (Normal tt, f') /\
    stored (tab f') = None /\
    pending f' = None.
Proof.
  destruct (failed_verification_ends_session (H := Reference.platform)
              (Rejected TypeError) HomeSample.verifying
              (me_request (lit "http://api") (Sample.credential 1700000100))
              false {[ TOKEN_KEY := Sample.credential 1700000100 ]}
              eq_refl eq_refl (or_introl (ex_intro _ TypeError eq_refl)))
    as (f' & Hstep & Hst & _ & _ & _ & Hp).
  exists f'. auto.
Defined.

Lemma wrappers_send_at_most_one_request_witness :
  exists r,
    fetches (trace (snd (perform (H := Reference.platform)
                           (GetDeviceDetail (lit "7")) (Rejected TypeError)
                           (Sample.browser (Some (lit "http://api")) None))))
    = [] ++ [r].
Proof.
  apply (proj1 (wrappers_send_at_most_one_request (H := Reference.platform)
                  (GetDeviceDetail (lit "7")) (Rejected TypeError)
                  (Sample.browser (Some (lit "http://api")) None))).
  split; [reflexivity|].
  intros d Hd. injection Hd as <-. vm_compute. discriminate.
Defined.

Lemma wrappers_fail_on_error_witness :
  exists prefix,
    fst (perform (H := Reference.platform) (DeleteMaintenance 4)
           (Fulfilled {| status := 404; text := [] |})
           (Sample.browser (Some (lit "http://api")) None))
    = Throw (Error (prefix ++ lit "404")).
Proof.
  assert (Hreach : reachable (H := Reference.platform) (DeleteMaintenance 4)
                     (Sample.browser (Some (lit "http://api")) None)).
  { split; [reflexivity|]. intros d Hd. cbn in Hd. discriminate Hd. }
  apply (proj2 (wrappers_fail_on_error (H := Reference.platform)
                  (DeleteMaintenance 4)
                  (Sample.browser (Some (lit "http://api")) None) Hreach)
           {| status := 404; text := [] |}).
  reflexivity.
Defined.

Lemma wrappers_resolve_on_success_witness :
  fst (perform (H := Reference.platform) (GetDeviceNotes (lit "7"))
         (Fulfilled {| status := 200; text := Sample.profile_body |})
         (Sample.browser (Some (lit "http://api")) None))
  = Normal (Some Sample.profile).
Proof.
  rewrite (wrappers_resolve_on_success (H := Reference.platform)
             (GetDeviceNotes (lit "7"))
             {| status := 200; text := Sample.profile_body |}
             (Sample.browser (Some (lit "http://api")) None)).
  - vm_compute. reflexivity.
  - split; [reflexivity|].
    intros d Hd. injection Hd as <-. vm_compute. discriminate.
  - reflexivity.
Defined.

Lemma home_superseded_run_is_ignored_witness :
  Home.shown
    (Home.step (Home.DevicesSettled 1 (Home.Resolved HomeSample.rows))
       (Home.run [Home.Mounted HomeSample.first_page;
                  Home.DepsChanged HomeSample.third_page] Home.initial_home))
  = Home.shown
      (Home.run [Home.Mounted HomeSample.first_page;
                 Home.DepsChanged HomeSample.third_page] Home.initial_home).
Proof.
  apply (home_superseded_run_is_ignored HomeSample.first_page
           [Home.DepsChanged HomeSample.third_page] 1%nat).
  - constructor; [reflexivity|constructor].
  - vm_compute. discriminate.
  - exact (Home.RejectedWith None).
Defined.

Lemma home_unmounted_ignores_answers_witness :
  Home.shown
    (Home.run (Home.Mounted HomeSample.first_page
               :: [] ++ Home.Unmounted
               :: [Home.DevicesSettled 1 (Home.Resolved HomeSample.rows)])
       Home.initial_home)
  = Home.shown (Home.run [Home.Mounted HomeSample.first_page] Home.initial_home).
Proof.
  apply (home_unmounted_ignores_answers HomeSample.first_page []
           [Home.DevicesSettled 1 (Home.Resolved HomeSample.rows)]).
  - constructor.
  - constructor; [reflexivity|constructor].
Defined.

Lemma home_state_follows_latest_run_witness :
  exists id c,
    latest_run (Home.run [Home.Mounted HomeSample.first_page;
                          Home.DepsChanged HomeSample.third_page]
                  Home.initial_home) id c
    /\ Home.captured c = HomeSample.third_page
    /\ view_of_run
         (Home.shown (Home.run [Home.Mounted HomeSample.first_page;
                                Home.DepsChanged HomeSample.third_page]
                        Home.initial_home)) c.
Proof.
  apply (home_state_follows_latest_run HomeSample.first_page
           [Home.DepsChanged HomeSample.third_page]).
  constructor; [split; reflexivity|constructor].
Defined.

Lemma home_failed_load_shows_empty_page_witness :
  Home.from_row
    (Home.shown (Home.step (Home.DevicesSettled 1 (Home.RejectedWith None))
                   (Home.run [Home.Mounted HomeSample.third_page]
                      Home.initial_home))) = 0%Q
  /\ Home.pages
       (Home.shown (Home.step (Home.DevicesSettled 1 (Home.RejectedWith None))
                      (Home.run [Home.Mounted HomeSample.third_page]
                         Home.initial_home))) = 1%Q.
Proof.
  destruct (home_failed_load_shows_empty_page HomeSample.third_page [] 1%nat None)
    as (_ & _ & _ & Hfrom & _ & Hpages & _).
  - constructor.
  - vm_compute. discriminate.
  - reflexivity.
  - reflexivity.
  - vm_compute. discriminate.
  - split; [exact Hfrom|exact Hpages].
Defined.

Lemma home_requests_witness :
  exists rest,
    Home.calls (Home.run [Home.Mounted HomeSample.first_page;
                          Home.DepsChanged HomeSample.third_page]
                  Home.initial_home)
    = Home.LoadDashboardMetrics :: rest
    /\ length rest = 2%nat
    /\ Forall (fun c => is_metrics_call c = false) rest
    /\ Forall device_request_ok rest.
Proof.
  apply (home_requests HomeSample.first_page
           [Home.DepsChanged HomeSample.third_page]).
  constructor; [reflexivity|constructor].
Defined.

Lemma home_pagination_window_witness :
  exists n : Z,
    (Home.pages (Home.setDevicesData (Some HomeSample.rows) Home.initial_view)
     == inject_Z n)%Q
    /\ (1 <= n)%Z /\ (25 <= n * 10)%Z /\ (1 < n -> (n - 1) * 10 < 25)%Z.
Proof.
  destruct (home_pagination_window
              (Home.setDevicesData (Some HomeSample.rows) Home.initial_view)
              HomeSample.rows 3 10 25)
    as (n & Hn & H1 & H2 & H3 & _).
  - reflexivity.
  - reflexivity.
  - reflexivity.
  - reflexivity.
  - lia.
  - lia.
  - exists n. auto.
Defined.

Lemma home_page_links_in_range_witness :
  (1 <= Home.previous_page 2)%Q /\ (Home.previous_page 2 <= 2)%Q
  /\ (1 <= Home.next_page
             (Home.setDevicesData (Some HomeSample.rows) Home.initial_view) 2)%Q
  /\ (Home.next_page
        (Home.setDevicesData (Some HomeSample.rows) Home.initial_view) 2
      <= Home.pages
           (Home.setDevicesData (Some HomeSample.rows) Home.initial_view))%Q.
Proof.
  apply (home_page_links_in_range
           (Home.setDevicesData (Some HomeSample.rows) Home.initial_view) 2).
  - intros d Hd. injection Hd as <-. intros E. unfold Qeq in E. cbn in E.
    discriminate E.
  - vm_compute. discriminate.
Defined.
